(** * acpush: the push session of lib/lib.go, and the program around it

    A shallow embedding of [Uploader.Upload] and of the functions it calls
    ([getInitiationURL], [initiateUpload], [uploadPart], [reportSuccess],
    [reportFailure], [complete], [performRequest], [genProgressBar]), of
    the configuration package main.go loads (rkt/config/config.go) and of
    [runACPush] of main.go with its auth hook.

    The program talks to the file system, to the appc libraries and to an
    HTTP server.  Everything outside lib.go is gathered in a record [Env]
    of oracles; the functions of lib.go run in a small monad [M] that reads
    the history of the session and produces the events the call adds to
    it.  The world of config.go and main.go is the record [config.World];
    the functions that read the file system return their value with the
    accesses they make. *)

From Stdlib Require Import Ascii String ZArith Lia.
From stdpp Require Import gmap strings list pretty sorting.

Open Scope string_scope.
Open Scope list_scope.
Open Scope Z_scope.

(** ** Errors *)

(** Go's [error] values.  The constructors keep apart where an error was
    made; lib.go itself only ever tests [err != nil] and prints an error
    with [%v], which is [Error]. *)
Inductive error : Type :=
| OSError (msg : string)                      (* os: Open, Seek, Stat *)
| LibError (msg : string)                     (* appc/spec: aci, discovery, schema *)
| NetError (msg : string)                     (* a failed round trip *)
| URLError (op url : string) (err : error)    (* net/url.Error, made by http.Client *)
| SyntaxError (msg : string)                  (* encoding/json *)
| UnmarshalTypeError (value type : string)    (* encoding/json *)
| Errorf (msg : string).                      (* fmt.Errorf *)

Fixpoint Error (e : error) : string :=
  match e with
  | OSError msg | LibError msg | NetError msg | SyntaxError msg | Errorf msg => msg
  | URLError op url err => op +:+ " " +:+ url +:+ ": " +:+ Error err
  | UnmarshalTypeError value type =>
      "json: cannot unmarshal " +:+ value +:+ " into Go value of type " +:+ type
  end.

(** A call that returns [(value, error)]. *)
Inductive result (A : Type) : Type :=
| Ok (a : A)
| Err (e : error).
Arguments Ok {A} a.
Arguments Err {A} e.

(** ** Data *)

Definition archLabelName : string := "arch".
Definition osLabelName : string := "os".
Definition extLabelName : string := "ext".

Record initiateDetails : Type := {
  ACIPushVersion : string;
  Multipart : bool;
  ManifestURL : string;
  SignatureURL : string;
  ACIURL : string;
  CompletedURL : string
}.

Record completeMsg : Type := {
  Success : bool;
  Reason : string;
  ServerReason : string
}.

(** [*os.File] *)
Record File : Type := { file_name : string; file_fd : nat }.

(** [ioprogress.Reader] as [genProgressBar] fills it: the wrapped file, the
    size to report against, the prefix and bar width of the draw function
    and the draw interval in nanoseconds. *)
Record progressReader : Type := {
  Reader : File;
  Size : Z;
  DrawPrefix : string;
  DrawBarSize : Z;
  DrawInterval : Z
}.

(** The [io.Reader] values that lib.go hands to [performRequest]. *)
Inductive body : Type :=
| NilBody                              (* nil *)
| BytesReader (blob : string)          (* bytes.NewReader(blob) *)
| FileBody (f : File)                  (* an *os.File *)
| ProgressBody (r : progressReader).   (* an *ioprogress.Reader *)

(** [*http.Request]: what lib.go and the auth hook can see of it. *)
Record Request : Type := {
  Method : string;
  URL : string;
  Header : list (string * string);
  ReqBody : body
}.

(** The body of a response: the bytes [ioutil.ReadAll] returns and the
    error it returns with them. *)
Record respBody : Type := {
  body_bytes : string;
  body_err : option error
}.

(** [*http.Response] *)
Record Response : Type := {
  StatusCode : Z;
  Location : string;
  Body : respBody
}.

(** [discovery.App]: [Labels] is a Go map, mutated in place by [Upload]. *)
Record App : Type := {
  App_Name : string;
  App_Labels : gmap string string
}.

(** [schema.ImageManifest]: [Labels] is a slice of name/value pairs. *)
Record ImageManifest : Type := {
  Manifest_Name : string;
  Manifest_Labels : list (string * string)
}.

(** A parsed JSON document. *)
#[local] Set Warnings "-register-all".
Inductive json : Type :=
| JNull
| JBool (b : bool)
| JNumber (literal : string)
| JString (s : string)
| JArray (elems : list json)
| JObject (members : list (string * json)).
#[local] Set Warnings "register-all".

(** [Uploader] *)
Record Uploader : Type := {
  Acipath : string;
  Ascpath : string;
  Uri : string;
  Insecure : bool;
  Debug : bool;
  SetHTTPHeaders : Request -> Request
}.

(** ** The history of a session *)

(** One event for every call that leaves lib.go. *)
Inductive event : Type :=
| EvOpen (path : string)
| EvFileClose (f : File)
| EvManifestFromImage (f : File)
| EvSeek (f : File)
| EvStat (f : File)
| EvDiscover (app : App) (insecure : bool)
| EvStderr (line : string)
| EvNewRequest (reqType url : string) (b : body)
| EvSetHTTPHeaders (req : Request)
| EvRoundTrip (insecure : bool) (req : Request)
| EvReadAll (b : respBody)
| EvBodyClose (b : respBody).

(** A computation reads the history so far and returns its value with the
    events it adds. *)
Definition M (A : Type) : Type := list event -> A * list event.

Definition ret {A} (a : A) : M A := fun _ => (a, []).

Definition bind {A B} (m : M A) (k : A -> M B) : M B :=
  fun h =>
    let (a, n1) := m h in
    let (b, n2) := k a (h ++ n1) in
    (b, n1 ++ n2).

Definition emit (e : event) : M unit := fun _ => (tt, [e]).

Definition history : M (list event) := fun h => (h, []).

Declare Scope go_scope.
Delimit Scope go_scope with go.
Notation "x <- m ;; k" := (bind m (fun x => k))
  (at level 100, m at next level, right associativity) : go_scope.
Notation "m ;;; k" := (bind m (fun _ => k))
  (at level 100, right associativity) : go_scope.
Open Scope go_scope.

(** [if err != nil { return err }] in a function that returns [error]. *)
Definition orReturn {A} (m : M (result A)) (k : A -> M (option error)) : M (option error) :=
  r <- m;;
  match r with
  | Err e => ret (Some e)
  | Ok a => k a
  end.

(** [if err != nil { return nil, err }] in a function that returns
    [(value, error)]. *)
Definition orFail {A B} (m : M (result A)) (k : A -> M (result B)) : M (result B) :=
  r <- m;;
  match r with
  | Err e => ret (Err e)
  | Ok a => k a
  end.

(** [defer cleanup] around the rest of the function. *)
Definition deferring {A} (cleanup : M unit) (rest : M A) : M A :=
  a <- rest;;
  cleanup;;;
  ret a.

(** ** The world outside lib.go *)

Record Env : Type := {
  (* os *)
  os_Open : string -> result File;
  File_Seek : File -> option error;
  File_Stat : File -> result Z;
  (* github.com/appc/spec *)
  ManifestFromImage : File -> result ImageManifest;
  MarshalJSON : ImageManifest -> result string;
  NewAppFromString : string -> result App;
  DiscoverEndpoints : App -> bool -> list string * list (string * error) * option error;
  ACIExtension : string;
  (* net/http *)
  NewRequest_err : string -> string -> option error;
  RoundTrip : bool -> list event -> Request -> result Response;
  shouldRedirect : string -> Z -> bool;
  redirectRequest : Request -> list Request -> string -> result Request;
  (* encoding/json *)
  json_parse : string -> result json;
  json_quote : string -> string;
  equalFold : string -> string -> bool;
  (* github.com/coreos/ioprogress *)
  ByteUnitStr : Z -> string;
  DrawTextFormatBar : Z -> Z -> Z -> string;
  DrawTextFormatBytes : Z -> Z -> string
}.

(** ** Strings *)

Definition dquote : string := String "034"%char EmptyString.
Definition newline : string := String "010"%char EmptyString.

(** [%q] of a string without characters that need escaping (the label
    names). *)
Definition quoted (s : string) : string := dquote +:+ s +:+ dquote.

(** [strings.TrimSuffix(s, "\n")] *)
Fixpoint TrimSuffix_newline (s : string) : string :=
  match s with
  | EmptyString => EmptyString
  | String c rest =>
      if decide (rest = EmptyString)
      then (if decide (c = "010"%char) then EmptyString else s)
      else String c (TrimSuffix_newline rest)
  end.

Fixpoint TrimLeft_char (c : ascii) (s : string) : string :=
  match s with
  | String c' rest => if decide (c' = c) then TrimLeft_char c rest else s
  | EmptyString => EmptyString
  end.

Fixpoint TrimRight_char (c : ascii) (s : string) : string :=
  match s with
  | EmptyString => EmptyString
  | String c' rest =>
      match TrimRight_char c rest with
      | EmptyString => if decide (c' = c) then EmptyString else String c' EmptyString
      | rest' => String c' rest'
      end
  end.

(** [strings.Trim(s, ".")] *)
Definition Trim_dot (s : string) : string :=
  TrimRight_char "."%char (TrimLeft_char "."%char s).

(** [method[0:1] + strings.ToLower(method[1:])], the [Op] of the
    [url.Error] of a failed [client.Do]. *)
Definition ToLower_ascii (c : ascii) : ascii :=
  let n := nat_of_ascii c in
  if ((65 <=? n)%nat && (n <=? 90)%nat)%bool then ascii_of_nat (n + 32) else c.

Fixpoint ToLower (s : string) : string :=
  match s with
  | EmptyString => EmptyString
  | String c rest => String (ToLower_ascii c) (ToLower rest)
  end.

Definition urlErrorOp (method : string) : string :=
  match method with
  | EmptyString => EmptyString
  | String c rest => String c (ToLower rest)
  end.

(** ** encoding/json on the two message types *)

Definition json_kind (v : json) : string :=
  match v with
  | JNull => "null"
  | JBool _ => "bool"
  | JNumber _ => "number"
  | JString _ => "string"
  | JArray _ => "array"
  | JObject _ => "object"
  end.

(** A JSON value stored into a Go [string]: [null] leaves the field as it
    is, anything but a string is a type error and leaves it too. *)
Definition store_string (v : json) (old : string) : string * option error :=
  match v with
  | JString s => (s, None)
  | JNull => (old, None)
  | _ => (old, Some (UnmarshalTypeError (json_kind v) "string"))
  end.

Definition store_bool (v : json) (old : bool) : bool * option error :=
  match v with
  | JBool b => (b, None)
  | JNull => (old, None)
  | _ => (old, Some (UnmarshalTypeError (json_kind v) "bool"))
  end.

(** The decoder's choice of the field for a key: the field whose name is
    the key, else the first field whose name folds to it. *)
Fixpoint find_field {F : Type} (fold : string -> string -> bool) (name : F -> string)
    (fields : list F) (key : string) (found : option F) : option F :=
  match fields with
  | [] => found
  | f :: rest =>
      if String.eqb (name f) key then Some f
      else find_field fold name rest key
             (match found with
              | Some _ => found
              | None => if fold (name f) key then Some f else None
              end)
  end.

(** [d.saveError]: the first error is the one [Unmarshal] returns. *)
Definition saveError (saved new : option error) : option error :=
  match saved with
  | Some _ => saved
  | None => new
  end.

Inductive initiateField : Type :=
| F_ACIPushVersion | F_Multipart | F_ManifestURL | F_SignatureURL | F_ACIURL | F_CompletedURL.

Definition initiateField_name (f : initiateField) : string :=
  match f with
  | F_ACIPushVersion => "aci_push_version"
  | F_Multipart => "multipart"
  | F_ManifestURL => "upload_manifest_url"
  | F_SignatureURL => "upload_signature_url"
  | F_ACIURL => "upload_aci_url"
  | F_CompletedURL => "completed_url"
  end.

Definition initiateFields : list initiateField :=
  [F_ACIPushVersion; F_Multipart; F_ManifestURL; F_SignatureURL; F_ACIURL; F_CompletedURL].

Definition store_initiateField (f : initiateField) (v : json) (d : initiateDetails)
    : initiateDetails * option error :=
  match f with
  | F_ACIPushVersion =>
      let (x, e) := store_string v (ACIPushVersion d) in
      ({| ACIPushVersion := x; Multipart := Multipart d; ManifestURL := ManifestURL d;
          SignatureURL := SignatureURL d; ACIURL := ACIURL d; CompletedURL := CompletedURL d |}, e)
  | F_Multipart =>
      let (x, e) := store_bool v (Multipart d) in
      ({| ACIPushVersion := ACIPushVersion d; Multipart := x; ManifestURL := ManifestURL d;
          SignatureURL := SignatureURL d; ACIURL := ACIURL d; CompletedURL := CompletedURL d |}, e)
  | F_ManifestURL =>
      let (x, e) := store_string v (ManifestURL d) in
      ({| ACIPushVersion := ACIPushVersion d; Multipart := Multipart d; ManifestURL := x;
          SignatureURL := SignatureURL d; ACIURL := ACIURL d; CompletedURL := CompletedURL d |}, e)
  | F_SignatureURL =>
      let (x, e) := store_string v (SignatureURL d) in
      ({| ACIPushVersion := ACIPushVersion d; Multipart := Multipart d; ManifestURL := ManifestURL d;
          SignatureURL := x; ACIURL := ACIURL d; CompletedURL := CompletedURL d |}, e)
  | F_ACIURL =>
      let (x, e) := store_string v (ACIURL d) in
      ({| ACIPushVersion := ACIPushVersion d; Multipart := Multipart d; ManifestURL := ManifestURL d;
          SignatureURL := SignatureURL d; ACIURL := x; CompletedURL := CompletedURL d |}, e)
  | F_CompletedURL =>
      let (x, e) := store_string v (CompletedURL d) in
      ({| ACIPushVersion := ACIPushVersion d; Multipart := Multipart d; ManifestURL := ManifestURL d;
          SignatureURL := SignatureURL d; ACIURL := ACIURL d; CompletedURL := x |}, e)
  end.

Inductive completeField : Type :=
| F_Success | F_Reason | F_ServerReason.

Definition completeField_name (f : completeField) : string :=
  match f with
  | F_Success => "success"
  | F_Reason => "reason"
  | F_ServerReason => "server_reason"
  end.

Definition completeFields : list completeField := [F_Success; F_Reason; F_ServerReason].

Definition store_completeField (f : completeField) (v : json) (m : completeMsg)
    : completeMsg * option error :=
  match f with
  | F_Success =>
      let (x, e) := store_bool v (Success m) in
      ({| Success := x; Reason := Reason m; ServerReason := ServerReason m |}, e)
  | F_Reason =>
      let (x, e) := store_string v (Reason m) in
      ({| Success := Success m; Reason := x; ServerReason := ServerReason m |}, e)
  | F_ServerReason =>
      let (x, e) := store_string v (ServerReason m) in
      ({| Success := Success m; Reason := Reason m; ServerReason := x |}, e)
  end.

(** The members of a JSON object stored one after the other into a struct:
    a key without a field is skipped, a later member overwrites an earlier
    one, a type error is saved and decoding goes on. *)
Fixpoint decode_members {F S : Type} (fold : string -> string -> bool) (name : F -> string)
    (fields : list F) (store : F -> json -> S -> S * option error)
    (members : list (string * json)) (s : S) (saved : option error) : S * option error :=
  match members with
  | [] => (s, saved)
  | (key, v) :: rest =>
      match find_field fold name fields key None with
      | None => decode_members fold name fields store rest s saved
      | Some f =>
          let (s', e) := store f v s in
          decode_members fold name fields store rest s' (saveError saved e)
      end
  end.

(** [json.Unmarshal(blob, &s)] for a struct [s] of Go type [gotype]. *)
Definition Unmarshal_struct {F S : Type} (env : Env) (gotype : string) (name : F -> string)
    (fields : list F) (store : F -> json -> S -> S * option error)
    (blob : string) (s : S) : S * option error :=
  match json_parse env blob with
  | Err e => (s, Some e)
  | Ok JNull => (s, None)
  | Ok (JObject members) =>
      decode_members (equalFold env) name fields store members s None
  | Ok v => (s, Some (UnmarshalTypeError (json_kind v) gotype))
  end.

Definition Unmarshal_initiateDetails (env : Env) (blob : string) (d : initiateDetails)
    : initiateDetails * option error :=
  Unmarshal_struct env "lib.initiateDetails" initiateField_name initiateFields
    store_initiateField blob d.

Definition Unmarshal_completeMsg (env : Env) (blob : string) (m : completeMsg)
    : completeMsg * option error :=
  Unmarshal_struct env "lib.completeMsg" completeField_name completeFields
    store_completeField blob m.

(** [json.Marshal] of a [completeMsg]: [reason] and [server_reason] are
    [omitempty]; marshalling a bool and two strings cannot fail. *)
Definition Marshal_completeMsg (env : Env) (m : completeMsg) : string * option error :=
  ("{" +:+ quoted "success" +:+ ":" +:+ (if Success m then "true" else "false")
   +:+ (if decide (Reason m = "") then ""
        else "," +:+ quoted "reason" +:+ ":" +:+ json_quote env (Reason m))
   +:+ (if decide (ServerReason m = "") then ""
        else "," +:+ quoted "server_reason" +:+ ":" +:+ json_quote env (ServerReason m))
   +:+ "}", None).

Definition zero_initiateDetails : initiateDetails :=
  {| ACIPushVersion := ""; Multipart := false; ManifestURL := ""; SignatureURL := "";
     ACIURL := ""; CompletedURL := "" |}.

Definition zero_completeMsg : completeMsg :=
  {| Success := false; Reason := ""; ServerReason := "" |}.

(** ** lib.go *)

Section Lib.

Context (env : Env).

(** *** Calls that leave lib.go, each with its event *)

Definition Open (path : string) : M (result File) :=
  emit (EvOpen path);;; ret (os_Open env path).

Definition Close (f : File) : M unit := emit (EvFileClose f).

Definition Seek (f : File) : M (option error) :=
  emit (EvSeek f);;; ret (File_Seek env f).

Definition Stat (f : File) : M (result Z) :=
  emit (EvStat f);;; ret (File_Stat env f).

Definition aci_ManifestFromImage (f : File) : M (result ImageManifest) :=
  emit (EvManifestFromImage f);;; ret (ManifestFromImage env f).

Definition discovery_DiscoverEndpoints (app : App) (insecure : bool)
    : M (list string * list (string * error) * option error) :=
  emit (EvDiscover app insecure);;; ret (DiscoverEndpoints env app insecure).

Definition http_NewRequest (reqType url : string) (b : body) : M (result Request) :=
  emit (EvNewRequest reqType url b);;;
  ret (match NewRequest_err env reqType url with
       | Some e => Err e
       | None => Ok {| Method := reqType; URL := url; Header := []; ReqBody := b |}
       end).

(** [u.SetHTTPHeaders(req)]: the hook works on the request in place. *)
Definition call_SetHTTPHeaders (u : Uploader) (req : Request) : M Request :=
  emit (EvSetHTTPHeaders req);;; ret (SetHTTPHeaders u req).

(** One request on the wire; the answer may depend on all that happened
    before. *)
Definition send (insecure : bool) (req : Request) : M (result Response) :=
  h <- history;;
  emit (EvRoundTrip insecure req);;;
  ret (RoundTrip env insecure h req).

Definition ioutil_ReadAll (b : respBody) : M (string * option error) :=
  emit (EvReadAll b);;; ret (body_bytes b, body_err b).

Definition Body_Close (b : respBody) : M unit := emit (EvBodyClose b).

(** [stderr]: one line on standard error. *)
Definition stderr (out : string) : M unit :=
  emit (EvStderr (TrimSuffix_newline out)).

(** *** http.Client.Do *)

(** The redirect loop of [http.Client]: send, and while the answer is a
    redirect build the next request, ask [CheckRedirect] with the requests
    made so far, and send again.  The loop of the library has no bound of
    its own; [fuel] counts the requests it may send and [None] is "out of
    fuel". *)
Fixpoint doFollowingRedirects (fuel : nat) (insecure : bool)
    (CheckRedirect : Request -> list Request -> M (result Request))
    (ireq req : Request) (via : list Request) : M (option (result Response)) :=
  match fuel with
  | O => ret None
  | S fuel' =>
      let op := urlErrorOp (Method ireq) in
      r <- send insecure req;;
      match r with
      | Err e => ret (Some (Err (URLError op (URL req) e)))
      | Ok resp =>
          if shouldRedirect env (Method ireq) (StatusCode resp) then
            Body_Close (Body resp);;;
            if decide (Location resp = "") then
              ret (Some (Err (URLError op ""
                     (Errorf (pretty (StatusCode resp) +:+ " response missing Location header")))))
            else
              let via' := via ++ [req] in
              match redirectRequest env ireq via' (Location resp) with
              | Err e => ret (Some (Err (URLError op (Location resp) e)))
              | Ok nreq =>
                  c <- CheckRedirect nreq via';;
                  match c with
                  | Err e => ret (Some (Err (URLError op (Location resp) e)))
                  | Ok nreq' => doFollowingRedirects fuel' insecure CheckRedirect ireq nreq' via'
                  end
              end
          else ret (Some (Ok resp))
      end
  end.

(** *** genProgressBar *)

(** The text of one progress line ([fmtfunc]). *)
Definition fmtfunc (prefix : string) (barSize progress total : Z) : string :=
  if total =? -1 then
    prefix +:+ ": " +:+ ByteUnitStr env progress +:+ " of an unknown total size"
  else
    prefix +:+ ": " +:+ DrawTextFormatBar env barSize progress total +:+ " "
      +:+ DrawTextFormatBytes env progress total.

Definition genProgressBar (file : File) (label : string) : M (result body) :=
  orFail (Stat file) (fun size =>
    let prefix := if decide (label = "") then "Uploading" else "Uploading " +:+ label in
    let fmtBytesSize := 18 in
    let barSize := 80 - Z.of_nat (String.length prefix) - fmtBytesSize in
    ret (Ok (ProgressBody {| Reader := file; Size := size; DrawPrefix := prefix;
                             DrawBarSize := barSize; DrawInterval := 1000000000 |}))).

(** *** performRequest *)

(** The [CheckRedirect] closure of [performRequest]. *)
Definition CheckRedirect (u : Uploader) (req : Request) (via : list Request)
    : M (result Request) :=
  if (10 <=? length via)%nat then ret (Err (Errorf "too many redirects"))
  else req' <- call_SetHTTPHeaders u req;; ret (Ok req').

(** Requests one [client.Do] of [performRequest] can send before
    [CheckRedirect] stops it. *)
Definition maxRequests : nat := 10.

(** [client.Do(req)] with the [CheckRedirect] of [performRequest].  The
    loop always returns within [maxRequests] requests ([client_Do_run]
    below), so the last branch is never taken. *)
Definition client_Do (u : Uploader) (req : Request) : M (result Response) :=
  r <- doFollowingRedirects maxRequests (Insecure u) (CheckRedirect u) req req [];;
  match r with
  | Some res => ret res
  | None => ret (Err (Errorf "redirect loop not stopped"))
  end.

(** Lines 276-282 of [performRequest]: the body, behind a progress bar
    when it is a file, [draw] is set and [u.Debug] is set. *)
Definition withProgress (u : Uploader) (b : body) (draw : bool) (label : string)
    : M (result body) :=
  match b with
  | FileBody fbody =>
      if (draw && Debug u)%bool then genProgressBar fbody label else ret (Ok b)
  | _ => ret (Ok b)
  end.

Definition performRequest (u : Uploader) (reqType url : string) (b : body) (draw : bool)
    (label : string) : M (result respBody) :=
  orFail (withProgress u b draw label) (fun b =>
  orFail (http_NewRequest reqType url b) (fun req =>
  req <- call_SetHTTPHeaders u req;;
  orFail (client_Do u req) (fun res =>
  if StatusCode res =? 200 then ret (Ok (Body res))
  else if StatusCode res =? 400 then ret (Ok (Body res))
  else
    Body_Close (Body res);;;
    ret (Err (Errorf ("bad HTTP status code: " +:+ pretty (StatusCode res))))))).

(** *** getInitiationURL, initiateUpload *)

Fixpoint stderr_attempts (attempts : list (string * error)) : M unit :=
  match attempts with
  | [] => ret tt
  | (prefix, err) :: rest =>
      stderr ("meta tag 'ac-push-discovery' not found on " +:+ prefix +:+ ": " +:+ Error err);;;
      stderr_attempts rest
  end.

Definition when (c : bool) (m : M unit) : M unit := if c then m else ret tt.

Definition getInitiationURL (u : Uploader) (app : App) : M (result string) :=
  when (Debug u) (stderr "searching for push endpoint via meta discovery");;;
  found <- discovery_DiscoverEndpoints app (Insecure u);;
  let '(eps, attempts, err) := found in
  when (Debug u) (stderr_attempts attempts);;;
  match err with
  | Some e => ret (Err e)
  | None =>
      match eps with
      | [] => ret (Err (Errorf "no endpoints discovered"))
      | ep :: _ =>
          when (Debug u) (stderr ("push endpoint found: " +:+ ep));;;
          ret (Ok ep)
      end
  end.

(** What [initiateUpload] returns: [nil, err], or the decoded details with
    the error of the decoder. *)
Inductive initiated : Type :=
| NoDetails (err : error)
| Details (deets : initiateDetails) (err : option error).

Definition initiateUpload (u : Uploader) (initurl : string) : M initiated :=
  when (Debug u) (stderr "initiating upload");;;
  r <- performRequest u "POST" initurl NilBody false "";;
  match r with
  | Err e => ret (NoDetails e)
  | Ok resp =>
      deferring (Body_Close resp) (
        read <- ioutil_ReadAll resp;;
        let (respblob, err) := read in
        match err with
        | Some e => ret (NoDetails e)
        | None =>
            let (deets, err) := Unmarshal_initiateDetails env respblob zero_initiateDetails in
            when (Debug u) (
              stderr "upload initiated";;;
              stderr (" - manifest endpoint: " +:+ ManifestURL deets);;;
              stderr (" - signature endpoint: " +:+ SignatureURL deets);;;
              stderr (" - aci endpoint: " +:+ ACIURL deets));;;
            ret (Details deets err)
        end)
  end.

(** *** uploadPart, reportSuccess, reportFailure, complete *)

Definition uploadPart (u : Uploader) (url : string) (b : body) (draw : bool) (label : string)
    : M (option error) :=
  r <- performRequest u "PUT" url b draw label;;
  match r with
  | Err e => ret (Some e)
  | Ok resp => Body_Close resp;;; ret None
  end.

Definition complete (u : Uploader) (url : string) (blob : string) : M (option error) :=
  r <- performRequest u "POST" url (BytesReader blob) false "";;
  match r with
  | Err e => ret (Some e)
  | Ok resp =>
      deferring (Body_Close resp) (
        read <- ioutil_ReadAll resp;;
        let (respblob, err) := read in
        match err with
        | Some e => ret (Some e)
        | None =>
            let (reply, err) := Unmarshal_completeMsg env respblob zero_completeMsg in
            match err with
            | Some e => ret (Some e)
            | None =>
                if negb (Success reply) then ret (Some (Errorf (ServerReason reply)))
                else ret None
            end
        end)
  end.

Definition reportSuccess (u : Uploader) (url : string) : M (option error) :=
  let (respblob, err) :=
    Marshal_completeMsg env {| Success := true; Reason := ""; ServerReason := "" |} in
  match err with
  | Some e => ret (Some e)
  | None => complete u url respblob
  end.

Definition reportFailure (u : Uploader) (url : string) (reason : string) : M (option error) :=
  let (respblob, err) :=
    Marshal_completeMsg env {| Success := false; Reason := reason; ServerReason := "" |} in
  match err with
  | Some e => ret (Some e)
  | None => complete u url respblob
  end.

(** *** Upload *)

Record partToUpload : Type := {
  label : string;
  url : string;
  r : body;
  draw : bool
}.

(** The [for _, part := range ...] loop of [Upload] (lines 149-163).
    [Some err] is [return err] from inside the loop, [None] is the loop
    running to its end. *)
Fixpoint uploadLoop (u : Uploader) (initDeets : initiateDetails) (parts : list partToUpload)
    : M (option error) :=
  match parts with
  | [] => ret None
  | part :: rest =>
      err <- uploadPart u (url part) (r part) (draw part) (label part);;
      match err with
      | Some err =>
          let reason := Errorf ("error uploading " +:+ label part +:+ ": " +:+ Error err) in
          reportErr <- reportFailure u (CompletedURL initDeets) (Error reason);;
          match reportErr with
          | Some reportErr =>
              ret (Some (Errorf ("error uploading " +:+ label part
                                 +:+ " and error reporting failure: " +:+ Error err
                                 +:+ ", " +:+ Error reportErr)))
          | None => ret (Some reason)
          end
      | None => uploadLoop u initDeets rest
      end
  end.

(** The three parts, in the order of the slice literal. *)
Definition partsToUpload (initDeets : initiateDetails) (manblob : string)
    (ascfile acifile : File) : list partToUpload :=
  [ {| label := "manifest"; url := ManifestURL initDeets; r := BytesReader manblob; draw := false |};
    {| label := "signature"; url := SignatureURL initDeets; r := FileBody ascfile; draw := true |};
    {| label := "ACI"; url := ACIURL initDeets; r := FileBody acifile; draw := true |} ].

(** Lines 142-170 of [Upload]: what it does once [initiateUpload] has
    returned without error. *)
Definition uploadAndReport (u : Uploader) (initDeets : initiateDetails) (manblob : string)
    (ascfile acifile : File) : M (option error) :=
  returned <- uploadLoop u initDeets (partsToUpload initDeets manblob ascfile acifile);;
  match returned with
  | Some err => ret (Some err)
  | None =>
      err <- reportSuccess u (CompletedURL initDeets);;
      match err with
      | Some err => ret (Some err)
      | None => ret None
      end
  end.

(** Modelled from the spec: [manifest.Labels.Get(name)] of appc/spec, which
    is not among the sources.  The labels are name/value pairs with unique
    names; [Get] returns the value under [name], if there is one. *)
Fixpoint Labels_Get (labels : list (string * string)) (name : string) : option string :=
  match labels with
  | [] => None
  | (n, v) :: rest => if String.eqb n name then Some v else Labels_Get rest name
  end.

(** Lines 100-118 of [Upload]: [arch], [os] and [ext] in [app.Labels]. *)
Definition resolveLabels (manifest : ImageManifest) (labels : gmap string string)
    : result (gmap string string) :=
  match (match labels !! archLabelName with
         | Some _ => Ok labels
         | None =>
             match Labels_Get (Manifest_Labels manifest) archLabelName with
             | None => Err (Errorf ("manifest is missing label: " +:+ quoted archLabelName))
             | Some arch => Ok (<[archLabelName := arch]> labels)
             end
         end) with
  | Err e => Err e
  | Ok labels =>
      match (match labels !! osLabelName with
             | Some _ => Ok labels
             | None =>
                 match Labels_Get (Manifest_Labels manifest) osLabelName with
                 | None => Err (Errorf ("manifest is missing label: " +:+ quoted osLabelName))
                 | Some os => Ok (<[osLabelName := os]> labels)
                 end
             end) with
      | Err e => Err e
      | Ok labels =>
          Ok (match labels !! extLabelName with
              | Some _ => labels
              | None => <[extLabelName := Trim_dot (ACIExtension env)]> labels
              end)
      end
  end.

(** Lines 91-140 of [Upload], with both files open: the manifest, the
    labels, the endpoint and the initiation. *)
Definition negotiate (u : Uploader) (acifile ascfile : File)
    : M (result (string * initiateDetails)) :=
  orFail (aci_ManifestFromImage acifile) (fun manifest =>
  orFail (ret (NewAppFromString env (Uri u))) (fun app =>
  orFail (ret (resolveLabels manifest (App_Labels app))) (fun labels =>
  let app := {| App_Name := App_Name app; App_Labels := labels |} in
  err <- Seek acifile;;
  match err with
  | Some e => ret (Err e)
  | None =>
      orFail (ret (MarshalJSON env manifest)) (fun manblob =>
      orFail (getInitiationURL u app) (fun initurl =>
      i <- initiateUpload u initurl;;
      match i with
      | NoDetails e => ret (Err e)
      | Details _ (Some e) => ret (Err e)
      | Details initDeets None => ret (Ok (manblob, initDeets))
      end))
  end))).

Definition Upload_files (u : Uploader) (acifile ascfile : File) : M (option error) :=
  orReturn (negotiate u acifile ascfile) (fun '(manblob, initDeets) =>
  uploadAndReport u initDeets manblob ascfile acifile).

Definition Upload (u : Uploader) : M (option error) :=
  orReturn (Open (Acipath u)) (fun acifile =>
  deferring (Close acifile) (
  orReturn (Open (Ascpath u)) (fun ascfile =>
  deferring (Close ascfile) (
  Upload_files u acifile ascfile)))).

End Lib.

(** ** Observations on the events of a call *)

(** The calls that reach the network: discovery and everything of
    net/http. *)
Definition is_network (e : event) : bool :=
  match e with
  | EvDiscover _ _ | EvNewRequest _ _ _ | EvSetHTTPHeaders _ | EvRoundTrip _ _
  | EvReadAll _ | EvBodyClose _ => true
  | _ => false
  end.

Definition network_calls (l : list event) : list event := filter (fun e => is_network e = true) l.

(** The completion messages made: the [POST] requests [http.NewRequest]
    is asked for with a byte body, as [(url, blob)].  Whether the request
    is made and goes on to the auth hook and the transport is seen in
    the events that follow ([posting] below). *)
Definition completion_post (e : event) : option (string * string) :=
  match e with
  | EvNewRequest reqType url (BytesReader blob) =>
      if String.eqb reqType "POST" then Some (url, blob) else None
  | _ => None
  end.

Definition completion_posts (l : list event) : list (string * string) :=
  omap completion_post l.

(** The part uploads made: the [PUT] requests [http.NewRequest] is asked
    for, as [(url, body)]. *)
Definition put_request (e : event) : option (string * body) :=
  match e with
  | EvNewRequest reqType url b =>
      if String.eqb reqType "PUT" then Some (url, b) else None
  | _ => None
  end.

Definition put_requests (l : list event) : list (string * body) := omap put_request l.

(** The reader a request body reads from. *)
Definition source_of (b : body) : body :=
  match b with
  | ProgressBody pr => FileBody (Reader pr)
  | _ => b
  end.

Definition is_SetHTTPHeaders (e : event) : bool :=
  match e with EvSetHTTPHeaders _ => true | _ => false end.

Definition is_RoundTrip (e : event) : bool :=
  match e with EvRoundTrip _ _ => true | _ => false end.

(** How often the auth hook ran, how many requests went on the wire. *)
Definition auth_calls (l : list event) : nat := length (filter (fun e => is_SetHTTPHeaders e = true) l).
Definition round_trips (l : list event) : nat := length (filter (fun e => is_RoundTrip e = true) l).

(** Every request on the wire is the one the auth hook has just returned. *)
Fixpoint auth_before_send (u : Uploader) (l : list event) : Prop :=
  match l with
  | [] => True
  | EvRoundTrip _ _ :: _ => False
  | EvSetHTTPHeaders req0 :: rest =>
      match rest with
      | EvRoundTrip _ req :: rest' => req = SetHTTPHeaders u req0 /\ auth_before_send u rest'
      | _ => auth_before_send u rest
      end
  | _ :: rest => auth_before_send u rest
  end.

(** What [resolveLabels] does to one of [arch] and [os]: the label of the
    name if it has one, else the label of the manifest. *)
Definition supplied (manifest : ImageManifest) (labels : gmap string string) (name : string)
    : option string :=
  match labels !! name with
  | Some v => Some v
  | None => Labels_Get (Manifest_Labels manifest) name
  end.

Definition missing_label (name : string) : error :=
  Errorf ("manifest is missing label: " +:+ quoted name).

(** A list of events that does not start with a request on the wire. *)
Definition quiet_head (l : list event) : Prop :=
  match l with
  | EvRoundTrip _ _ :: _ => False
  | _ => True
  end.

(** An answer that [http.Client] follows as a redirect of [ireq]: the
    status is one it redirects on, [Location] is there and parses. *)
Definition redirects (env : Env) (ireq : Request) (answer : result Response) : Prop :=
  match answer with
  | Ok resp =>
      shouldRedirect env (Method ireq) (StatusCode resp) = true /\
      Location resp <> "" /\
      forall via, exists nreq, redirectRequest env ireq via (Location resp) = Ok nreq
  | Err _ => False
  end.

Definition is_NewRequest (e : event) : bool :=
  match e with EvNewRequest _ _ _ => true | _ => false end.

(** An observation that only looks at the requests made with
    [http.NewRequest]. *)
Definition on_requests {A} (f : event -> option A) : Prop :=
  forall e, is_NewRequest e = false -> f e = None.

(** The value of a field of the initiation details, as JSON. *)
Definition initiateField_value (f : initiateField) (d : initiateDetails) : json :=
  match f with
  | F_ACIPushVersion => JString (ACIPushVersion d)
  | F_Multipart => JBool (Multipart d)
  | F_ManifestURL => JString (ManifestURL d)
  | F_SignatureURL => JString (SignatureURL d)
  | F_ACIURL => JString (ACIURL d)
  | F_CompletedURL => JString (CompletedURL d)
  end.

(** The field of the initiation details a key of the reply is decoded
    into, if any. *)
Definition initiateField_of (env : Env) (key : string) : option initiateField :=
  find_field (equalFold env) initiateField_name initiateFields key None.

(** A member of the reply the decoder takes without a type error: its key
    has no field, or its value is [null] or of the type of the field. *)
Definition member_fits (env : Env) (member : string * json) : Prop :=
  match initiateField_of env (fst member) with
  | None => True
  | Some F_Multipart => snd member = JNull \/ exists b, snd member = JBool b
  | Some _ => snd member = JNull \/ exists s, snd member = JString s
  end.

(** The Go type of a field of [initiateDetails], as a type error of the
    decoder names it. *)
Definition initiateField_type (f : initiateField) : string :=
  match f with
  | F_Multipart => "bool"
  | _ => "string"
  end.

(** No member of the reply is decoded into the field [f]. *)
Definition field_absent (env : Env) (f : initiateField) (members : list (string * json)) : Prop :=
  Forall (fun member => initiateField_of env (fst member) <> Some f) members.

(** The lines [initiateUpload] and [getInitiationURL] print under
    [u.Debug]. *)
Definition initiating_lines (u : Uploader) : list event :=
  if Debug u then [EvStderr "initiating upload"] else [].

Definition initiated_lines (u : Uploader) (deets : initiateDetails) : list event :=
  if Debug u then
    [EvStderr "upload initiated";
     EvStderr (TrimSuffix_newline (" - manifest endpoint: " +:+ ManifestURL deets));
     EvStderr (TrimSuffix_newline (" - signature endpoint: " +:+ SignatureURL deets));
     EvStderr (TrimSuffix_newline (" - aci endpoint: " +:+ ACIURL deets))]
  else [].

(** [uploaded env u parts h n]: starting with the history [h], the parts
    [parts] are uploaded one after the other, each upload succeeds, and
    [n] are the events of these uploads. *)
Inductive uploaded (env : Env) (u : Uploader) : list partToUpload -> list event -> list event -> Prop :=
| uploaded_nil h : uploaded env u [] h []
| uploaded_cons part parts h n1 n2 :
    uploadPart env u (url part) (r part) (draw part) (label part) h = (None, n1) ->
    uploaded env u parts (h ++ n1) n2 ->
    uploaded env u (part :: parts) h (n1 ++ n2).

(** What [Upload] returns when the upload of [part] has failed with [err]
    and the failure report has returned [reportErr]. *)
Definition reason_text (part : partToUpload) (err : error) : string :=
  "error uploading " +:+ label part +:+ ": " +:+ Error err.

Definition surfaced (part : partToUpload) (err : error) (reportErr : option error) : error :=
  match reportErr with
  | Some reportErr =>
      Errorf ("error uploading " +:+ label part +:+ " and error reporting failure: "
              +:+ Error err +:+ ", " +:+ Error reportErr)
  | None => Errorf (reason_text part err)
  end.

(** A request and the reader its body reads from. *)
Definition put_source (request : string * body) : string * body :=
  (fst request, source_of (snd request)).

(** ** A sample world *)

Module Sample.

Definition manifest_doc : string := "{manifest}".

Definition initiate_doc : string :=
  "{" +:+ quoted "upload_manifest_url" +:+ ":" +:+ quoted "https://example.com/manifest"
  +:+ "," +:+ quoted "upload_signature_url" +:+ ":" +:+ quoted "https://example.com/signature"
  +:+ "," +:+ quoted "upload_aci_url" +:+ ":" +:+ quoted "https://example.com/aci"
  +:+ "," +:+ quoted "completed_url" +:+ ":" +:+ quoted "https://example.com/complete" +:+ "}".

Definition success_doc : string := "{" +:+ quoted "success" +:+ ":true}".

Definition rejected_doc : string :=
  "{" +:+ quoted "success" +:+ ":false," +:+ quoted "server_reason" +:+ ":"
  +:+ quoted "signature does not verify" +:+ "}".

(** The parse trees of the documents the sample servers send. *)
Definition parse (s : string) : result json :=
  if String.eqb s initiate_doc then
    Ok (JObject [("upload_manifest_url", JString "https://example.com/manifest");
                 ("upload_signature_url", JString "https://example.com/signature");
                 ("upload_aci_url", JString "https://example.com/aci");
                 ("completed_url", JString "https://example.com/complete")])
  else if String.eqb s success_doc then Ok (JObject [("success", JBool true)])
  else if String.eqb s rejected_doc then
    Ok (JObject [("success", JBool false); ("server_reason", JString "signature does not verify")])
  else if String.eqb s "{}" then Ok (JObject [])
  else if String.eqb s "[]" then Ok (JArray [])
  else if String.eqb s "null" then Ok JNull
  else Err (SyntaxError "invalid character").

Definition manifest : ImageManifest :=
  {| Manifest_Name := "example.com/app";
     Manifest_Labels := [("arch", "amd64"); ("os", "linux")] |}.

(** A world in which every file opens, the manifest is [m], the name
    carries the labels [labels], discovery finds one endpoint and the
    server is [server].  Redirects are those of Go 1.5 for POST and PUT:
    302 and 303, followed with a GET. *)
Definition env (m : ImageManifest) (labels : gmap string string)
    (server : bool -> list event -> Request -> result Response) : Env :=
  {| os_Open := fun path =>
       Ok {| file_name := path; file_fd := if String.eqb path "app.aci" then 3 else 4 |};
     File_Seek := fun _ => None;
     File_Stat := fun _ => Ok 4096;
     ManifestFromImage := fun _ => Ok m;
     MarshalJSON := fun _ => Ok manifest_doc;
     NewAppFromString := fun uri => Ok {| App_Name := uri; App_Labels := labels |};
     DiscoverEndpoints := fun _ _ => (["https://example.com/push"], [], None);
     ACIExtension := ".aci";
     NewRequest_err := fun _ _ => None;
     RoundTrip := server;
     shouldRedirect := fun _ code => (code =? 302) || (code =? 303);
     redirectRequest := fun _ _ loc =>
       Ok {| Method := "GET"; URL := loc; Header := []; ReqBody := NilBody |};
     json_parse := parse;
     json_quote := quoted;
     equalFold := fun a b => String.eqb (ToLower a) (ToLower b);
     ByteUnitStr := pretty;
     DrawTextFormatBar := fun _ _ _ => "[====]";
     DrawTextFormatBytes := fun progress total => pretty progress +:+ "/" +:+ pretty total |}.

Definition reply (code : Z) (doc : string) : result Response :=
  Ok {| StatusCode := code; Location := ""; Body := {| body_bytes := doc; body_err := None |} |}.

(** A server that accepts everything. *)
Definition good_server (insecure : bool) (h : list event) (req : Request) : result Response :=
  if String.eqb (URL req) "https://example.com/push" then reply 200 initiate_doc
  else if String.eqb (URL req) "https://example.com/complete" then reply 200 success_doc
  else reply 200 "".

(** A server that answers [code] to the upload of the part at [bad] and
    accepts the rest. *)
Definition failing_server (bad : string) (code : Z) (insecure : bool) (h : list event)
    (req : Request) : result Response :=
  if String.eqb (URL req) bad then reply code "" else good_server insecure h req.

(** A server that redirects the first [n] requests it sees and answers the
    next one with [final]. *)
Definition redirecting_server (n : nat) (final : result Response) (insecure : bool)
    (h : list event) (req : Request) : result Response :=
  if (round_trips h <? n)%nat then
    Ok {| StatusCode := 302; Location := "https://example.com/next";
          Body := {| body_bytes := ""; body_err := None |} |}
  else final.

(** The auth hook of the samples adds one header. *)
Definition uploader (debug : bool) : Uploader :=
  {| Acipath := "app.aci"; Ascpath := "app.aci.asc"; Uri := "example.com/app";
     Insecure := false; Debug := debug;
     SetHTTPHeaders := fun req =>
       {| Method := Method req; URL := URL req;
          Header := ("Authorization", "Basic Zm9vOmJhcg==") :: Header req;
          ReqBody := ReqBody req |} |}.

(** The same world without a push endpoint. *)
Definition without_endpoints (e : Env) : Env :=
  {| os_Open := os_Open e; File_Seek := File_Seek e; File_Stat := File_Stat e;
     ManifestFromImage := ManifestFromImage e; MarshalJSON := MarshalJSON e;
     NewAppFromString := NewAppFromString e;
     DiscoverEndpoints := fun _ _ =>
       ([], [("example.com", LibError "expected a 200 OK got 404")], None);
     ACIExtension := ACIExtension e; NewRequest_err := NewRequest_err e;
     RoundTrip := RoundTrip e; shouldRedirect := shouldRedirect e;
     redirectRequest := redirectRequest e; json_parse := json_parse e;
     json_quote := json_quote e; equalFold := equalFold e; ByteUnitStr := ByteUnitStr e;
     DrawTextFormatBar := DrawTextFormatBar e; DrawTextFormatBytes := DrawTextFormatBytes e |}.

(** A server that answers 500 to the upload of the signature and to the
    completion message. *)
Definition broken_server (insecure : bool) (h : list event) (req : Request) : result Response :=
  if String.eqb (URL req) "https://example.com/complete" then reply 500 ""
  else failing_server "https://example.com/signature" 500 insecure h req.

Definition deets : initiateDetails :=
  {| ACIPushVersion := ""; Multipart := false;
     ManifestURL := "https://example.com/manifest";
     SignatureURL := "https://example.com/signature";
     ACIURL := "https://example.com/aci";
     CompletedURL := "https://example.com/complete" |}.

Definition acifile : File := {| file_name := "app.aci"; file_fd := 3 |}.
Definition ascfile : File := {| file_name := "app.aci.asc"; file_fd := 4 |}.

End Sample.

(** ** More observations on the events of a call *)

(** The response bodies a list of events closes, in order. *)
Definition closed_body (e : event) : option respBody :=
  match e with EvBodyClose b => Some b | _ => None end.

Definition closed_bodies (l : list event) : list respBody := omap closed_body l.

(** The response bodies the requests on the wire in [new] were answered
    with, in order, when [new] follows the history [h]: the answer to a
    request is the one the server gives after all that came before it. *)
Fixpoint received_bodies (env : Env) (h new : list event) : list respBody :=
  match new with
  | [] => []
  | e :: rest =>
      match e with
      | EvRoundTrip insecure req =>
          match RoundTrip env insecure h req with
          | Ok resp => [Body resp]
          | Err _ => []
          end
      | _ => []
      end ++ received_bodies env (h ++ [e]) rest
  end.

Definition is_wire (e : event) : bool :=
  match e with EvRoundTrip _ _ | EvBodyClose _ => true | _ => false end.

Definition is_file_event (e : event) : bool :=
  match e with EvOpen _ | EvFileClose _ => true | _ => false end.

(** The opens and closes of files among the events. *)
Definition file_events (l : list event) : list event :=
  filter (fun e => is_file_event e = true) l.

(** All requests made with [http.NewRequest], as [(method, url, body)]. *)
Definition new_request (e : event) : option (string * string * body) :=
  match e with EvNewRequest reqType url b => Some (reqType, url, b) | _ => None end.

Definition all_requests (l : list event) : list (string * string * body) := omap new_request l.

(** What the events between the opening and the closing of the files can
    be in a session of [u]: no file is opened or closed, standard error
    and [Stat] are used under [u.Debug] only, discovery and every request
    on the wire run with [u.Insecure], and requests are [POST] or [PUT]. *)
Definition session_event (u : Uploader) (e : event) : Prop :=
  match e with
  | EvOpen _ | EvFileClose _ => False
  | EvStderr _ | EvStat _ => Debug u = true
  | EvDiscover _ insecure | EvRoundTrip insecure _ => insecure = Insecure u
  | EvNewRequest reqType _ _ => reqType = "POST" \/ reqType = "PUT"
  | EvManifestFromImage _ | EvSeek _ | EvSetHTTPHeaders _ | EvReadAll _ | EvBodyClose _ => True
  end.

(** The events [n], added to the history [h], close the bodies they
    receive, in the order of their arrival, but for the bodies [open],
    which arrive last. *)
Definition balanced_with (env : Env) (h n : list event) (open : list respBody) : Prop :=
  closed_bodies n ++ open = received_bodies env h n.

(** The field of the completion message a key of the reply is decoded
    into, if any. *)
Definition completeField_of (env : Env) (key : string) : option completeField :=
  find_field (equalFold env) completeField_name completeFields key None.

(** A request of the session, as [all_requests] lists it. *)
Definition as_PUT (request : string * body) : string * string * body :=
  ("PUT", fst request, snd request).

Definition as_POST (post : string * string) : string * string * body :=
  ("POST", fst post, BytesReader (snd post)).

(** The requests of [n] are its [PUT]s followed by its completion
    messages. *)
Definition puts_then_posts (n : list event) : Prop :=
  all_requests n = map as_PUT (put_requests n) ++ map as_POST (completion_posts n).

(** How many of the events satisfy [p]. *)
Definition count (p : event -> bool) (l : list event) : nat :=
  length (filter (fun e => p e = true) l).

(** The events of net/http that are counted below. *)
Definition is_http (e : event) : bool :=
  is_NewRequest e || is_SetHTTPHeaders e || is_RoundTrip e.

(** The requests the auth hook is given, and the requests handed to
    the transport, in order. *)
Definition hooked (e : event) : option Request :=
  match e with EvSetHTTPHeaders req => Some req | _ => None end.

Definition hooked_requests (l : list event) : list Request := omap hooked l.

Definition wired (e : event) : option Request :=
  match e with EvRoundTrip _ req => Some req | _ => None end.

Definition wire_requests (l : list event) : list Request := omap wired l.

(** The events of a completion message that is posted: [http.NewRequest]
    makes the [POST] of [blob] to [url], the auth hook is given the
    request, and the transport of [u] is handed what the hook returns. *)
Definition posting (u : Uploader) (url blob : string) : list event :=
  let req := {| Method := "POST"; URL := url; Header := []; ReqBody := BytesReader blob |} in
  [EvNewRequest "POST" url (BytesReader blob); EvSetHTTPHeaders req;
   EvRoundTrip (Insecure u) (SetHTTPHeaders u req)].

(** ** A sample world with odd replies *)

Module SampleOdd.

(** An initiation reply whose completion URL does not parse. *)
Definition initiate_doc : string :=
  "{" +:+ quoted "upload_manifest_url" +:+ ":" +:+ quoted "https://example.com/manifest"
  +:+ "," +:+ quoted "upload_signature_url" +:+ ":" +:+ quoted "https://example.com/signature"
  +:+ "," +:+ quoted "upload_aci_url" +:+ ":" +:+ quoted "https://example.com/aci"
  +:+ "," +:+ quoted "completed_url" +:+ ":" +:+ quoted ":bad" +:+ "}".

(** An initiation reply with a number where a boolean belongs. *)
Definition mistyped_doc : string :=
  "{" +:+ quoted "upload_manifest_url" +:+ ":" +:+ quoted "https://example.com/manifest"
  +:+ "," +:+ quoted "multipart" +:+ ":1}".

Definition parse (s : string) : result json :=
  if String.eqb s initiate_doc then
    Ok (JObject [("upload_manifest_url", JString "https://example.com/manifest");
                 ("upload_signature_url", JString "https://example.com/signature");
                 ("upload_aci_url", JString "https://example.com/aci");
                 ("completed_url", JString ":bad")])
  else if String.eqb s mistyped_doc then
    Ok (JObject [("upload_manifest_url", JString "https://example.com/manifest");
                 ("multipart", JNumber "1")])
  else Sample.parse s.

(** [url.Parse], which [http.NewRequest] calls, on a URL that starts
    with a colon. *)
Definition missing_scheme (url : string) : error :=
  URLError "parse" url (Errorf "missing protocol scheme").

Definition refuse (reqType url : string) : option error :=
  match url with
  | String ":"%char _ => Some (missing_scheme url)
  | _ => None
  end.

(** A server that answers the initiation with [doc] and accepts
    everything else. *)
Definition server (doc : string) (insecure : bool) (h : list event) (req : Request)
    : result Response :=
  if String.eqb (URL req) "https://example.com/push" then Sample.reply 200 doc
  else Sample.good_server insecure h req.

(** The sample world with that server, in which [http.NewRequest] fails
    as [url.Parse] does. *)
Definition env (doc : string) : Env :=
  let e := Sample.env Sample.manifest ∅ (server doc) in
  {| os_Open := os_Open e; File_Seek := File_Seek e; File_Stat := File_Stat e;
     ManifestFromImage := ManifestFromImage e; MarshalJSON := MarshalJSON e;
     NewAppFromString := NewAppFromString e; DiscoverEndpoints := DiscoverEndpoints e;
     ACIExtension := ACIExtension e; NewRequest_err := refuse;
     RoundTrip := RoundTrip e; shouldRedirect := shouldRedirect e;
     redirectRequest := redirectRequest e; json_parse := parse;
     json_quote := json_quote e; equalFold := equalFold e; ByteUnitStr := ByteUnitStr e;
     DrawTextFormatBar := DrawTextFormatBar e; DrawTextFormatBytes := DrawTextFormatBytes e |}.

Definition deets : initiateDetails :=
  {| ACIPushVersion := ""; Multipart := false;
     ManifestURL := "https://example.com/manifest";
     SignatureURL := "https://example.com/signature";
     ACIURL := "https://example.com/aci";
     CompletedURL := ":bad" |}.

End SampleOdd.

(** * rkt/config/config.go: the configuration main.go loads *)

Module config.

(** [http.Header] *)
Definition http_Header : Type := gmap string (list string).

(** [Headerer], an interface with the one method [Header]: a value is
    given by the header the method returns. *)
Definition Headerer : Type := http_Header.

Record BasicCredentials : Type := { User : string; Password : string }.

Record Config : Type := {
  AuthPerHost : gmap string Headerer;
  DockerCredentialsPerRegistry : gmap string BasicCredentials
}.

(** [configParser]: [parse] works on the [*Config] it is given and returns
    an error; the configuration is returned as [parse] leaves it. *)
Definition configParser : Type := Config -> string -> Config * option error.

(** The package variables [configSubDirs] and [parsersForKind]. *)
Record registry : Type := {
  configSubDirs : gmap string (list string);
  parsersForKind : gmap string (gmap string configParser)
}.

(** A call that returns or panics. *)
Inductive outcome (A : Type) : Type :=
| Returns (a : A)
| Panics (msg : string).
Arguments Returns {A} a.
Arguments Panics {A} msg.

(** [os.FileInfo]: the name and the mode bits. *)
Record FileInfo : Type := { Name : string; Mode : Z }.

(** The bits of [os.FileMode] that tell the type of a file. *)
Definition ModeDir : Z := Z.shiftl 1 31.
Definition ModeSymlink : Z := Z.shiftl 1 27.
Definition ModeDevice : Z := Z.shiftl 1 26.
Definition ModeNamedPipe : Z := Z.shiftl 1 25.
Definition ModeSocket : Z := Z.shiftl 1 24.
Definition ModeType : Z :=
  Z.lor ModeDir (Z.lor ModeSymlink (Z.lor ModeNamedPipe (Z.lor ModeSocket ModeDevice))).

Definition IsDir (m : Z) : bool := negb (Z.land m ModeDir =? 0).
Definition IsRegular (m : Z) : bool := Z.land m ModeType =? 0.

(** What [os.Lstat] and [readDirNames] find from a path downwards: the
    info of the file and, for a directory, its sorted listing or the error
    of reading it; for every name of the listing what they find at the
    name, or the error of [Lstat]. *)
#[local] Set Warnings "-register-all".
Inductive tree : Type :=
| Entry (info : FileInfo) (listing : result (list (string * result tree))).
#[local] Set Warnings "register-all".

Definition info_of (t : tree) : FileInfo := match t with Entry info _ => info end.

(** The world outside config.go and main.go: os, path/filepath, io/ioutil,
    strconv ([%q]), net/url (the host of a URL), and the order in which
    [range] visits each of the maps. *)
Record World : Type := {
  os_Stat : string -> result FileInfo;
  os_IsNotExist : error -> bool;
  lstat_tree : string -> result tree;
  ioutil_ReadFile : string -> result string;
  filepath_Join : string -> string -> string;
  filepath_Dir : string -> string;
  filepath_Base : string -> string;
  strconv_Quote : string -> string;
  url_Host : string -> string;
  range_kinds : gset string -> list string;
  range_subdirs : gmap string (list string) -> list (string * list string);
  range_auth : gmap string Headerer -> list (string * Headerer);
  range_creds : gmap string BasicCredentials -> list (string * BasicCredentials);
  range_header : http_Header -> list (string * list string)
}.

(** [range] visits every entry of a map once, in some order. *)
Record ranges_maps (w : World) : Prop := {
  range_kinds_perm : forall s, range_kinds w s ≡ₚ elements s;
  range_subdirs_perm : forall m, range_subdirs w m ≡ₚ map_to_list m;
  range_auth_perm : forall m, range_auth w m ≡ₚ map_to_list m;
  range_creds_perm : forall m, range_creds w m ≡ₚ map_to_list m;
  range_header_perm : forall m, range_header w m ≡ₚ map_to_list m
}.

(** One entry for every call that reads the file system. *)
Inductive access : Type :=
| AccStat (path : string)
| AccLstat (path : string)
| AccReadDir (path : string)
| AccReadFile (path : string).

(** A computation returns its value with the accesses it has made. *)
Definition W (A : Type) : Type := A * list access.

Definition wret {A} (a : A) : W A := (a, []).

Definition wbind {A B} (m : W A) (k : A -> W B) : W B :=
  let (a, l1) := m in
  let (b, l2) := k a in
  (b, l1 ++ l2).

Definition touch (a : access) : W unit := (tt, [a]).

Declare Scope fs_scope.
Delimit Scope fs_scope with fs.
Notation "x <- m ;; k" := (wbind m (fun x => k))
  (at level 100, m at next level, right associativity) : fs_scope.
Notation "m ;;; k" := (wbind m (fun _ => k))
  (at level 100, right associativity) : fs_scope.
Local Open Scope fs_scope.

(** The errors a [filepath.WalkFunc] returns: [filepath.SkipDir] or another
    error. *)
Inductive walkError : Type :=
| SkipDir
| Failure (e : error).

Definition is_SkipDir (err : walkError) : bool :=
  match err with SkipDir => true | Failure _ => false end.

(** [filepath.SkipDir] as an [error]. *)
Definition as_error (err : walkError) : error :=
  match err with
  | SkipDir => Errorf "skip this directory"
  | Failure e => e
  end.

(** The [info] and [err] a [WalkFunc] is called with: the info of a file,
    or the error of [Lstat] (no info) or of reading a directory. *)
Inductive visit : Type :=
| Visited (info : FileInfo)
| Failed (info : option FileInfo) (err : error).

Definition WalkFunc (S : Type) : Type := string -> visit -> S -> W (S * option walkError).

(** The order of Go on strings, byte by byte, and [sort.Strings]. *)
Definition string_le (x y : string) : Prop := String.leb x y = true.

#[global] Instance string_le_dec : RelDecision string_le :=
  fun x y => decide (String.leb x y = true).

Definition sort_Strings (a : list string) : list string := merge_sort string_le a.

(** [filepath.Ext]: from the end of the path back to the last separator,
    the suffix that starts at the first dot met. *)
Fixpoint Ext_scan (before : list ascii) (suffix : string) : string :=
  match before with
  | [] => ""
  | c :: before' =>
      if decide (c = "/"%char) then ""
      else if decide (c = "."%char) then String c suffix
      else Ext_scan before' (String c suffix)
  end.

Definition filepath_Ext (path : string) : string :=
  Ext_scan (reverse (list_ascii_of_string path)) "".

(** [configHeader] and its decoding. *)
Record configHeader : Type := { RktVersion : string; RktKind : string }.

Inductive headerField : Type := F_RktVersion | F_RktKind.

Definition headerField_name (f : headerField) : string :=
  match f with
  | F_RktVersion => "rktVersion"
  | F_RktKind => "rktKind"
  end.

Definition headerFields : list headerField := [F_RktVersion; F_RktKind].

Definition store_headerField (f : headerField) (v : json) (hd : configHeader)
    : configHeader * option error :=
  match f with
  | F_RktVersion =>
      let (x, e) := store_string v (RktVersion hd) in
      ({| RktVersion := x; RktKind := RktKind hd |}, e)
  | F_RktKind =>
      let (x, e) := store_string v (RktKind hd) in
      ({| RktVersion := RktVersion hd; RktKind := x |}, e)
  end.

Definition Unmarshal_configHeader (env : Env) (raw : string) (hd : configHeader)
    : configHeader * option error :=
  Unmarshal_struct env "config.configHeader" headerField_name headerFields
    store_headerField raw hd.

Section Package.

Context (env : Env) (w : World).

Definition q (s : string) : string := strconv_Quote w s.

(** *** The registry *)

Definition getParser (reg : registry) (kind version : string) : result configParser :=
  match parsersForKind reg !! kind with
  | None => Err (Errorf ("no parser available for configuration of kind " +:+ q kind))
  | Some parsers =>
      match parsers !! version with
      | None =>
          Err (Errorf ("no parser available for configuration of kind " +:+ q kind
                       +:+ " and version " +:+ q version))
      | Some parser => Ok parser
      end
  end.

(** [parser] is [None] for a nil parser. *)
Definition addParser (kind version : string) (parser : option configParser) (reg : registry)
    : outcome registry :=
  if decide (String.length kind = 0%nat) then
    Panics "empty kind string when registering a config parser"
  else if decide (String.length version = 0%nat) then
    Panics "empty version string when registering a config parser"
  else
    match parser with
    | None => Panics "trying to register a nil parser"
    | Some parser =>
        match getParser reg kind version with
        | Ok _ =>
            Panics ("A parser for kind " +:+ q kind +:+ " and version " +:+ q version
                    +:+ " already exist")
        | Err _ =>
            let forKind :=
              match parsersForKind reg !! kind with
              | Some _ => parsersForKind reg
              | None => <[kind := ∅]> (parsersForKind reg)
              end in
            Returns {| configSubDirs := configSubDirs reg;
                       parsersForKind :=
                         <[kind := <[version := parser]> (forKind !!! kind)]> forKind |}
        end
    end.

Definition toSet (a : list string) : gset string :=
  foldl (fun s v => {[v]} ∪ s) ∅ a.

(** [make([]string, len(s))] is [len(s)] empty strings; the keys are
    appended to them. *)
Definition toArray (s : gset string) : list string :=
  foldl (fun a k => a ++ [k]) (replicate (size s) "") (range_kinds w s).

Definition registerSubDir (dir : string) (kinds : list string) (reg : registry)
    : outcome registry :=
  if decide (String.length dir = 0%nat) then
    Panics "trying to register empty config subdirectory"
  else if decide (length kinds = 0%nat) then
    Panics "kinds array cannot be empty when registering config subdir"
  else
    let allKinds := toArray (toSet (configSubDirs reg !!! dir ++ kinds)) in
    let allKinds := sort_Strings allKinds in
    Returns {| configSubDirs := <[dir := allKinds]> (configSubDirs reg);
               parsersForKind := parsersForKind reg |}.

(** *** Reading the configuration *)

Definition newConfig : Config :=
  {| AuthPerHost := ∅; DockerCredentialsPerRegistry := ∅ |}.

Definition mergeConfigs (config subconfig : Config) : Config :=
  let auth :=
    foldl (fun m entry => <[fst entry := snd entry]> m) (AuthPerHost config)
      (range_auth w (AuthPerHost subconfig)) in
  let creds :=
    foldl (fun m entry => <[fst entry := snd entry]> m) (DockerCredentialsPerRegistry config)
      (range_creds w (DockerCredentialsPerRegistry subconfig)) in
  {| AuthPerHost := auth; DockerCredentialsPerRegistry := creds |}.

Definition validDir (path : string) : W (bool * option error) :=
  touch (AccStat path);;;
  match os_Stat w path with
  | Err err =>
      if os_IsNotExist w err then wret (false, None) else wret (false, Some err)
  | Ok fi =>
      if negb (IsDir (Mode fi)) then
        wret (false, Some (Errorf ("expected " +:+ q path +:+ " to be a directory")))
      else wret (true, None)
  end.

Definition validConfigFile (info : FileInfo) : bool * option walkError :=
  let mode := Mode info in
  if IsDir mode then (false, Some SkipDir)
  else if IsRegular mode then
    (bool_decide (filepath_Ext (Name info) = ".json"), None)
  else if Z.land mode ModeSymlink =? ModeSymlink then (false, None)
  else (false, None).

Definition zero_configHeader : configHeader := {| RktVersion := ""; RktKind := "" |}.

Definition parseConfigFile (reg : registry) (config : Config) (path : string)
    (kinds : list string) : W (Config * option error) :=
  touch (AccReadFile path);;;
  match ioutil_ReadFile w path with
  | Err err => wret (config, Some err)
  | Ok raw =>
      let (header, err) := Unmarshal_configHeader env raw zero_configHeader in
      match err with
      | Some err => wret (config, Some err)
      | None =>
          if decide (String.length (RktKind header) = 0%nat) then
            wret (config, Some (Errorf ("no rktKind specified in " +:+ q path)))
          else if decide (String.length (RktVersion header) = 0%nat) then
            wret (config, Some (Errorf ("no rktVersion specified in " +:+ q path)))
          else
            let kindOk := existsb (String.eqb (RktKind header)) kinds in
            if negb kindOk then
              let dir := filepath_Dir w path in
              let base := filepath_Base w path in
              let kindsStr := String.concat (dquote +:+ ", " +:+ dquote) kinds in
              wret (config,
                    Some (Errorf ("the configuration directory " +:+ q dir
                                  +:+ " expects to have configuration files of kinds "
                                  +:+ q kindsStr +:+ ", but " +:+ q base
                                  +:+ " has kind of " +:+ q (RktKind header))))
            else
              match getParser reg (RktKind header) (RktVersion header) with
              | Err err => wret (config, Some err)
              | Ok parser =>
                  let (config', err) := parser config raw in
                  match err with
                  | Some err =>
                      wret (config', Some (Errorf ("failed to parse " +:+ q path +:+ ": "
                                                   +:+ Error err)))
                  | None => wret (config', None)
                  end
              end
      end
  end.

Definition readFile (reg : registry) (config : Config) (info : FileInfo) (path : string)
    (kinds : list string) : W (Config * option walkError) :=
  match validConfigFile info with
  | (_, Some err) => wret (config, Some err)
  | (false, None) => wret (config, None)
  | (true, None) =>
      r <- parseConfigFile reg config path kinds;;
      match r with
      | (config', Some err) => wret (config', Some (Failure err))
      | (config', None) => wret (config', None)
      end
  end.

(** The closure [getConfigWalker] returns. *)
Definition getConfigWalker (reg : registry) (kinds : list string) (root : string)
    : WalkFunc Config :=
  fun path v config =>
    match v with
    | Failed _ err => wret (config, Some (Failure err))
    | Visited info =>
        if decide (path = root) then wret (config, None)
        else readFile reg config info path kinds
    end.

(** *** filepath.Walk *)

(** The loop of [walk] over the names of a directory. *)
Definition walk_names {S : Type} (walk : string -> tree -> S -> W (S * option walkError))
    (walkFn : WalkFunc S) (path : string)
    : list (string * result tree) -> S -> W (S * option walkError) :=
  fix names (l : list (string * result tree)) (s : S) : W (S * option walkError) :=
    match l with
    | [] => wret (s, None)
    | (name, found) :: rest =>
        let filename := filepath_Join w path name in
        touch (AccLstat filename);;;
        match found with
        | Err err =>
            r <- walkFn filename (Failed None err) s;;
            match r with
            | (s', Some err) => if is_SkipDir err then names rest s' else wret (s', Some err)
            | (s', None) => names rest s'
            end
        | Ok sub =>
            r <- walk filename sub s;;
            match r with
            | (s', Some err) =>
                if negb (IsDir (Mode (info_of sub))) || negb (is_SkipDir err)
                then wret (s', Some err)
                else names rest s'
            | (s', None) => names rest s'
            end
        end
    end.

(** [walk] of path/filepath. *)
Fixpoint walk {S : Type} (walkFn : WalkFunc S) (path : string) (t : tree) (s : S) {struct t}
    : W (S * option walkError) :=
  match t with
  | Entry info listing =>
      r <- walkFn path (Visited info) s;;
      match r with
      | (s', Some err) =>
          if IsDir (Mode info) && is_SkipDir err then wret (s', None)
          else wret (s', Some err)
      | (s', None) =>
          if negb (IsDir (Mode info)) then wret (s', None)
          else
            touch (AccReadDir path);;;
            match listing with
            | Err err => walkFn path (Failed (Some info) err) s'
            | Ok l => walk_names (walk walkFn) walkFn path l s'
            end
      end
  end.

Definition filepath_Walk {S : Type} (root : string) (walkFn : WalkFunc S) (s : S)
    : W (S * option walkError) :=
  touch (AccLstat root);;;
  match lstat_tree w root with
  | Err err => walkFn root (Failed None err) s
  | Ok t => walk walkFn root t s
  end.

(** *** The directories *)

(** The loop of [readConfigDir] over the subdirectories in the order of
    [range]. *)
Fixpoint readSubDirs (reg : registry) (config : Config) (dir : string)
    (subdirs : list (string * list string)) : W (Config * option error) :=
  match subdirs with
  | [] => wret (config, None)
  | (csd, kinds) :: rest =>
      let d := filepath_Join w dir csd in
      v <- validDir d;;
      match v with
      | (_, Some err) => wret (config, Some err)
      | (false, None) => readSubDirs reg config dir rest
      | (true, None) =>
          r <- filepath_Walk d (getConfigWalker reg kinds d) config;;
          match r with
          | (config', Some err) => wret (config', Some (as_error err))
          | (config', None) => readSubDirs reg config' dir rest
          end
      end
  end.

Definition readConfigDir (reg : registry) (config : Config) (dir : string)
    : W (Config * option error) :=
  readSubDirs reg config dir (range_subdirs w (configSubDirs reg)).

Definition GetConfigFromDir (reg : registry) (dir : string) : W (result Config) :=
  let subcfg := newConfig in
  v <- validDir dir;;
  match v with
  | (_, Some err) => wret (Err err)
  | (false, None) => wret (Ok subcfg)
  | (true, None) =>
      r <- readConfigDir reg subcfg dir;;
      match r with
      | (_, Some err) => wret (Err err)
      | (subcfg', None) => wret (Ok subcfg')
      end
  end.

(** The loop of [GetConfigFrom] over the directories. *)
Fixpoint mergeDirs (reg : registry) (cfg : Config) (dirs : list string) : W (result Config) :=
  match dirs with
  | [] => wret (Ok cfg)
  | cd :: rest =>
      r <- GetConfigFromDir reg cd;;
      match r with
      | Err err => wret (Err err)
      | Ok subcfg => mergeDirs reg (mergeConfigs cfg subcfg) rest
      end
  end.

Definition GetConfigFrom (reg : registry) (system local : string) : W (result Config) :=
  mergeDirs reg newConfig [system; local].

End Package.

(** *** Observations on a walk *)

(** A regular file whose name ends in ".json". *)
Definition accepted (info : FileInfo) : Prop :=
  IsDir (Mode info) = false /\
  IsRegular (Mode info) = true /\
  exists stem, Name info = stem +:+ ".json".

(** An access that stays in the directory [d] with the listing [l]: the
    directory itself, a name of the listing, the content of an accepted
    file of the listing. *)
Definition flat (w : World) (d : string) (l : list (string * result tree)) (a : access) : Prop :=
  match a with
  | AccStat _ => False
  | AccReadDir p => p = d
  | AccLstat p =>
      p = d \/ exists name found, (name, found) ∈ l /\ p = filepath_Join w d name
  | AccReadFile p =>
      exists name sub,
        (name, Ok sub) ∈ l /\ p = filepath_Join w d name /\ accepted (info_of sub)
  end.

End config.

(** * main.go *)

Module main.

Record flags : Type := {
  flagDebug : bool;
  flagInsecure : bool;
  flagSystemConfigDir : string;
  flagLocalConfigDir : string
}.

(** [r.Header[k]] and [r.Header[k] = vs], on the header lines of a
    [Request]. *)
Definition Header_get (hdr : list (string * string)) (k : string) : list string :=
  (filter (fun kv => fst kv = k) hdr).*2.

Definition Header_set (hdr : list (string * string)) (k : string) (vs : list string)
    : list (string * string) :=
  filter (fun kv => fst kv <> k) hdr ++ map (pair k) vs.

Section Main.

Context (env : Env) (w : config.World) (reg : config.registry).

(** The closure [runACPush] hands to lib as [SetHTTPHeaders]: the request
    as the closure leaves it, and what the closure writes to standard
    error.  The URL of a [Request] is never nil. *)
Definition SetHTTPHeaders_closure (conf : config.Config) (debug : bool) (r : Request)
    : Request * list string :=
  let host := config.url_Host w (URL r) in
  match config.AuthPerHost conf !! host with
  | None =>
      (r, if debug
          then ["No auth present in config for domain " +:+ host +:+ "." +:+ newline]
          else [])
  | Some headerer =>
      let header := headerer in
      ({| Method := Method r; URL := URL r;
          Header := foldl (fun hdr kv => Header_set hdr (fst kv) (Header_get hdr (fst kv) ++ snd kv))
                      (Header r) (config.range_header w header);
          ReqBody := ReqBody r |}, [])
  end.

(** What a run of the program does, in order: the usage text, the reads
    of the configuration, the events of the session, the texts written to
    standard error by main.go. *)
Inductive step : Type :=
| Usage
| Access (a : config.access)
| Session (e : event)
| Stderr (text : string).

(** The events of the session, each call of the auth hook followed by
    what the hook writes. *)
Definition session_steps (conf : config.Config) (debug : bool) (events : list event)
    : list step :=
  flat_map (fun e =>
              Session e ::
              match e with
              | EvSetHTTPHeaders r => map Stderr (snd (SetHTTPHeaders_closure conf debug r))
              | _ => []
              end) events.

(** The [lib.Uploader] of [runACPush]. *)
Definition uploader (conf : config.Config) (fl : flags) (args : list string) : Uploader :=
  {| Acipath := args !!! 0%nat;
     Ascpath := args !!! 1%nat;
     Uri := args !!! 2%nat;
     Insecure := flagInsecure fl;
     Debug := flagDebug fl;
     SetHTTPHeaders := fun r => fst (SetHTTPHeaders_closure conf (flagDebug fl) r) |}.

(** [runACPush]: the exit status of the program (0 when [runACPush]
    returns) and its steps. *)
Definition runACPush (fl : flags) (args : list string) : Z * list step :=
  if decide (length args <> 3%nat) then (1, [Usage])
  else
    let (conf, reads) :=
      config.GetConfigFrom env w reg (flagSystemConfigDir fl) (flagLocalConfigDir fl) in
    match conf with
    | Err err =>
        (2, map Access reads ++ [Stderr ("error loading config: " +:+ Error err +:+ newline)])
    | Ok conf =>
        let (err, events) := Upload env (uploader conf fl args) [] in
        let steps := map Access reads ++ session_steps conf (flagDebug fl) events in
        match err with
        | Some err => (1, steps ++ [Stderr ("err: " +:+ Error err +:+ newline)])
        | None =>
            (0, steps ++ if flagDebug fl then [Stderr ("Upload successful" +:+ newline)] else [])
        end
    end.

End Main.

End main.

(** ** A sample configuration *)

Module SampleConfig.

Definition auth_doc : string :=
  "{" +:+ quoted "rktKind" +:+ ":" +:+ quoted "auth" +:+ ","
  +:+ quoted "rktVersion" +:+ ":" +:+ quoted "v1" +:+ "}".

Definition parse (s : string) : result json :=
  if String.eqb s auth_doc then
    Ok (JObject [("rktKind", JString "auth"); ("rktVersion", JString "v1")])
  else Sample.parse s.

(** The sample world of lib.go with a decoder that knows [auth_doc]. *)
Definition env (server : bool -> list event -> Request -> result Response) : Env :=
  let e := Sample.env Sample.manifest ∅ server in
  {| os_Open := os_Open e; File_Seek := File_Seek e; File_Stat := File_Stat e;
     ManifestFromImage := ManifestFromImage e; MarshalJSON := MarshalJSON e;
     NewAppFromString := NewAppFromString e; DiscoverEndpoints := DiscoverEndpoints e;
     ACIExtension := ACIExtension e; NewRequest_err := NewRequest_err e;
     RoundTrip := RoundTrip e; shouldRedirect := shouldRedirect e;
     redirectRequest := redirectRequest e; json_parse := parse;
     json_quote := json_quote e; equalFold := equalFold e;
     ByteUnitStr := ByteUnitStr e; DrawTextFormatBar := DrawTextFormatBar e;
     DrawTextFormatBytes := DrawTextFormatBytes e |}.

Definition basic_auth : config.Headerer :=
  {["Authorization" := ["Basic Zm9vOmJhcg=="]]}.

(** A parser for the kind "auth", version "v1": every file gives the same
    header for example.com. *)
Definition authV1 : config.configParser :=
  fun cfg raw =>
    ({| config.AuthPerHost := <["example.com" := basic_auth]> (config.AuthPerHost cfg);
        config.DockerCredentialsPerRegistry := config.DockerCredentialsPerRegistry cfg |},
     None).

(** The registry after [registerSubDir("auth.d", []string{"auth"})] and
    [addParser("auth", "v1", authV1)]. *)
Definition reg : config.registry :=
  {| config.configSubDirs := {["auth.d" := [""; "auth"]]};
     config.parsersForKind := {["auth" := {["v1" := authV1]}]} |}.

Definition no_such_file : error := OSError "no such file or directory".

Definition dir_mode : Z := Z.lor config.ModeDir 493.
Definition file_mode : Z := 420.
Definition link_mode : Z := Z.lor config.ModeSymlink 511.

Definition file (name : string) (mode : Z) : result config.tree :=
  Ok (config.Entry {| config.Name := name; config.Mode := mode |}
        (Err (OSError "not a directory"))).

(** /etc/rkt/auth.d: a text file, a configuration file, a directory with
    a configuration file in it, and a symbolic link. *)
Definition auth_d : config.tree :=
  config.Entry {| config.Name := "auth.d"; config.Mode := dir_mode |}
    (Ok [("README", file "README" file_mode);
         ("example.json", file "example.json" file_mode);
         ("nested",
          Ok (config.Entry {| config.Name := "nested"; config.Mode := dir_mode |}
                (Ok [("deep.json", file "deep.json" file_mode)])));
         ("old.json", file "old.json" link_mode)]).

(** /usr/lib/rkt does not exist, /opt/rkt is an empty directory, /etc/rkt
    has the subdirectory auth.d. *)
Definition world : config.World :=
  {| config.os_Stat := fun path =>
       if bool_decide (path ∈ ["/etc/rkt"; "/etc/rkt/auth.d"; "/opt/rkt"])
       then Ok {| config.Name := path; config.Mode := dir_mode |}
       else Err no_such_file;
     config.os_IsNotExist := fun e => String.eqb (Error e) (Error no_such_file);
     config.lstat_tree := fun path =>
       if String.eqb path "/etc/rkt/auth.d" then Ok auth_d else Err no_such_file;
     config.ioutil_ReadFile := fun path =>
       if String.eqb path "/etc/rkt/auth.d/example.json" then Ok auth_doc
       else Err no_such_file;
     config.filepath_Join := fun a b => a +:+ "/" +:+ b;
     config.filepath_Dir := fun _ => "/etc/rkt/auth.d";
     config.filepath_Base := fun _ => "example.json";
     config.strconv_Quote := quoted;
     config.url_Host := fun url =>
       if String.prefix "https://example.com/" url then "example.com" else "";
     config.range_kinds := elements;
     config.range_subdirs := map_to_list;
     config.range_auth := map_to_list;
     config.range_creds := map_to_list;
     config.range_header := map_to_list |}.

Definition flags : main.flags :=
  {| main.flagDebug := false; main.flagInsecure := false;
     main.flagSystemConfigDir := "/usr/lib/rkt"; main.flagLocalConfigDir := "/etc/rkt" |}.

Definition args : list string := ["app.aci"; "app.aci.asc"; "example.com/app"].

End SampleConfig.

(** * Properties *)

(** Unfolds the monad and the calls that leave lib.go, and reduces the
    pairs they return. *)
Ltac run :=
  unfold orReturn, orFail, deferring, when, Open, Close, Seek, Stat, aci_ManifestFromImage,
    discovery_DiscoverEndpoints, http_NewRequest, call_SetHTTPHeaders, send, ioutil_ReadAll,
    Body_Close, stderr, history, bind, ret, emit in *;
  cbv beta iota zeta in *.

(** Brings the event lists to the form [h ++ [e1; ...; en]]. *)
Ltac norm :=
  repeat first [ rewrite app_nil_r in * | rewrite <- app_assoc in *
               | progress cbn [Datatypes.app] in * ];
  cbv beta iota zeta in *.

(** Membership in a list built with [::] and [++]. *)
Ltac find_in :=
  cbn [fst snd In]; rewrite ?in_app_iff; cbn [In]; tauto.

Lemma bind_snd {A B} (m : M A) (k : A -> M B) h :
  snd (bind m k h) = snd (m h) ++ snd (k (fst (m h)) (h ++ snd (m h))).
Proof. unfold bind. destruct (m h) as [a n1]. cbn [fst snd]. by destruct (k a (h ++ n1)). Qed.

Section Labels.

Context (env : Env).

Lemma lookup_arch_os (l : gmap string string) (v : string) :
  <[archLabelName := v]> l !! osLabelName = l !! osLabelName.
Proof. by rewrite lookup_insert_ne. Qed.

Lemma resolveLabels_spec (manifest : ImageManifest) (labels : gmap string string) :
  match resolveLabels env manifest labels with
  | Err e =>
      (supplied manifest labels archLabelName = None /\ e = missing_label archLabelName) \/
      (is_Some (supplied manifest labels archLabelName) /\
       supplied manifest labels osLabelName = None /\ e = missing_label osLabelName)
  | Ok labels' =>
      labels' !! archLabelName = supplied manifest labels archLabelName /\
      labels' !! osLabelName = supplied manifest labels osLabelName /\
      labels' !! extLabelName =
        Some (default (Trim_dot (ACIExtension env)) (labels !! extLabelName)) /\
      is_Some (labels' !! archLabelName) /\ is_Some (labels' !! osLabelName) /\
      (forall k, k <> archLabelName -> k <> osLabelName -> k <> extLabelName ->
                 labels' !! k = labels !! k)
  end.
Proof.
  unfold resolveLabels, supplied.
  destruct (labels !! archLabelName) as [a|] eqn:Ha;
    [|destruct (Labels_Get (Manifest_Labels manifest) archLabelName) as [a|] eqn:Hma;
      [|left; eauto]];
    rewrite ?lookup_arch_os;
    (destruct (labels !! osLabelName) as [o|] eqn:Ho;
     [|destruct (Labels_Get (Manifest_Labels manifest) osLabelName) as [o|] eqn:Hmo;
       [|right; eauto]]);
    rewrite ?(lookup_insert_ne _ _ extLabelName) by done;
    (destruct (labels !! extLabelName) as [x|] eqn:Hx; cbn [default]);
    repeat first [rewrite lookup_insert_eq | rewrite lookup_insert_ne by done];
    rewrite ?Ha, ?Ho, ?Hx;
    (repeat split; eauto);
    intros k Hk Hk' Hk''; by rewrite ?lookup_insert_ne.
Qed.

End Labels.

Section Negotiate.

Context (env : Env) (u : Uploader).

Lemma negotiate_labels_fail acifile ascfile h manifest app e :
  ManifestFromImage env acifile = Ok manifest ->
  NewAppFromString env (Uri u) = Ok app ->
  resolveLabels env manifest (App_Labels app) = Err e ->
  negotiate env u acifile ascfile h = (Err e, [EvManifestFromImage acifile]).
Proof.
  intros Hm Ha Hl. unfold negotiate. run. by rewrite Hm, Ha, Hl.
Qed.

Lemma getInitiationURL_discovers app h :
  In (EvDiscover app (Insecure u)) (snd (getInitiationURL env u app h)).
Proof.
  unfold getInitiationURL. run.
  destruct (DiscoverEndpoints env app (Insecure u)) as [[eps attempts] err].
  destruct (Debug u); norm.
  - destruct (stderr_attempts attempts _) as [[] n].
    destruct err; [find_in|]. destruct eps; find_in.
  - destruct err; [find_in|]. destruct eps; find_in.
Qed.

Lemma negotiate_discovers acifile ascfile h manifest app labels' manblob :
  ManifestFromImage env acifile = Ok manifest ->
  NewAppFromString env (Uri u) = Ok app ->
  resolveLabels env manifest (App_Labels app) = Ok labels' ->
  File_Seek env acifile = None ->
  MarshalJSON env manifest = Ok manblob ->
  In (EvDiscover {| App_Name := App_Name app; App_Labels := labels' |} (Insecure u))
     (snd (negotiate env u acifile ascfile h)).
Proof.
  intros Hm Ha Hl Hs Hj. unfold negotiate. run. rewrite Hm, Ha, Hl, Hs, Hj. norm.
  pose proof (getInitiationURL_discovers {| App_Name := App_Name app; App_Labels := labels' |}
                (h ++ [EvManifestFromImage acifile; EvSeek acifile])) as Hd.
  destruct (getInitiationURL env u _ _) as [[initurl|e] n]; cbn [snd] in Hd; [|find_in].
  destruct (initiateUpload env u initurl _) as [i n'].
  destruct i as [e|d [e|]]; find_in.
Qed.

End Negotiate.

Section Session.

Context (env : Env) (u : Uploader).

Lemma Upload_open_aci_fail h e :
  os_Open env (Acipath u) = Err e ->
  Upload env u h = (Some e, [EvOpen (Acipath u)]).
Proof. intros Ho. unfold Upload. run. by rewrite Ho. Qed.

Lemma Upload_open_asc_fail h acifile e :
  os_Open env (Acipath u) = Ok acifile ->
  os_Open env (Ascpath u) = Err e ->
  Upload env u h = (Some e, [EvOpen (Acipath u); EvOpen (Ascpath u); EvFileClose acifile]).
Proof. intros Ho Ho'. unfold Upload. run. by rewrite Ho, Ho'. Qed.

(** With both files open, [Upload] is [Upload_files] between the two
    [Open]s and the two deferred [Close]s. *)
Lemma Upload_opened h acifile ascfile :
  os_Open env (Acipath u) = Ok acifile ->
  os_Open env (Ascpath u) = Ok ascfile ->
  Upload env u h =
    (fst (Upload_files env u acifile ascfile (h ++ [EvOpen (Acipath u); EvOpen (Ascpath u)])),
     [EvOpen (Acipath u); EvOpen (Ascpath u)]
       ++ snd (Upload_files env u acifile ascfile (h ++ [EvOpen (Acipath u); EvOpen (Ascpath u)]))
       ++ [EvFileClose ascfile; EvFileClose acifile]).
Proof.
  intros Ho Ho'. unfold Upload. run. rewrite Ho, Ho'. norm.
  destruct (Upload_files env u acifile ascfile _) as [res n]. by norm.
Qed.

Lemma Upload_files_fail h acifile ascfile e n :
  negotiate env u acifile ascfile h = (Err e, n) ->
  Upload_files env u acifile ascfile h = (Some e, n).
Proof. intros Hn. unfold Upload_files. run. rewrite Hn. by norm. Qed.

Lemma Upload_files_initiated h acifile ascfile manblob initDeets n :
  negotiate env u acifile ascfile h = (Ok (manblob, initDeets), n) ->
  Upload_files env u acifile ascfile h =
    (fst (uploadAndReport env u initDeets manblob ascfile acifile (h ++ n)),
     n ++ snd (uploadAndReport env u initDeets manblob ascfile acifile (h ++ n))).
Proof.
  intros Hn. unfold Upload_files. run. rewrite Hn.
  by destruct (uploadAndReport env u initDeets manblob ascfile acifile _).
Qed.

Lemma Upload_labels_fail h acifile ascfile manifest app e :
  os_Open env (Acipath u) = Ok acifile ->
  os_Open env (Ascpath u) = Ok ascfile ->
  ManifestFromImage env acifile = Ok manifest ->
  NewAppFromString env (Uri u) = Ok app ->
  resolveLabels env manifest (App_Labels app) = Err e ->
  Upload env u h =
    (Some e, [EvOpen (Acipath u); EvOpen (Ascpath u); EvManifestFromImage acifile;
              EvFileClose ascfile; EvFileClose acifile]).
Proof.
  intros Ho Ho' Hm Ha Hl. rewrite (Upload_opened _ _ _ Ho Ho').
  by rewrite (Upload_files_fail _ _ _ _ _ (negotiate_labels_fail env u _ _ _ _ _ _ Hm Ha Hl)).
Qed.

End Session.

(** ** Label resolution *)

(** C4.  Label resolution (lines 100-118 of [Upload]).  For [arch] and for
    [os]: a label the target name has is kept, a label it lacks is copied
    from the manifest, and when the manifest lacks it too the call fails
    with the error that names the key.  [ext], when absent, becomes the
    image extension without its dot, which cannot fail.  No other label
    changes.  After success the labels carry [arch], [os] and [ext], and
    because the labels of the name are changed in place it is the name
    with the resolved labels that discovery is called with. *)
Theorem label_resolution (env : Env) :
  (forall manifest (labels : gmap string string),
     match resolveLabels env manifest labels with
     | Err e =>
         (labels !! archLabelName = None /\
          Labels_Get (Manifest_Labels manifest) archLabelName = None /\
          e = Errorf ("manifest is missing label: " +:+ quoted archLabelName)) \/
         (labels !! osLabelName = None /\
          Labels_Get (Manifest_Labels manifest) osLabelName = None /\
          e = Errorf ("manifest is missing label: " +:+ quoted osLabelName))
     | Ok labels' =>
         labels' !! archLabelName = supplied manifest labels archLabelName /\
         labels' !! osLabelName = supplied manifest labels osLabelName /\
         labels' !! extLabelName =
           Some (default (Trim_dot (ACIExtension env)) (labels !! extLabelName)) /\
         is_Some (labels' !! archLabelName) /\
         is_Some (labels' !! osLabelName) /\
         is_Some (labels' !! extLabelName) /\
         (forall k, k <> archLabelName -> k <> osLabelName -> k <> extLabelName ->
                    labels' !! k = labels !! k)
     end) /\
  (forall manifest (labels : gmap string string) name,
     name = archLabelName \/ name = osLabelName ->
     supplied manifest labels name = None ->
     exists e, resolveLabels env manifest labels = Err e) /\
  (forall u acifile ascfile h manifest app labels' manblob,
     ManifestFromImage env acifile = Ok manifest ->
     NewAppFromString env (Uri u) = Ok app ->
     resolveLabels env manifest (App_Labels app) = Ok labels' ->
     File_Seek env acifile = None ->
     MarshalJSON env manifest = Ok manblob ->
     In (EvDiscover {| App_Name := App_Name app; App_Labels := labels' |} (Insecure u))
        (snd (negotiate env u acifile ascfile h))).
Proof.
  split; [|split].
  - intros manifest labels.
    pose proof (resolveLabels_spec env manifest labels) as H.
    destruct (resolveLabels env manifest labels) as [labels'|e].
    + destruct H as (Ha & Ho & Hx & Sa & So & Hk). repeat split; auto.
      all: rewrite Hx; eauto.
    + unfold supplied, missing_label in H.
      destruct H as [[Ha ->]|(_ & Ho & ->)]; [left|right].
      * destruct (labels !! archLabelName); [done|]. auto.
      * destruct (labels !! osLabelName); [done|]. auto.
  - intros manifest labels name Hname Hnone.
    pose proof (resolveLabels_spec env manifest labels) as H.
    destruct (resolveLabels env manifest labels) as [labels'|e]; [|eauto].
    destruct H as (Ha & Ho & _ & Sa & So & _).
    destruct Hname as [-> | ->].
    + rewrite Ha, Hnone in Sa. by destruct Sa.
    + rewrite Ho, Hnone in So. by destruct So.
  - intros. by apply negotiate_discovers with (manifest := manifest) (manblob := manblob).
Qed.

Lemma label_resolution_witness :
  (exists e, resolveLabels (Sample.env Sample.manifest ∅ Sample.good_server)
               {| Manifest_Name := "example.com/app"; Manifest_Labels := [("arch", "amd64")] |}
               (<["ext" := "tar"]> ∅) = Err e) /\
  In (EvDiscover
        {| App_Name := "example.com/app";
           App_Labels := <["ext" := "aci"]> (<["os" := "linux"]> (<["arch" := "amd64"]> ∅)) |}
        false)
     (snd (negotiate (Sample.env Sample.manifest ∅ Sample.good_server) (Sample.uploader false)
             {| file_name := "app.aci"; file_fd := 3 |}
             {| file_name := "app.aci.asc"; file_fd := 4 |} [])).
Proof.
  pose proof (label_resolution (Sample.env Sample.manifest ∅ Sample.good_server))
    as (_ & Hmissing & Hdiscover).
  split.
  - apply (Hmissing _ _ osLabelName); [by right | reflexivity].
  - apply (Hdiscover (Sample.uploader false) _ _ [] Sample.manifest
             {| App_Name := "example.com/app"; App_Labels := ∅ |} _ Sample.manifest_doc);
      reflexivity.
Defined.

(** C5.  Labels before the network.  With both files open, the manifest
    read and the name parsed: when neither the labels of the name nor the
    labels of the manifest have [arch], [Upload] fails with the error that
    names [arch]; when neither has [os], it fails with the error that names
    [os], or [arch] when that is missing as well and is found first.  In
    both cases the session opened the two files, read the manifest, closed
    the files and did nothing else: no discovery, no request, no call of
    the auth hook, nothing on the wire. *)
Theorem labels_before_network (env : Env) (u : Uploader) (h : list event)
    (acifile ascfile : File) (manifest : ImageManifest) (app : App) :
  os_Open env (Acipath u) = Ok acifile ->
  os_Open env (Ascpath u) = Ok ascfile ->
  ManifestFromImage env acifile = Ok manifest ->
  NewAppFromString env (Uri u) = Ok app ->
  let session name :=
    Upload env u h =
      (Some (Errorf ("manifest is missing label: " +:+ quoted name)),
       [EvOpen (Acipath u); EvOpen (Ascpath u); EvManifestFromImage acifile;
        EvFileClose ascfile; EvFileClose acifile]) /\
    network_calls (snd (Upload env u h)) = [] in
  (App_Labels app !! archLabelName = None ->
   Labels_Get (Manifest_Labels manifest) archLabelName = None ->
   session archLabelName) /\
  (App_Labels app !! osLabelName = None ->
   Labels_Get (Manifest_Labels manifest) osLabelName = None ->
   session (match supplied manifest (App_Labels app) archLabelName with
            | Some _ => osLabelName
            | None => archLabelName
            end)).
Proof.
  intros Ho Ho' Hm Ha session.
  assert (Hfail : forall name,
            resolveLabels env manifest (App_Labels app) = Err (missing_label name) ->
            session name).
  { intros name Hl. unfold session.
    rewrite (Upload_labels_fail env u h _ _ _ _ _ Ho Ho' Hm Ha Hl). by split. }
  pose proof (resolveLabels_spec env manifest (App_Labels app)) as H.
  split; intros Hn Hg; apply Hfail;
    destruct (resolveLabels env manifest (App_Labels app)) as [labels'|e].
  - destruct H as (Harch & _ & _ & Sa & _).
    rewrite Harch in Sa. unfold supplied in Sa. rewrite Hn, Hg in Sa. by destruct Sa.
  - destruct H as [[_ ->]|(Sa & _)]; [done|].
    unfold supplied in Sa. rewrite Hn, Hg in Sa. by destruct Sa.
  - destruct H as (_ & Hos & _ & _ & So & _).
    rewrite Hos in So. unfold supplied in So. rewrite Hn, Hg in So. by destruct So.
  - destruct H as [[Sa ->]|(Sa & _ & ->)].
    + by rewrite Sa.
    + by destruct Sa as [a ->].
Qed.

Lemma labels_before_network_witness :
  let env := Sample.env {| Manifest_Name := "example.com/app";
                           Manifest_Labels := [("arch", "amd64")] |} ∅ Sample.good_server in
  Upload env (Sample.uploader true) [] =
    (Some (Errorf ("manifest is missing label: " +:+ quoted "os")),
     [EvOpen "app.aci"; EvOpen "app.aci.asc";
      EvManifestFromImage {| file_name := "app.aci"; file_fd := 3 |};
      EvFileClose {| file_name := "app.aci.asc"; file_fd := 4 |};
      EvFileClose {| file_name := "app.aci"; file_fd := 3 |}]) /\
  network_calls (snd (Upload env (Sample.uploader true) [])) = [].
Proof.
  intros env.
  refine (proj2 (labels_before_network env (Sample.uploader true) []
                   {| file_name := "app.aci"; file_fd := 3 |}
                   {| file_name := "app.aci.asc"; file_fd := 4 |}
                   {| Manifest_Name := "example.com/app"; Manifest_Labels := [("arch", "amd64")] |}
                   {| App_Name := "example.com/app"; App_Labels := ∅ |}
                   _ _ _ _) _ _); reflexivity.
Defined.

(** ** The transport *)

Section Transport.

Context (env : Env) (u : Uploader).

(** [performRequest], step by step. *)
Lemma performRequest_run reqType url b draw label h :
  performRequest env u reqType url b draw label h =
    match withProgress env u b draw label h with
    | (Err e, n0) => (Err e, n0)
    | (Ok b', n0) =>
        match NewRequest_err env reqType url with
        | Some e => (Err e, n0 ++ [EvNewRequest reqType url b'])
        | None =>
            let req := {| Method := reqType; URL := url; Header := []; ReqBody := b' |} in
            let pre := n0 ++ [EvNewRequest reqType url b'; EvSetHTTPHeaders req] in
            match client_Do env u (SetHTTPHeaders u req) (h ++ pre) with
            | (Err e, n1) => (Err e, pre ++ n1)
            | (Ok res, n1) =>
                if (StatusCode res =? 200) || (StatusCode res =? 400)
                then (Ok (Body res), pre ++ n1)
                else (Err (Errorf ("bad HTTP status code: " +:+ pretty (StatusCode res))),
                      pre ++ n1 ++ [EvBodyClose (Body res)])
            end
        end
    end.
Proof.
  unfold performRequest. run.
  destruct (withProgress env u b draw label h) as [[b'|e] n0]; [|by norm].
  destruct (NewRequest_err env reqType url) as [e|]; [by norm|]. norm.
  destruct (client_Do env u _ _) as [[res|e] n1]; [|by norm].
  destruct (StatusCode res =? 200); [by norm|].
  destruct (StatusCode res =? 400); by norm.
Qed.

Lemma CheckRedirect_run req via h :
  CheckRedirect u req via h =
    if (10 <=? length via)%nat then (Err (Errorf "too many redirects"), [])
    else (Ok (SetHTTPHeaders u req), [EvSetHTTPHeaders req]).
Proof. unfold CheckRedirect. run. by destruct (10 <=? length via)%nat. Qed.

(** One turn of the redirect loop under the [CheckRedirect] of
    [performRequest]. *)
Lemma doFollowingRedirects_step fuel ireq req via h :
  doFollowingRedirects env (S fuel) (Insecure u) (CheckRedirect u) ireq req via h =
    let op := urlErrorOp (Method ireq) in
    let sent := EvRoundTrip (Insecure u) req in
    match RoundTrip env (Insecure u) h req with
    | Err e => (Some (Err (URLError op (URL req) e)), [sent])
    | Ok resp =>
        if shouldRedirect env (Method ireq) (StatusCode resp) then
          if decide (Location resp = "") then
            (Some (Err (URLError op ""
               (Errorf (pretty (StatusCode resp) +:+ " response missing Location header")))),
             [sent; EvBodyClose (Body resp)])
          else
            match redirectRequest env ireq (via ++ [req]) (Location resp) with
            | Err e => (Some (Err (URLError op (Location resp) e)),
                        [sent; EvBodyClose (Body resp)])
            | Ok nreq =>
                if (10 <=? length (via ++ [req]))%nat then
                  (Some (Err (URLError op (Location resp) (Errorf "too many redirects"))),
                   [sent; EvBodyClose (Body resp)])
                else
                  (fst (doFollowingRedirects env fuel (Insecure u) (CheckRedirect u) ireq
                          (SetHTTPHeaders u nreq) (via ++ [req])
                          (h ++ [sent; EvBodyClose (Body resp); EvSetHTTPHeaders nreq])),
                   [sent; EvBodyClose (Body resp); EvSetHTTPHeaders nreq]
                     ++ snd (doFollowingRedirects env fuel (Insecure u) (CheckRedirect u) ireq
                               (SetHTTPHeaders u nreq) (via ++ [req])
                               (h ++ [sent; EvBodyClose (Body resp); EvSetHTTPHeaders nreq])))
            end
        else (Some (Ok resp), [sent])
    end.
Proof.
  cbn [doFollowingRedirects]. run. norm.
  destruct (RoundTrip env (Insecure u) h req) as [resp|e]; [|by norm].
  destruct (shouldRedirect env (Method ireq) (StatusCode resp)); [|by norm]. norm.
  destruct (decide (Location resp = "")); [by norm|].
  destruct (redirectRequest env ireq (via ++ [req]) (Location resp)) as [nreq|e]; [|by norm].
  rewrite CheckRedirect_run.
  destruct (10 <=? length (via ++ [req]))%nat; [by norm|]. norm.
  by destruct (doFollowingRedirects env fuel _ _ _ _ _ _).
Qed.

(** [CheckRedirect] stops the loop: with fuel for the requests that are
    still allowed the loop returns. *)
Lemma doFollowingRedirects_returns fuel ireq req via h :
  (0 < fuel)%nat -> (10 <= fuel + length via)%nat ->
  exists res,
    fst (doFollowingRedirects env fuel (Insecure u) (CheckRedirect u) ireq req via h) = Some res.
Proof.
  revert req via h. induction fuel as [|fuel IH]; intros req via h Hpos Hfuel; [lia|].
  rewrite doFollowingRedirects_step. cbv zeta.
  destruct (RoundTrip env (Insecure u) h req) as [resp|e]; [|by eexists].
  destruct (shouldRedirect env (Method ireq) (StatusCode resp)); [|by eexists].
  destruct (decide (Location resp = "")); [by eexists|].
  destruct (redirectRequest env ireq (via ++ [req]) (Location resp)) as [nreq|e]; [|by eexists].
  destruct (10 <=? length (via ++ [req]))%nat eqn:Hlen; [by eexists|].
  apply Nat.leb_gt in Hlen. rewrite length_app in *. cbn [length] in *.
  cbn [fst]. apply IH; rewrite ?length_app; cbn [length]; lia.
Qed.

Lemma client_Do_run req h :
  exists res,
    doFollowingRedirects env maxRequests (Insecure u) (CheckRedirect u) req req [] h
      = (Some res, snd (client_Do env u req h)) /\
    client_Do env u req h = (res, snd (client_Do env u req h)).
Proof.
  destruct (doFollowingRedirects_returns maxRequests req req [] h) as [res Hres];
    [unfold maxRequests; lia | cbn; lia |].
  exists res. unfold client_Do. run.
  destruct (doFollowingRedirects env maxRequests _ _ _ _ _ _) as [r n].
  cbn [fst] in Hres. subst r. by norm.
Qed.

(** [client.Do] starts by handing its request to the transport. *)
Lemma client_Do_first req h :
  exists rest, snd (client_Do env u req h) = EvRoundTrip (Insecure u) req :: rest.
Proof.
  destruct (client_Do_run req h) as (res & Hloop & _).
  assert (Hsnd : snd (doFollowingRedirects env maxRequests (Insecure u) (CheckRedirect u)
                        req req [] h) = snd (client_Do env u req h)) by (by rewrite Hloop).
  rewrite <- Hsnd. unfold maxRequests. rewrite doFollowingRedirects_step. cbv zeta.
  destruct (RoundTrip env (Insecure u) h req) as [resp|e]; [|by eexists].
  destruct (shouldRedirect env (Method req) (StatusCode resp)); [|by eexists].
  destruct (decide (Location resp = "")); [by eexists|].
  destruct (redirectRequest env req _ (Location resp)) as [nreq|e]; [|by eexists].
  destruct (10 <=? length _)%nat; by eexists.
Qed.

Lemma withProgress_run b draw label h :
  withProgress env u b draw label h =
    match b with
    | FileBody f =>
        if (draw && Debug u)%bool then
          (match File_Stat env f with
           | Ok size =>
               Ok (ProgressBody
                     {| Reader := f; Size := size;
                        DrawPrefix := if decide (label = "") then "Uploading"
                                      else "Uploading " +:+ label;
                        DrawBarSize :=
                          80 - Z.of_nat (String.length
                                           (if decide (label = "") then "Uploading"
                                            else "Uploading " +:+ label)) - 18;
                        DrawInterval := 1000000000 |})
           | Err e => Err e
           end, [EvStat f])
        else (Ok b, [])
    | _ => (Ok b, [])
    end.
Proof.
  unfold withProgress, genProgressBar. run.
  destruct b as [| |f|]; try done.
  destruct (draw && Debug u)%bool; [|done].
  by destruct (File_Stat env f).
Qed.

Lemma auth_calls_app l1 l2 : auth_calls (l1 ++ l2) = (auth_calls l1 + auth_calls l2)%nat.
Proof. unfold auth_calls. by rewrite filter_app, length_app. Qed.

Lemma round_trips_app l1 l2 : round_trips (l1 ++ l2) = (round_trips l1 + round_trips l2)%nat.
Proof. unfold round_trips. by rewrite filter_app, length_app. Qed.

Lemma auth_before_send_quiet x tail :
  quiet_head tail -> auth_before_send u tail -> auth_before_send u (EvSetHTTPHeaders x :: tail).
Proof. destruct tail as [|[] tail]; cbn; tauto. Qed.

(** In the redirect loop every request goes on the wire straight from the
    auth hook. *)
Lemma doFollowingRedirects_auth fuel ireq req0 via h tail :
  quiet_head tail -> auth_before_send u tail ->
  auth_before_send u
    (EvSetHTTPHeaders req0
       :: snd (doFollowingRedirects env fuel (Insecure u) (CheckRedirect u) ireq
                 (SetHTTPHeaders u req0) via h) ++ tail).
Proof.
  intros Hq Ht. revert req0 via h.
  induction fuel as [|fuel IH]; intros req0 via h.
  - cbn [doFollowingRedirects]. run. cbn [snd Datatypes.app].
    by apply auth_before_send_quiet.
  - rewrite doFollowingRedirects_step. cbv zeta.
    destruct (RoundTrip env (Insecure u) h _) as [resp|e]; [|by cbn].
    destruct (shouldRedirect env (Method ireq) (StatusCode resp)); [|by cbn].
    destruct (decide (Location resp = "")); [by cbn|].
    destruct (redirectRequest env ireq _ (Location resp)) as [nreq|e]; [|by cbn].
    destruct (10 <=? length _)%nat; [by cbn|].
    cbn [snd Datatypes.app auth_before_send]. split; [done|]. apply IH.
Qed.

(** [k] redirects in a row, all let through by [CheckRedirect]: the loop
    is then where it would be had it started with the [k]-th target, [k]
    requests went on the wire and the auth hook ran [k] times. *)
Lemma doFollowingRedirects_chain k : forall fuel ireq req via h,
  (forall h' req', (round_trips h <= round_trips h' < round_trips h + k)%nat ->
                   redirects env ireq (RoundTrip env (Insecure u) h' req')) ->
  (length via + k < 10)%nat -> (k <= fuel)%nat ->
  exists req' via' n,
    doFollowingRedirects env fuel (Insecure u) (CheckRedirect u) ireq req via h =
      (fst (doFollowingRedirects env (fuel - k) (Insecure u) (CheckRedirect u) ireq req' via'
              (h ++ n)),
       n ++ snd (doFollowingRedirects env (fuel - k) (Insecure u) (CheckRedirect u) ireq req' via'
                   (h ++ n))) /\
    length via' = (length via + k)%nat /\
    auth_calls n = k /\ round_trips n = k.
Proof.
  induction k as [|k IH]; intros fuel ireq req via h Hred Hlen Hfuel.
  - exists req, via, []. rewrite Nat.sub_0_r, app_nil_r, Nat.add_0_r.
    by destruct (doFollowingRedirects env fuel _ _ _ _ _ _).
  - destruct fuel as [|fuel]; [lia|].
    rewrite doFollowingRedirects_step. cbv zeta.
    pose proof (Hred h req ltac:(lia)) as Hr.
    destruct (RoundTrip env (Insecure u) h req) as [resp|e]; [|done].
    destruct Hr as (Hs & Hloc & Hparse). rewrite Hs.
    destruct (decide (Location resp = "")) as [|_]; [done|].
    destruct (Hparse (via ++ [req])) as [nreq ->].
    destruct (10 <=? length (via ++ [req]))%nat eqn:Hchk.
    { apply Nat.leb_le in Hchk. rewrite length_app in Hchk. cbn [length] in Hchk. lia. }
    set (seen := [EvRoundTrip (Insecure u) req; EvBodyClose (Body resp); EvSetHTTPHeaders nreq]).
    destruct (IH fuel ireq (SetHTTPHeaders u nreq) (via ++ [req]) (h ++ seen))
      as (req' & via' & n & Hrun & Hvia & Hauth & Hrt).
    + intros h' req' Hh'. apply Hred. rewrite round_trips_app in Hh'.
      change (round_trips seen) with 1%nat in Hh'. lia.
    + rewrite length_app. cbn [length]. lia.
    + lia.
    + exists req', via', (seen ++ n). rewrite Hrun. cbn [fst snd Nat.sub].
      rewrite !app_assoc. repeat split.
      * rewrite Hvia, length_app. cbn [length]. lia.
      * rewrite auth_calls_app, Hauth. change (auth_calls seen) with 1%nat. lia.
      * rewrite round_trips_app, Hrt. change (round_trips seen) with 1%nat. lia.
Qed.

Lemma withProgress_quiet b draw label h :
  round_trips (snd (withProgress env u b draw label h)) = 0%nat /\
  auth_calls (snd (withProgress env u b draw label h)) = 0%nat /\
  (snd (withProgress env u b draw label h) = [] \/
   exists f, snd (withProgress env u b draw label h) = [EvStat f]).
Proof.
  rewrite withProgress_run. destruct b as [| |f|]; cbn; auto.
  destruct (draw && Debug u)%bool; cbn; eauto.
Qed.

(** Ten redirects in a row: the tenth is refused. *)
Lemma client_Do_too_many req h :
  (forall h' req', (round_trips h <= round_trips h' < round_trips h + 10)%nat ->
                   redirects env req (RoundTrip env (Insecure u) h' req')) ->
  exists loc n,
    client_Do env u req h
      = (Err (URLError (urlErrorOp (Method req)) loc (Errorf "too many redirects")), n) /\
    round_trips n = 10%nat /\ auth_calls n = 9%nat.
Proof.
  intros Hred.
  destruct (client_Do_run req h) as (res & Hloop & Hdo).
  destruct (doFollowingRedirects_chain 9 maxRequests req req [] h)
    as (req' & via' & n & Hrun & Hvia & Hauth & Hrt);
    [intros; apply Hred; lia | cbn; lia | unfold maxRequests; lia |].
  rewrite Hloop in Hrun. change (maxRequests - 9)%nat with 1%nat in Hrun.
  rewrite doFollowingRedirects_step in Hrun. cbv zeta in Hrun.
  pose proof (Hred (h ++ n) req') as Hr. rewrite round_trips_app, Hrt in Hr.
  specialize (Hr ltac:(lia)).
  destruct (RoundTrip env (Insecure u) (h ++ n) req') as [resp|e]; [|done].
  destruct Hr as (Hs & Hloc & Hparse). rewrite Hs in Hrun.
  destruct (decide (Location resp = "")) as [|_]; [done|].
  destruct (Hparse (via' ++ [req'])) as [nreq Hn]. rewrite Hn in Hrun.
  assert (Hten : (10 <=? length (via' ++ [req']))%nat = true).
  { apply Nat.leb_le. rewrite length_app, Hvia. cbn. lia. }
  rewrite Hten in Hrun. cbn [fst snd] in Hrun.
  injection Hrun as -> Hev.
  exists (Location resp), (snd (client_Do env u req h)). rewrite Hdo at 1. split; [done|].
  rewrite Hev, round_trips_app, auth_calls_app, Hrt, Hauth. by cbn.
Qed.

(** Nine redirects and then an answer that is not one: the answer is
    returned. *)
Lemma client_Do_nine_then req h resp :
  (forall h' req', (round_trips h <= round_trips h' < round_trips h + 9)%nat ->
                   redirects env req (RoundTrip env (Insecure u) h' req')) ->
  (forall h' req', round_trips h' = (round_trips h + 9)%nat ->
                   RoundTrip env (Insecure u) h' req' = Ok resp) ->
  shouldRedirect env (Method req) (StatusCode resp) = false ->
  exists n,
    client_Do env u req h = (Ok resp, n) /\
    round_trips n = 10%nat /\ auth_calls n = 9%nat.
Proof.
  intros Hred Hlast Hfinal.
  destruct (client_Do_run req h) as (res & Hloop & Hdo).
  destruct (doFollowingRedirects_chain 9 maxRequests req req [] h)
    as (req' & via' & n & Hrun & Hvia & Hauth & Hrt);
    [intros; apply Hred; lia | cbn; lia | unfold maxRequests; lia |].
  rewrite Hloop in Hrun. change (maxRequests - 9)%nat with 1%nat in Hrun.
  rewrite doFollowingRedirects_step in Hrun. cbv zeta in Hrun.
  rewrite (Hlast (h ++ n) req') in Hrun by (rewrite round_trips_app, Hrt; lia).
  rewrite Hfinal in Hrun. cbn [fst snd] in Hrun.
  injection Hrun as -> Hev.
  exists (snd (client_Do env u req h)). rewrite Hdo at 1. split; [done|].
  rewrite Hev, round_trips_app, auth_calls_app, Hrt, Hauth. by cbn.
Qed.

Lemma performRequest_auth reqType url b draw label h :
  auth_before_send u (snd (performRequest env u reqType url b draw label h)).
Proof.
  rewrite performRequest_run.
  destruct (withProgress_quiet b draw label h) as (_ & _ & Hn0).
  destruct (withProgress env u b draw label h) as [[b'|e] n0]; cbn [snd] in Hn0.
  - destruct (NewRequest_err env reqType url) as [e|].
    + destruct Hn0 as [->|[f ->]]; by cbn.
    + cbv zeta.
      set (req := {| Method := reqType; URL := url; Header := []; ReqBody := b' |}).
      destruct (client_Do_run (SetHTTPHeaders u req)
                  (h ++ n0 ++ [EvNewRequest reqType url b'; EvSetHTTPHeaders req]))
        as (res & Hloop & Hdo).
      rewrite Hdo.
      assert (Hauth : forall tail, quiet_head tail -> auth_before_send u tail ->
                auth_before_send u
                  ((n0 ++ [EvNewRequest reqType url b'; EvSetHTTPHeaders req])
                     ++ snd (client_Do env u (SetHTTPHeaders u req)
                               (h ++ n0 ++ [EvNewRequest reqType url b'; EvSetHTTPHeaders req]))
                     ++ tail)).
      { intros tail Hq Ht.
        pose proof (doFollowingRedirects_auth maxRequests (SetHTTPHeaders u req) req []
                      (h ++ n0 ++ [EvNewRequest reqType url b'; EvSetHTTPHeaders req])
                      tail Hq Ht) as Hl.
        rewrite Hloop in Hl. cbn [snd] in Hl.
        destruct Hn0 as [->|[f ->]]; exact Hl. }
      destruct res as [res|e]; cbn [snd].
      * destruct ((StatusCode res =? 200) || (StatusCode res =? 400)); cbn [snd].
        -- specialize (Hauth [] I I). by rewrite app_nil_r in Hauth.
        -- by apply Hauth.
      * specialize (Hauth [] I I). by rewrite app_nil_r in Hauth.
  - destruct Hn0 as [->|[f ->]]; by cbn.
Qed.

End Transport.

(** C2.  Auth on every hop, and the redirect ceiling.  In every call of
    [performRequest] each request that goes on the wire - the first one and
    every redirect target - is the request the auth hook has just
    returned.  When the request is made ([withProgress] and
    [http.NewRequest] succeed) and the server answers ten requests in a
    row with redirects, the call fails with "too many redirects" after ten
    requests on the wire and ten calls of the hook, the tenth redirect not
    being followed.  When it answers nine with redirects and the tenth with
    a 200, the call returns the body of that answer, again after ten
    requests and ten calls of the hook. *)
Theorem redirect_ceiling (env : Env) (u : Uploader) (reqType url : string) (b : body)
    (draw : bool) (label : string) (h : list event) :
  auth_before_send u (snd (performRequest env u reqType url b draw label h)) /\
  (forall b' n0,
     withProgress env u b draw label h = (Ok b', n0) ->
     NewRequest_err env reqType url = None ->
     let req := SetHTTPHeaders u {| Method := reqType; URL := url; Header := []; ReqBody := b' |} in
     ((forall h' req', (round_trips h <= round_trips h' < round_trips h + 10)%nat ->
                       redirects env req (RoundTrip env (Insecure u) h' req')) ->
      exists loc n,
        performRequest env u reqType url b draw label h
          = (Err (URLError (urlErrorOp (Method req)) loc (Errorf "too many redirects")), n) /\
        round_trips n = 10%nat /\ auth_calls n = 10%nat) /\
     (forall resp,
        (forall h' req', (round_trips h <= round_trips h' < round_trips h + 9)%nat ->
                         redirects env req (RoundTrip env (Insecure u) h' req')) ->
        (forall h' req', round_trips h' = (round_trips h + 9)%nat ->
                         RoundTrip env (Insecure u) h' req' = Ok resp) ->
        StatusCode resp = 200 ->
        shouldRedirect env (Method req) 200 = false ->
        exists n,
          performRequest env u reqType url b draw label h = (Ok (Body resp), n) /\
          round_trips n = 10%nat /\ auth_calls n = 10%nat)).
Proof.
  split; [apply performRequest_auth|].
  intros b' n0 Hwrap Hnew req.
  destruct (withProgress_quiet env u b draw label h) as (Hrt0 & Hauth0 & _).
  rewrite Hwrap in Hrt0, Hauth0. cbn [snd] in Hrt0, Hauth0.
  set (req0 := {| Method := reqType; URL := url; Header := []; ReqBody := b' |}) in *.
  set (pre := n0 ++ [EvNewRequest reqType url b'; EvSetHTTPHeaders req0]).
  assert (Hpre_rt : round_trips (h ++ pre) = round_trips h).
  { unfold pre. rewrite !round_trips_app, Hrt0.
    change (round_trips [_; _]) with 0%nat. lia. }
  assert (Hpre_auth : auth_calls pre = 1%nat).
  { unfold pre. rewrite auth_calls_app, Hauth0. by cbn. }
  assert (Hpre_rt' : round_trips pre = 0%nat).
  { unfold pre. rewrite round_trips_app, Hrt0. by cbn. }
  split.
  - intros Hred.
    destruct (client_Do_too_many env u req (h ++ pre)) as (loc & n & Hdo & Hrt & Hauth).
    { intros h' req' Hh'. apply Hred. lia. }
    exists loc, (pre ++ n). rewrite performRequest_run, Hwrap, Hnew. cbv zeta.
    fold req0. fold pre. fold req. rewrite Hdo.
    rewrite round_trips_app, auth_calls_app, Hrt, Hauth, Hpre_auth, Hpre_rt'. by repeat split.
  - intros resp Hred Hlast Hcode Hfinal.
    destruct (client_Do_nine_then env u req (h ++ pre) resp) as (n & Hdo & Hrt & Hauth).
    { intros h' req' Hh'. apply Hred. lia. }
    { intros h' req' Hh'. apply Hlast. lia. }
    { by rewrite Hcode. }
    exists (pre ++ n). rewrite performRequest_run, Hwrap, Hnew. cbv zeta.
    fold req0. fold pre. fold req. rewrite Hdo, Hcode. cbn [Z.eqb Pos.eqb orb].
    rewrite round_trips_app, auth_calls_app, Hrt, Hauth, Hpre_auth, Hpre_rt'. by repeat split.
Qed.

Lemma redirect_ceiling_witness :
  (exists loc n,
     performRequest
       (Sample.env Sample.manifest ∅ (Sample.redirecting_server 10 (Sample.reply 200 "")))
       (Sample.uploader false) "POST" "https://example.com/push" NilBody false "" []
     = (Err (URLError "Post" loc (Errorf "too many redirects")), n) /\
     round_trips n = 10%nat /\ auth_calls n = 10%nat) /\
  (exists n,
     performRequest
       (Sample.env Sample.manifest ∅ (Sample.redirecting_server 9 (Sample.reply 200 "done")))
       (Sample.uploader false) "POST" "https://example.com/push" NilBody false "" []
     = (Ok {| body_bytes := "done"; body_err := None |}, n) /\
     round_trips n = 10%nat /\ auth_calls n = 10%nat).
Proof.
  split.
  - refine (proj1 (proj2 (redirect_ceiling
              (Sample.env Sample.manifest ∅ (Sample.redirecting_server 10 (Sample.reply 200 "")))
              (Sample.uploader false) "POST" "https://example.com/push" NilBody false "" [])
              NilBody [] eq_refl eq_refl) _).
    intros h' req' Hh'. cbn [RoundTrip Sample.env]. unfold Sample.redirecting_server.
    destruct (Nat.ltb_spec (round_trips h') 10) as [_|Hge]; [|cbn in Hh'; lia].
    cbn. repeat split; [done|]. intros via. by eexists.
  - refine (proj2 (proj2 (redirect_ceiling
              (Sample.env Sample.manifest ∅ (Sample.redirecting_server 9 (Sample.reply 200 "done")))
              (Sample.uploader false) "POST" "https://example.com/push" NilBody false "" [])
              NilBody [] eq_refl eq_refl)
              {| StatusCode := 200; Location := "";
                 Body := {| body_bytes := "done"; body_err := None |} |} _ _ eq_refl eq_refl).
    + intros h' req' Hh'. cbn [RoundTrip Sample.env]. unfold Sample.redirecting_server.
      destruct (Nat.ltb_spec (round_trips h') 9) as [_|Hge]; [|cbn in Hh'; lia].
      cbn. repeat split; [done|]. intros via. by eexists.
    + intros h' req' Hh'. cbn [RoundTrip Sample.env]. unfold Sample.redirecting_server.
      cbn in Hh'. rewrite Hh'. reflexivity.
Defined.

(** ** What a call hands to the transport *)

Section Requests.

Context (env : Env) (u : Uploader).
Context {A : Type} (f : event -> option A) (Hf : on_requests f).

Lemma omap_quiet (l : list event) :
  Forall (fun e => is_NewRequest e = false) l -> omap f l = [].
Proof.
  induction 1 as [|e l He _ IH]; [done|]. cbn. by rewrite (Hf e He), IH.
Qed.

Lemma doFollowingRedirects_quiet fuel ireq req via h :
  Forall (fun e => is_NewRequest e = false)
    (snd (doFollowingRedirects env fuel (Insecure u) (CheckRedirect u) ireq req via h)).
Proof.
  revert req via h. induction fuel as [|fuel IH]; intros req via h.
  - cbn. constructor.
  - rewrite doFollowingRedirects_step. cbv zeta.
    destruct (RoundTrip env (Insecure u) h req) as [resp|e]; [|by repeat constructor].
    destruct (shouldRedirect env (Method ireq) (StatusCode resp)); [|by repeat constructor].
    destruct (decide (Location resp = "")); [by repeat constructor|].
    destruct (redirectRequest env ireq _ (Location resp)) as [nreq|e]; [|by repeat constructor].
    destruct (10 <=? length _)%nat; [by repeat constructor|].
    cbn [snd Datatypes.app]. repeat (constructor; [done|]). apply IH.
Qed.

Lemma client_Do_quiet req h : omap f (snd (client_Do env u req h)) = [].
Proof.
  destruct (client_Do_run env u req h) as (res & Hloop & _).
  pose proof (doFollowingRedirects_quiet maxRequests req req [] h) as Hq.
  rewrite Hloop in Hq. by apply omap_quiet.
Qed.

(** Of the events of [performRequest] only the one [http.NewRequest]
    is a request, and it is made with the body [withProgress] returns. *)
Lemma performRequest_requests reqType url b draw label h :
  omap f (snd (performRequest env u reqType url b draw label h)) =
    match fst (withProgress env u b draw label h) with
    | Ok b' => omap f [EvNewRequest reqType url b']
    | Err _ => []
    end.
Proof.
  rewrite performRequest_run.
  destruct (withProgress_quiet env u b draw label h) as (_ & _ & Hn0).
  destruct (withProgress env u b draw label h) as [[b'|e] n0]; cbn [fst snd] in *.
  - assert (H0 : omap f n0 = []) by (destruct Hn0 as [->|[x ->]]; cbn; by rewrite ?Hf).
    destruct (NewRequest_err env reqType url) as [e|].
    + cbn [snd]. by rewrite omap_app, H0.
    + cbv zeta.
      set (req := {| Method := reqType; URL := url; Header := []; ReqBody := b' |}).
      pose proof (client_Do_quiet (SetHTTPHeaders u req)
                    (h ++ n0 ++ [EvNewRequest reqType url b'; EvSetHTTPHeaders req])) as Hq.
      destruct (client_Do env u _ _) as [[res|e] n1]; cbn [snd] in *.
      * destruct ((StatusCode res =? 200) || (StatusCode res =? 400)); cbn [snd];
          rewrite !omap_app, H0, Hq; cbn; rewrite ?(Hf (EvSetHTTPHeaders req)),
            ?(Hf (EvBodyClose (Body res))) by done; by rewrite ?app_nil_r.
      * rewrite !omap_app, H0, Hq. cbn. rewrite (Hf (EvSetHTTPHeaders req)) by done.
        by rewrite ?app_nil_r.
  - destruct Hn0 as [->|[x ->]]; cbn; by rewrite ?Hf.
Qed.

End Requests.

Lemma put_request_on_requests : on_requests put_request.
Proof. by intros []. Qed.

Lemma completion_post_on_requests : on_requests completion_post.
Proof. by intros []. Qed.

Section Parts.

Context (env : Env) (u : Uploader).

Lemma uploadPart_run url b draw label h :
  uploadPart env u url b draw label h =
    match performRequest env u "PUT" url b draw label h with
    | (Err e, n) => (Some e, n)
    | (Ok resp, n) => (None, n ++ [EvBodyClose resp])
    end.
Proof.
  unfold uploadPart. run.
  destruct (performRequest env u "PUT" url b draw label h) as [[resp|e] n]; by norm.
Qed.

(** The [PUT] requests of one [uploadPart]: the one for its URL, with the
    body [withProgress] returns, or none when [withProgress] fails. *)
Lemma uploadPart_puts url b draw label h :
  put_requests (snd (uploadPart env u url b draw label h)) =
    match fst (withProgress env u b draw label h) with
    | Ok b' => [(url, b')]
    | Err _ => []
    end.
Proof.
  rewrite uploadPart_run.
  pose proof (performRequest_requests env u put_request put_request_on_requests
                "PUT" url b draw label h) as Hp.
  unfold put_requests.
  destruct (performRequest env u "PUT" url b draw label h) as [[resp|e] n]; cbn [snd] in *.
  - rewrite omap_app, Hp. cbn. rewrite app_nil_r.
    by destruct (fst (withProgress env u b draw label h)).
  - rewrite Hp. by destruct (fst (withProgress env u b draw label h)).
Qed.

Lemma uploadPart_no_completion url b draw label h :
  completion_posts (snd (uploadPart env u url b draw label h)) = [].
Proof.
  rewrite uploadPart_run.
  pose proof (performRequest_requests env u completion_post completion_post_on_requests
                "PUT" url b draw label h) as Hp.
  unfold completion_posts.
  destruct (performRequest env u "PUT" url b draw label h) as [[resp|e] n]; cbn [snd] in *.
  - rewrite omap_app, Hp. cbn. rewrite app_nil_r.
    destruct (fst (withProgress env u b draw label h)) as [[]|]; done.
  - rewrite Hp. destruct (fst (withProgress env u b draw label h)) as [[]|]; done.
Qed.

End Parts.

(** ** Status classification *)

(** C6.  Status classification.  Let [client.Do] return the response
    [res] in a call of [performRequest].  If its status is 200 or 400 the
    call returns the body of [res] with no error, and leaves it open: the
    events of the call end with those of [client.Do].  For any other
    status the call closes the body, as its last event, and returns the
    error "bad HTTP status code: " followed by the code in decimal; codes
    that differ give errors that differ. *)
Theorem status_classification (env : Env) (u : Uploader) (reqType url : string) (b : body)
    (draw : bool) (label : string) (h : list event) (b' : body) (n0 n1 : list event)
    (res : Response) :
  withProgress env u b draw label h = (Ok b', n0) ->
  NewRequest_err env reqType url = None ->
  let req := {| Method := reqType; URL := url; Header := []; ReqBody := b' |} in
  let pre := n0 ++ [EvNewRequest reqType url b'; EvSetHTTPHeaders req] in
  client_Do env u (SetHTTPHeaders u req) (h ++ pre) = (Ok res, n1) ->
  (StatusCode res = 200 \/ StatusCode res = 400 ->
   performRequest env u reqType url b draw label h = (Ok (Body res), pre ++ n1)) /\
  (StatusCode res <> 200 -> StatusCode res <> 400 ->
   performRequest env u reqType url b draw label h =
     (Err (Errorf ("bad HTTP status code: " +:+ pretty (StatusCode res))),
      pre ++ n1 ++ [EvBodyClose (Body res)])) /\
  (forall code code' : Z,
     Errorf ("bad HTTP status code: " +:+ pretty code)
       = Errorf ("bad HTTP status code: " +:+ pretty code') -> code = code').
Proof.
  intros Hwrap Hnew req pre Hdo.
  rewrite performRequest_run, Hwrap, Hnew. cbv zeta. fold req. fold pre. rewrite Hdo.
  split; [|split].
  - intros [-> | ->]; reflexivity.
  - intros H200 H400.
    destruct (Z.eqb_spec (StatusCode res) 200); [done|].
    destruct (Z.eqb_spec (StatusCode res) 400); [done|]. reflexivity.
  - intros code code' Heq. injection Heq as Heq.
    change (pretty code = pretty code') in Heq. by apply (inj pretty) in Heq.
Qed.

Lemma status_classification_witness :
  performRequest (Sample.env Sample.manifest ∅ (fun _ _ _ => Sample.reply 400 "{}"))
    (Sample.uploader false) "POST" "https://example.com/push" NilBody false "" []
  = (Ok {| body_bytes := "{}"; body_err := None |},
     [EvNewRequest "POST" "https://example.com/push" NilBody;
      EvSetHTTPHeaders {| Method := "POST"; URL := "https://example.com/push"; Header := [];
                          ReqBody := NilBody |};
      EvRoundTrip false
        {| Method := "POST"; URL := "https://example.com/push";
           Header := [("Authorization", "Basic Zm9vOmJhcg==")]; ReqBody := NilBody |}]) /\
  performRequest (Sample.env Sample.manifest ∅ (fun _ _ _ => Sample.reply 500 "oops"))
    (Sample.uploader false) "POST" "https://example.com/push" NilBody false "" []
  = (Err (Errorf "bad HTTP status code: 500"),
     [EvNewRequest "POST" "https://example.com/push" NilBody;
      EvSetHTTPHeaders {| Method := "POST"; URL := "https://example.com/push"; Header := [];
                          ReqBody := NilBody |};
      EvRoundTrip false
        {| Method := "POST"; URL := "https://example.com/push";
           Header := [("Authorization", "Basic Zm9vOmJhcg==")]; ReqBody := NilBody |};
      EvBodyClose {| body_bytes := "oops"; body_err := None |}]).
Proof.
  split.
  - refine (proj1 (status_classification
              (Sample.env Sample.manifest ∅ (fun _ _ _ => Sample.reply 400 "{}"))
              (Sample.uploader false) "POST" "https://example.com/push" NilBody false "" []
              NilBody [] _
              {| StatusCode := 400; Location := "";
                 Body := {| body_bytes := "{}"; body_err := None |} |}
              eq_refl eq_refl eq_refl) _).
    right. reflexivity.
  - refine (proj1 (proj2 (status_classification
              (Sample.env Sample.manifest ∅ (fun _ _ _ => Sample.reply 500 "oops"))
              (Sample.uploader false) "POST" "https://example.com/push" NilBody false "" []
              NilBody [] _
              {| StatusCode := 500; Location := "";
                 Body := {| body_bytes := "oops"; body_err := None |} |}
              eq_refl eq_refl eq_refl)) _ _); cbn; lia.
Defined.

(** ** Progress bars *)

(** C9, as stated, fails: with [draw] set and a file as the source, but
    [u.Debug] not set, the signature goes out as the bare file, with no
    progress reader around it. *)
Lemma progress_wrapping_counterexample :
  let asc := {| file_name := "app.aci.asc"; file_fd := 4 |} in
  let sent := put_requests
                (snd (uploadPart (Sample.env Sample.manifest ∅ Sample.good_server)
                        (Sample.uploader false) "https://example.com/signature"
                        (FileBody asc) true "signature" [])) in
  sent = [("https://example.com/signature", FileBody asc)] /\
  ~ (exists pr, In ("https://example.com/signature", ProgressBody pr) sent).
Proof.
  cbv zeta. split; [reflexivity|].
  intros [pr [Hin|[]]]. discriminate Hin.
Qed.

(** C9, amended.  A part upload wraps its source in a progress reader
    exactly when the source is a file, [draw] is set and [u.Debug] is set.
    It then asks the file for its size first; with the size it makes the
    [PUT] with a progress reader over that file, reporting against that
    size once a second under the prefix "Uploading <label>"; the text of a
    progress line is the prefix, the bar and the byte counts drawn against
    the total, and for the total -1, and for no other, it is the prefix
    and the bytes read "of an unknown total size"; when the size cannot be
    had the part upload fails with that error and no request is made.  In
    every other case the [PUT] is made with the source as it is. *)
Theorem progress_wrapping (env : Env) (u : Uploader) (url : string) (b : body) (draw : bool)
    (label : string) (h : list event) :
  (forall f size,
     b = FileBody f -> draw = true -> Debug u = true -> File_Stat env f = Ok size ->
     exists pr rest,
       snd (uploadPart env u url b draw label h)
         = EvStat f :: EvNewRequest "PUT" url (ProgressBody pr) :: rest /\
       put_requests (snd (uploadPart env u url b draw label h)) = [(url, ProgressBody pr)] /\
       Reader pr = f /\ Size pr = size /\ DrawInterval pr = 1000000000 /\
       DrawPrefix pr = (if decide (label = "") then "Uploading" else "Uploading " +:+ label) /\
       DrawBarSize pr = 80 - Z.of_nat (String.length (DrawPrefix pr)) - 18 /\
       (forall progress,
          fmtfunc env (DrawPrefix pr) (DrawBarSize pr) progress (-1)
            = DrawPrefix pr +:+ ": " +:+ ByteUnitStr env progress +:+ " of an unknown total size") /\
       (forall progress total,
          total <> -1 ->
          fmtfunc env (DrawPrefix pr) (DrawBarSize pr) progress total
            = DrawPrefix pr +:+ ": " +:+ DrawTextFormatBar env (DrawBarSize pr) progress total
                +:+ " " +:+ DrawTextFormatBytes env progress total)) /\
  (forall f e,
     b = FileBody f -> draw = true -> Debug u = true -> File_Stat env f = Err e ->
     uploadPart env u url b draw label h = (Some e, [EvStat f])) /\
  ((forall f, b <> FileBody f) \/ draw = false \/ Debug u = false ->
   put_requests (snd (uploadPart env u url b draw label h)) = [(url, b)]).
Proof.
  split; [|split].
  - intros f size -> -> Hd Hstat.
    set (prefix := if decide (label = "") then "Uploading" else "Uploading " +:+ label).
    exists {| Reader := f; Size := size; DrawPrefix := prefix;
              DrawBarSize := 80 - Z.of_nat (String.length prefix) - 18;
              DrawInterval := 1000000000 |}.
    rewrite uploadPart_puts, uploadPart_run, performRequest_run, withProgress_run.
    rewrite Hd, Hstat. cbn [andb fst]. fold prefix.
    assert (Hbar : forall progress total,
              total <> -1 ->
              fmtfunc env prefix (80 - Z.of_nat (String.length prefix) - 18) progress total
                = prefix +:+ ": "
                    +:+ DrawTextFormatBar env (80 - Z.of_nat (String.length prefix) - 18)
                          progress total
                    +:+ " " +:+ DrawTextFormatBytes env progress total).
    { intros progress total Htotal. unfold fmtfunc.
      by destruct (Z.eqb_spec total (-1)). }
    destruct (NewRequest_err env "PUT" url) as [e|].
    + eexists. cbn [snd Datatypes.app]. repeat split; first [reflexivity | exact Hbar].
    + cbv zeta. destruct (client_Do env u _ _) as [[res|e] n1].
      * destruct ((StatusCode res =? 200) || (StatusCode res =? 400));
          eexists; cbn [snd Datatypes.app]; repeat split; first [reflexivity | exact Hbar].
      * eexists. cbn [snd Datatypes.app]. repeat split; first [reflexivity | exact Hbar].
  - intros f e -> -> Hd Hstat.
    rewrite uploadPart_run, performRequest_run, withProgress_run. by rewrite Hd, Hstat.
  - intros Hcase. rewrite uploadPart_puts, withProgress_run.
    destruct b as [| |f|]; try done.
    destruct Hcase as [Hf | [-> | ->]]; [by destruct (Hf f) | done | by rewrite andb_false_r].
Qed.

Lemma progress_wrapping_witness :
  let asc := {| file_name := "app.aci.asc"; file_fd := 4 |} in
  (exists pr rest,
     snd (uploadPart (Sample.env Sample.manifest ∅ Sample.good_server) (Sample.uploader true)
            "https://example.com/signature" (FileBody asc) true "signature" [])
       = EvStat asc :: EvNewRequest "PUT" "https://example.com/signature" (ProgressBody pr) :: rest
     /\ Reader pr = asc /\ Size pr = 4096 /\ DrawPrefix pr = "Uploading signature") /\
  put_requests
    (snd (uploadPart (Sample.env Sample.manifest ∅ Sample.good_server) (Sample.uploader false)
            "https://example.com/signature" (FileBody asc) true "signature" []))
    = [("https://example.com/signature", FileBody asc)].
Proof.
  intros asc. split.
  - destruct (proj1 (progress_wrapping (Sample.env Sample.manifest ∅ Sample.good_server)
                       (Sample.uploader true) "https://example.com/signature" (FileBody asc)
                       true "signature" [])
                asc 4096 eq_refl eq_refl eq_refl eq_refl)
      as (pr & rest & Hev & _ & Hr & Hs & _ & Hp & _).
    exists pr, rest. repeat split; assumption.
  - apply (proj2 (proj2 (progress_wrapping (Sample.env Sample.manifest ∅ Sample.good_server)
                           (Sample.uploader false) "https://example.com/signature"
                           (FileBody asc) true "signature" []))).
    right. right. reflexivity.
Defined.

(** ** The completion reporter *)

Section Complete.

Context (env : Env) (u : Uploader).

(** [complete], step by step. *)
Lemma complete_run url blob h :
  complete env u url blob h =
    match performRequest env u "POST" url (BytesReader blob) false "" h with
    | (Err e, n) => (Some e, n)
    | (Ok resp, n) =>
        (match body_err resp with
         | Some e => Some e
         | None =>
             match Unmarshal_completeMsg env (body_bytes resp) zero_completeMsg with
             | (_, Some e) => Some e
             | (reply, None) =>
                 if Success reply then None else Some (Errorf (ServerReason reply))
             end
         end, n ++ [EvReadAll resp; EvBodyClose resp])
    end.
Proof.
  unfold complete. run.
  destruct (performRequest env u "POST" url (BytesReader blob) false "" h) as [[resp|e] n];
    [|by norm].
  destruct (body_err resp) as [e|]; [by norm|].
  destruct (Unmarshal_completeMsg env (body_bytes resp) zero_completeMsg) as [reply [e|]];
    [by norm|].
  destruct (Success reply); by norm.
Qed.

Lemma complete_posts url blob h :
  completion_posts (snd (complete env u url blob h)) = [(url, blob)].
Proof.
  rewrite complete_run.
  pose proof (performRequest_requests env u completion_post completion_post_on_requests
                "POST" url (BytesReader blob) false "" h) as Hp.
  unfold completion_posts.
  destruct (performRequest env u "POST" url (BytesReader blob) false "" h) as [[resp|e] n];
    cbn [snd] in *; rewrite ?omap_app, Hp; by rewrite withProgress_run.
Qed.

Lemma complete_puts url blob h :
  put_requests (snd (complete env u url blob h)) = [].
Proof.
  rewrite complete_run.
  pose proof (performRequest_requests env u put_request put_request_on_requests
                "POST" url (BytesReader blob) false "" h) as Hp.
  unfold put_requests.
  destruct (performRequest env u "POST" url (BytesReader blob) false "" h) as [[resp|e] n];
    cbn [snd] in *; rewrite ?omap_app, Hp; by rewrite withProgress_run.
Qed.

(** What becomes of the message [complete] makes: when [http.NewRequest]
    refuses the URL, [complete] returns its error and does nothing more;
    else the message is posted, and no other is made. *)
Lemma complete_posting url blob h :
  match NewRequest_err env "POST" url with
  | Some e =>
      complete env u url blob h = (Some e, [EvNewRequest "POST" url (BytesReader blob)])
  | None =>
      exists after,
        snd (complete env u url blob h) = posting u url blob ++ after /\
        completion_posts after = []
  end.
Proof.
  pose proof (complete_posts url blob h) as Hposts.
  rewrite complete_run, performRequest_run, withProgress_run in *.
  destruct (NewRequest_err env "POST" url) as [e|]; [done|].
  cbv zeta in *. cbn [Datatypes.app] in *.
  set (req := {| Method := "POST"; URL := url; Header := []; ReqBody := BytesReader blob |}) in *.
  destruct (client_Do_first env u (SetHTTPHeaders u req)
              (h ++ [EvNewRequest "POST" url (BytesReader blob); EvSetHTTPHeaders req]))
    as [rest Hfirst].
  destruct (client_Do env u _ _) as [[res|e] n1]; cbn [snd] in Hfirst; subst n1.
  - destruct ((StatusCode res =? 200) || (StatusCode res =? 400)); cbn [snd] in *;
      eexists; (split; [unfold posting; fold req; cbn [Datatypes.app]; reflexivity|]);
      cbn in Hposts; by injection Hposts.
  - cbn [snd] in *. eexists. split; [unfold posting; fold req; reflexivity|].
    cbn in Hposts. by injection Hposts.
Qed.

Lemma reportSuccess_run url h :
  reportSuccess env u url h =
    complete env u url
      (fst (Marshal_completeMsg env {| Success := true; Reason := ""; ServerReason := "" |})) h.
Proof. reflexivity. Qed.

Lemma reportFailure_run url reason h :
  reportFailure env u url reason h =
    complete env u url
      (fst (Marshal_completeMsg env
              {| Success := false; Reason := reason; ServerReason := "" |})) h.
Proof. reflexivity. Qed.

End Complete.

(** The error the decoder saves is a type error. *)
Lemma decode_members_error {F S : Type} fold (name : F -> string) fields
    (store : F -> json -> S -> S * option error) :
  (forall f v s s' e, store f v s = (s', Some e) -> exists value type, e = UnmarshalTypeError value type) ->
  forall members s saved s' e,
    decode_members fold name fields store members s saved = (s', Some e) ->
    saved = Some e \/ exists value type, e = UnmarshalTypeError value type.
Proof.
  intros Hstore. induction members as [|[key v] members IH]; intros s saved s' e Hdec.
  - cbn in Hdec. injection Hdec as _ ->. by left.
  - cbn [decode_members] in Hdec.
    destruct (find_field fold name fields key None) as [f|]; [|by apply IH in Hdec].
    destruct (store f v s) as [s1 e1] eqn:Hs.
    apply IH in Hdec. destruct Hdec as [Hsaved|Htype]; [|by right].
    destruct saved as [e0|]; cbn in Hsaved; [by left|].
    subst e1. right. by eapply Hstore.
Qed.

Lemma store_completeField_error f v m m' e :
  store_completeField f v m = (m', Some e) -> exists value type, e = UnmarshalTypeError value type.
Proof.
  destruct f, v; cbn; intros H; simplify_eq; eauto.
Qed.

Lemma store_initiateField_error f v d d' e :
  store_initiateField f v d = (d', Some e) -> exists value type, e = UnmarshalTypeError value type.
Proof.
  destruct f, v; cbn; intros H; simplify_eq; eauto.
Qed.

(** C8.  The completion reporter.  [reportSuccess] and [reportFailure]
    marshal the client's message and hand it to [complete], which makes
    exactly one [POST] with those bytes to the URL.  A failure of the
    transport is returned as it is; so is a failure to read the reply, and
    so is a failure to decode it, which for a reply that parses is a type
    error of the decoder.  A reply that decodes is judged by its [success]
    field alone: [false] fails with the text of [server_reason] as the
    error, [true] succeeds - whatever the client reported, so that a
    rejected report of success fails as well. *)
Theorem completion_reporter (env : Env) (u : Uploader) (url blob : string) (h : list event) :
  reportSuccess env u url h =
    complete env u url
      (fst (Marshal_completeMsg env {| Success := true; Reason := ""; ServerReason := "" |})) h /\
  (forall reason,
     reportFailure env u url reason h =
       complete env u url
         (fst (Marshal_completeMsg env
                 {| Success := false; Reason := reason; ServerReason := "" |})) h) /\
  completion_posts (snd (complete env u url blob h)) = [(url, blob)] /\
  (forall e n,
     performRequest env u "POST" url (BytesReader blob) false "" h = (Err e, n) ->
     complete env u url blob h = (Some e, n)) /\
  (forall resp n,
     performRequest env u "POST" url (BytesReader blob) false "" h = (Ok resp, n) ->
     let events := n ++ [EvReadAll resp; EvBodyClose resp] in
     (forall e, body_err resp = Some e -> complete env u url blob h = (Some e, events)) /\
     (forall reply e,
        body_err resp = None ->
        Unmarshal_completeMsg env (body_bytes resp) zero_completeMsg = (reply, Some e) ->
        complete env u url blob h = (Some e, events) /\
        (json_parse env (body_bytes resp) = Err e \/
         exists value type, e = UnmarshalTypeError value type)) /\
     (forall reply,
        body_err resp = None ->
        Unmarshal_completeMsg env (body_bytes resp) zero_completeMsg = (reply, None) ->
        (Success reply = false ->
         complete env u url blob h = (Some (Errorf (ServerReason reply)), events)) /\
        (Success reply = true -> complete env u url blob h = (None, events))) /\
     (forall success serverReason,
        json_parse env (body_bytes resp)
          = Ok (JObject [("success", JBool success); ("server_reason", JString serverReason)]) ->
        Unmarshal_completeMsg env (body_bytes resp) zero_completeMsg
          = ({| Success := success; Reason := ""; ServerReason := serverReason |}, None))).
Proof.
  split; [reflexivity|]. split; [reflexivity|]. split; [apply complete_posts|].
  split.
  - intros e n Hreq. by rewrite complete_run, Hreq.
  - intros resp n Hreq events. rewrite complete_run, Hreq. fold events.
    split; [|split; [|split]].
    + intros e He. by rewrite He.
    + intros reply e Hread Hdec. rewrite Hread, Hdec. split; [done|].
      unfold Unmarshal_completeMsg, Unmarshal_struct in Hdec.
      destruct (json_parse env (body_bytes resp)) as [v|e0]; [|left; congruence].
      right. destruct v; try (injection Hdec as _ <-; eauto); [discriminate Hdec|].
      apply (decode_members_error _ _ _ _ store_completeField_error) in Hdec.
      by destruct Hdec.
    + intros reply Hread Hdec. rewrite Hread, Hdec. split; by intros ->.
    + intros success serverReason Hparse.
      unfold Unmarshal_completeMsg, Unmarshal_struct. by rewrite Hparse.
Qed.

Lemma completion_reporter_witness :
  let env := Sample.env Sample.manifest ∅
               (fun _ _ _ => Sample.reply 200 Sample.rejected_doc) in
  fst (reportSuccess env (Sample.uploader false) "https://example.com/complete" [])
    = Some (Errorf "signature does not verify") /\
  fst (complete (Sample.env Sample.manifest ∅ (fun _ _ _ => Sample.reply 503 ""))
         (Sample.uploader false) "https://example.com/complete" Sample.success_doc [])
    = Some (Errorf "bad HTTP status code: 503") /\
  fst (complete (Sample.env Sample.manifest ∅ (fun _ _ _ => Sample.reply 200 "[]"))
         (Sample.uploader false) "https://example.com/complete" Sample.success_doc [])
    = Some (UnmarshalTypeError "array" "lib.completeMsg").
Proof.
  intros env. split; [|split].
  - destruct (completion_reporter env (Sample.uploader false) "https://example.com/complete"
                Sample.success_doc [])
      as (Hs & _ & _ & _ & Hok).
    rewrite Hs.
    destruct (Hok {| body_bytes := Sample.rejected_doc; body_err := None |} _ eq_refl)
      as (_ & _ & Hverdict & Hdecode).
    specialize (Hdecode false "signature does not verify" eq_refl).
    destruct (Hverdict _ eq_refl Hdecode) as [Hreject _].
    change (fst (Marshal_completeMsg env _)) with Sample.success_doc.
    by rewrite (Hreject eq_refl).
  - destruct (completion_reporter (Sample.env Sample.manifest ∅ (fun _ _ _ => Sample.reply 503 ""))
                (Sample.uploader false) "https://example.com/complete" Sample.success_doc [])
      as (_ & _ & _ & Herr & _).
    by rewrite (Herr (Errorf "bad HTTP status code: 503") _ eq_refl).
  - destruct (completion_reporter (Sample.env Sample.manifest ∅ (fun _ _ _ => Sample.reply 200 "[]"))
                (Sample.uploader false) "https://example.com/complete" Sample.success_doc [])
      as (_ & _ & _ & _ & Hok).
    destruct (Hok {| body_bytes := "[]"; body_err := None |} _ eq_refl) as (_ & Hdec & _).
    by rewrite (proj1 (Hdec zero_completeMsg (UnmarshalTypeError "array" "lib.completeMsg")
                         eq_refl eq_refl)).
Defined.

(** ** Initiation *)

Section Initiate.

Context (env : Env) (u : Uploader).

(** [initiateUpload], step by step. *)
Lemma initiateUpload_run initurl h :
  initiateUpload env u initurl h =
    match performRequest env u "POST" initurl NilBody false "" (h ++ initiating_lines u) with
    | (Err e, n) => (NoDetails e, initiating_lines u ++ n)
    | (Ok resp, n) =>
        match body_err resp with
        | Some e => (NoDetails e, initiating_lines u ++ n ++ [EvReadAll resp; EvBodyClose resp])
        | None =>
            let decoded := Unmarshal_initiateDetails env (body_bytes resp) zero_initiateDetails in
            (Details (fst decoded) (snd decoded),
             initiating_lines u ++ n ++ [EvReadAll resp] ++ initiated_lines u (fst decoded)
               ++ [EvBodyClose resp])
        end
    end.
Proof.
  unfold initiateUpload, initiating_lines, initiated_lines. run.
  destruct (Debug u); norm.
  - destruct (performRequest env u "POST" initurl NilBody false "" _) as [[resp|e] n];
      [|by norm].
    destruct (body_err resp) as [e|]; [by norm|].
    destruct (Unmarshal_initiateDetails env (body_bytes resp) zero_initiateDetails) as [d e].
    by norm.
  - destruct (performRequest env u "POST" initurl NilBody false "" _) as [[resp|e] n];
      [|by norm].
    destruct (body_err resp) as [e|]; [by norm|].
    destruct (Unmarshal_initiateDetails env (body_bytes resp) zero_initiateDetails) as [d e].
    by norm.
Qed.

Lemma store_initiateField_other f f' v d :
  f <> f' ->
  initiateField_value f' (fst (store_initiateField f v d)) = initiateField_value f' d.
Proof. destruct f, f', v; cbn; congruence. Qed.

Lemma store_initiateField_fits key v d f :
  initiateField_of env key = Some f -> member_fits env (key, v) ->
  snd (store_initiateField f v d) = None.
Proof.
  unfold member_fits. cbn [fst snd]. intros ->.
  destruct f; intros [-> | [x ->]]; reflexivity.
Qed.

(** Members that fit are decoded without error, and a field no member is
    decoded into keeps its value. *)
Lemma decode_members_fits members : forall d saved,
  Forall (member_fits env) members ->
  snd (decode_members (equalFold env) initiateField_name initiateFields store_initiateField
         members d saved) = saved /\
  forall f, field_absent env f members ->
    initiateField_value f
      (fst (decode_members (equalFold env) initiateField_name initiateFields store_initiateField
              members d saved))
    = initiateField_value f d.
Proof.
  induction members as [|[key v] members IH]; intros d saved Hfit; [done|].
  apply Forall_cons in Hfit as [Hkv Hfit]. cbn [decode_members].
  fold (initiateField_of env key).
  destruct (initiateField_of env key) as [f0|] eqn:Hkey.
  - pose proof (store_initiateField_fits key v d f0 Hkey Hkv) as Hnone.
    destruct (store_initiateField f0 v d) as [d' e] eqn:Hstore. cbn [snd] in Hnone. subst e.
    destruct (IH d' (saveError saved None) Hfit) as [Hsaved Hkeep]. split.
    + rewrite Hsaved. by destruct saved.
    + intros f Habs. apply Forall_cons in Habs as [Hne Habs]. cbn [fst] in Hne.
      rewrite (Hkeep f Habs).
      replace d' with (fst (store_initiateField f0 v d)) by (by rewrite Hstore).
      apply store_initiateField_other. congruence.
  - destruct (IH d saved Hfit) as [Hsaved Hkeep]. split; [done|].
    intros f Habs. apply Forall_cons in Habs as [_ Habs]. by apply Hkeep.
Qed.

Lemma member_fits_dec member : member_fits env member \/ ~ member_fits env member.
Proof.
  unfold member_fits. destruct (initiateField_of env (fst member)) as [f|]; [|by left].
  destruct f, (snd member);
    first [ by left; left | by left; right; eexists
          | right; intros [Hnull | [x Hx]]; discriminate ].
Qed.

(** Among members that do not all fit there is a first one that does
    not. *)
Lemma first_misfit members :
  ~ Forall (member_fits env) members ->
  exists fits member rest,
    members = fits ++ member :: rest /\ Forall (member_fits env) fits /\
    ~ member_fits env member.
Proof.
  induction members as [|m members IH]; intros Hnot; [by destruct Hnot|].
  destruct (member_fits_dec m) as [Hm|Hm].
  - destruct IH as (fits & x & rest & -> & Hfits & Hx).
    { intros Hall. apply Hnot. by constructor. }
    exists (m :: fits), x, rest. split; [done|]. split; [by constructor | done].
  - exists [], m, members. by repeat split.
Qed.

Lemma misfit_has_field key v :
  ~ member_fits env (key, v) -> exists f, initiateField_of env key = Some f.
Proof.
  unfold member_fits. cbn [fst]. destruct (initiateField_of env key) as [f|]; [by eexists|].
  intros Hnot. by destruct Hnot.
Qed.

(** A member that does not fit is a type error, naming the kind of the
    value and the type of the field. *)
Lemma store_initiateField_misfit key v d f :
  initiateField_of env key = Some f -> ~ member_fits env (key, v) ->
  snd (store_initiateField f v d)
    = Some (UnmarshalTypeError (json_kind v) (initiateField_type f)).
Proof.
  unfold member_fits. cbn [fst snd]. intros -> Hnot.
  destruct f, v; try reflexivity; exfalso; apply Hnot;
    first [ by left | by right; eexists ].
Qed.

(** An error saved stays the error of the decoder. *)
Lemma decode_members_saved members : forall d e,
  snd (decode_members (equalFold env) initiateField_name initiateFields store_initiateField
         members d (Some e)) = Some e.
Proof.
  induction members as [|[key v] members IH]; intros d e; [done|].
  cbn [decode_members].
  destruct (find_field (equalFold env) initiateField_name initiateFields key None) as [f|];
    [|apply IH].
  destruct (store_initiateField f v d) as [d' e']. apply IH.
Qed.

Lemma decode_members_app fits members : forall d saved,
  decode_members (equalFold env) initiateField_name initiateFields store_initiateField
    (fits ++ members) d saved
  = decode_members (equalFold env) initiateField_name initiateFields store_initiateField
      members
      (fst (decode_members (equalFold env) initiateField_name initiateFields
              store_initiateField fits d saved))
      (snd (decode_members (equalFold env) initiateField_name initiateFields
              store_initiateField fits d saved)).
Proof.
  induction fits as [|[key v] fits IH]; intros d saved; [done|].
  cbn [Datatypes.app decode_members].
  destruct (find_field (equalFold env) initiateField_name initiateFields key None) as [f|];
    [|apply IH].
  destruct (store_initiateField f v d) as [d' e']. apply IH.
Qed.

(** The error of the decoder is the type error of the first member that
    does not fit. *)
Lemma decode_members_misfit fits key v rest f d :
  Forall (member_fits env) fits ->
  initiateField_of env key = Some f -> ~ member_fits env (key, v) ->
  snd (decode_members (equalFold env) initiateField_name initiateFields store_initiateField
         (fits ++ (key, v) :: rest) d None)
    = Some (UnmarshalTypeError (json_kind v) (initiateField_type f)).
Proof.
  intros Hfits Hkey Hnot. rewrite decode_members_app.
  destruct (decode_members_fits fits d None Hfits) as [-> _].
  cbn [decode_members]. fold (initiateField_of env key). rewrite Hkey.
  pose proof (store_initiateField_misfit key v
                (fst (decode_members (equalFold env) initiateField_name initiateFields
                        store_initiateField fits d None)) f Hkey Hnot) as Hstore.
  destruct (store_initiateField f v _) as [d' e']. cbn [snd] in Hstore. subst e'.
  apply decode_members_saved.
Qed.

End Initiate.

(** ** The upload loop *)

Section Loop.

Context (env : Env) (u : Uploader) (initDeets : initiateDetails).

(** The loop, one turn. *)
Lemma uploadLoop_cons part parts h :
  uploadLoop env u initDeets (part :: parts) h =
    match uploadPart env u (url part) (r part) (draw part) (label part) h with
    | (Some err, n1) =>
        let report := reportFailure env u (CompletedURL initDeets) (reason_text part err)
                        (h ++ n1) in
        (Some (surfaced part err (fst report)), n1 ++ snd report)
    | (None, n1) =>
        (fst (uploadLoop env u initDeets parts (h ++ n1)),
         n1 ++ snd (uploadLoop env u initDeets parts (h ++ n1)))
    end.
Proof.
  cbn [uploadLoop]. unfold bind at 1.
  destruct (uploadPart env u (url part) (r part) (draw part) (label part) h) as [[err|] n1].
  - unfold bind, ret. cbn [Error]. fold (reason_text part err).
    destruct (reportFailure env u (CompletedURL initDeets) (reason_text part err) (h ++ n1))
      as [[reportErr|] n2]; cbn [fst snd surfaced]; by rewrite app_nil_r.
  - by destruct (uploadLoop env u initDeets parts (h ++ n1)).
Qed.

(** Parts that upload are passed by the loop. *)
Lemma uploadLoop_uploaded done rest h n_up :
  uploaded env u done h n_up ->
  uploadLoop env u initDeets (done ++ rest) h =
    (fst (uploadLoop env u initDeets rest (h ++ n_up)),
     n_up ++ snd (uploadLoop env u initDeets rest (h ++ n_up))).
Proof.
  induction 1 as [h|part parts h n1 n2 Hpart _ IH].
  - rewrite app_nil_r. cbn [Datatypes.app]. by destruct (uploadLoop env u initDeets rest h).
  - cbn [Datatypes.app]. rewrite uploadLoop_cons, Hpart, IH. cbn [fst snd].
    by rewrite !app_assoc.
Qed.

(** Every run of the loop: some parts upload, and then the list is at its
    end or the next part fails. *)
Lemma uploadLoop_split parts h :
  exists done rest n_up,
    parts = done ++ rest /\ uploaded env u done h n_up /\
    match rest with
    | [] => True
    | part :: _ =>
        exists err,
          fst (uploadPart env u (url part) (r part) (draw part) (label part) (h ++ n_up))
            = Some err
    end.
Proof.
  revert h. induction parts as [|part parts IH]; intros h.
  - exists [], [], []. repeat split. constructor.
  - destruct (uploadPart env u (url part) (r part) (draw part) (label part) h)
      as [[err|] n1] eqn:Hpart.
    + exists [], (part :: parts), []. repeat split; [constructor|].
      exists err. by rewrite app_nil_r, Hpart.
    + destruct (IH (h ++ n1)) as (done & rest & n_up & -> & Hup & Hrest).
      exists (part :: done), rest, (n1 ++ n_up). repeat split.
      * by constructor.
      * destruct rest as [|next rest]; [done|]. by rewrite app_assoc.
Qed.

(** Lines 142-170 when all parts upload. *)
Lemma uploadAndReport_uploaded manblob ascfile acifile h n_up :
  uploaded env u (partsToUpload initDeets manblob ascfile acifile) h n_up ->
  uploadAndReport env u initDeets manblob ascfile acifile h =
    (fst (reportSuccess env u (CompletedURL initDeets) (h ++ n_up)),
     n_up ++ snd (reportSuccess env u (CompletedURL initDeets) (h ++ n_up))).
Proof.
  intros Hup. unfold uploadAndReport, bind, ret.
  pose proof (uploadLoop_uploaded _ [] h n_up Hup) as Hloop.
  rewrite app_nil_r in Hloop. rewrite Hloop. cbn [uploadLoop ret fst snd].
  rewrite app_nil_r.
  destruct (reportSuccess env u (CompletedURL initDeets) (h ++ n_up)) as [[e|] n];
    cbn [fst snd]; by rewrite app_nil_r.
Qed.

(** Lines 142-170 when a part fails. *)
Lemma uploadAndReport_failed manblob ascfile acifile h done part rest n_up err n_fail :
  partsToUpload initDeets manblob ascfile acifile = done ++ part :: rest ->
  uploaded env u done h n_up ->
  uploadPart env u (url part) (r part) (draw part) (label part) (h ++ n_up) = (Some err, n_fail) ->
  let report := reportFailure env u (CompletedURL initDeets) (reason_text part err)
                  (h ++ n_up ++ n_fail) in
  uploadAndReport env u initDeets manblob ascfile acifile h =
    (Some (surfaced part err (fst report)), n_up ++ n_fail ++ snd report).
Proof.
  intros Hparts Hup Hfail report. unfold uploadAndReport, bind, ret.
  rewrite Hparts, (uploadLoop_uploaded _ _ h n_up Hup), uploadLoop_cons, Hfail.
  cbv zeta. cbn [fst snd]. rewrite <- app_assoc. fold report. by rewrite !app_nil_r.
Qed.

End Loop.

Section LoopRequests.

Context (env : Env) (u : Uploader).

Lemma withProgress_source b draw label h b' :
  fst (withProgress env u b draw label h) = Ok b' -> source_of b' = source_of b.
Proof.
  rewrite withProgress_run. destruct b as [| |f|]; try (by intros [= <-]).
  destruct (draw && Debug u)%bool; [|by intros [= <-]].
  cbn [fst]. destruct (File_Stat env f); [|done]. by intros [= <-].
Qed.

Lemma uploadPart_ok_puts url b draw label h n :
  uploadPart env u url b draw label h = (None, n) ->
  map put_source (put_requests n) = [(url, source_of b)].
Proof.
  intros Hpart. pose proof (uploadPart_puts env u url b draw label h) as Hputs.
  rewrite Hpart in Hputs. cbn [snd] in Hputs. rewrite Hputs.
  pose proof (withProgress_source b draw label h) as Hsrc.
  rewrite uploadPart_run, performRequest_run in Hpart.
  destruct (withProgress env u b draw label h) as [[b'|e] n0]; cbn [fst] in *; [|done].
  cbn. unfold put_source. cbn [fst snd]. by rewrite (Hsrc b' eq_refl).
Qed.

Lemma uploadPart_failed_puts url b draw label h err n :
  uploadPart env u url b draw label h = (Some err, n) ->
  map put_source (put_requests n) = [] \/
  map put_source (put_requests n) = [(url, source_of b)].
Proof.
  intros Hpart. pose proof (uploadPart_puts env u url b draw label h) as Hputs.
  rewrite Hpart in Hputs. cbn [snd] in Hputs. rewrite Hputs.
  pose proof (withProgress_source b draw label h) as Hsrc.
  destruct (fst (withProgress env u b draw label h)) as [b'|e]; [right|by left].
  cbn. unfold put_source. cbn [fst snd]. by rewrite (Hsrc b' eq_refl).
Qed.

Lemma put_requests_app l1 l2 : put_requests (l1 ++ l2) = put_requests l1 ++ put_requests l2.
Proof. apply omap_app. Qed.

Lemma completion_posts_app l1 l2 :
  completion_posts (l1 ++ l2) = completion_posts l1 ++ completion_posts l2.
Proof. apply omap_app. Qed.

Lemma uploaded_puts done h n :
  uploaded env u done h n ->
  map put_source (put_requests n) = map (fun part => (url part, source_of (r part))) done.
Proof.
  induction 1 as [h|part parts h n1 n2 Hpart _ IH]; [done|].
  rewrite put_requests_app, map_app, IH, (uploadPart_ok_puts _ _ _ _ _ _ Hpart). done.
Qed.

Lemma uploaded_no_completion done h n :
  uploaded env u done h n -> completion_posts n = [].
Proof.
  induction 1 as [h|part parts h n1 n2 Hpart _ IH]; [done|].
  rewrite completion_posts_app, IH, app_nil_r.
  pose proof (uploadPart_no_completion env u (url part) (r part) (draw part) (label part) h) as Hc.
  by rewrite Hpart in Hc.
Qed.

(** The uploads of a run are those of one list of parts only. *)
Lemma uploaded_unique parts h n n' :
  uploaded env u parts h n -> uploaded env u parts h n' -> n = n'.
Proof.
  intros Hup. revert n'. induction Hup as [h|part parts h n1 n2 Hpart _ IH]; intros n' Hup'.
  - by inversion Hup'.
  - inversion Hup' as [|? ? ? n1' n2' Hpart' Hrest]; subst.
    rewrite Hpart in Hpart'. injection Hpart' as <-. f_equal. by apply IH.
Qed.

Lemma reportFailure_posts url reason h :
  completion_posts (snd (reportFailure env u url reason h))
    = [(url, fst (Marshal_completeMsg env
                    {| Success := false; Reason := reason; ServerReason := "" |}))] /\
  put_requests (snd (reportFailure env u url reason h)) = [].
Proof. rewrite reportFailure_run. split; [apply complete_posts | apply complete_puts]. Qed.

Lemma reportSuccess_posts url h :
  completion_posts (snd (reportSuccess env u url h))
    = [(url, fst (Marshal_completeMsg env
                    {| Success := true; Reason := ""; ServerReason := "" |}))] /\
  put_requests (snd (reportSuccess env u url h)) = [].
Proof. rewrite reportSuccess_run. split; [apply complete_posts | apply complete_puts]. Qed.

End LoopRequests.

Section BeforeUpload.

Context (env : Env) (u : Uploader).
Context {A : Type} (f : event -> option A) (Hf : on_requests f).
Context (Hinit : forall url, f (EvNewRequest "POST" url NilBody) = None).

Lemma omap_cons_quiet e l : is_NewRequest e = false -> omap f (e :: l) = omap f l.
Proof. intros He. cbn. by rewrite (Hf e He). Qed.

Lemma stderr_attempts_requests attempts h :
  omap f (snd (stderr_attempts attempts h)) = [].
Proof.
  revert h. induction attempts as [|[prefix err] attempts IH]; intros h; [done|].
  cbn [stderr_attempts]. run.
  specialize (IH (h ++ [EvStderr (TrimSuffix_newline
    ("meta tag 'ac-push-discovery' not found on " +:+ prefix +:+ ": " +:+ Error err))])).
  destruct (stderr_attempts attempts _) as [[] n]. cbn [snd Datatypes.app] in *.
  by rewrite omap_cons_quiet.
Qed.

Lemma getInitiationURL_requests app h :
  omap f (snd (getInitiationURL env u app h)) = [].
Proof.
  unfold getInitiationURL. run.
  destruct (DiscoverEndpoints env app (Insecure u)) as [[eps attempts] err].
  destruct (Debug u); norm.
  - pose proof (stderr_attempts_requests attempts
                  (h ++ [EvStderr (TrimSuffix_newline "searching for push endpoint via meta discovery");
                         EvDiscover app (Insecure u)])) as Hs.
    destruct (stderr_attempts attempts _) as [[] n]. cbn [snd] in Hs.
    destruct err as [e|]; [|destruct eps as [|ep eps]]; norm; cbn [snd];
      rewrite !omap_cons_quiet by done; rewrite ?omap_app, Hs; [done | done |].
    by rewrite omap_cons_quiet.
  - destruct err as [e|]; [|destruct eps as [|ep eps]]; norm; cbn [snd];
      by rewrite !omap_cons_quiet.
Qed.

Lemma initiateUpload_requests initurl h :
  omap f (snd (initiateUpload env u initurl h)) = [].
Proof.
  rewrite initiateUpload_run.
  pose proof (performRequest_requests env u f Hf "POST" initurl NilBody false ""
                (h ++ initiating_lines u)) as Hp.
  rewrite withProgress_run in Hp. cbn [fst] in Hp.
  replace (omap f [EvNewRequest "POST" initurl NilBody]) with (@nil A) in Hp
    by (cbn; by rewrite Hinit).
  assert (Hlines : omap f (initiating_lines u) = [])
    by (unfold initiating_lines; destruct (Debug u); cbn; by rewrite ?Hf).
  assert (Hlines' : forall d, omap f (initiated_lines u d) = [])
    by (intros d; unfold initiated_lines; destruct (Debug u); cbn; by rewrite ?Hf).
  destruct (performRequest env u "POST" initurl NilBody false "" _) as [[resp|e] n];
    cbn [snd] in *.
  - destruct (body_err resp); cbv zeta; cbn [snd];
      rewrite !omap_app, ?Hlines, ?Hlines', Hp; cbn; by rewrite ?Hf.
  - by rewrite omap_app, Hlines, Hp.
Qed.

(** Nothing before the upload loop makes a request that [f] sees. *)
Lemma negotiate_requests acifile ascfile h :
  omap f (snd (negotiate env u acifile ascfile h)) = [].
Proof.
  unfold negotiate. run.
  destruct (ManifestFromImage env acifile) as [manifest|e]; [|norm; cbn; by rewrite Hf].
  destruct (NewAppFromString env (Uri u)) as [app|e]; [|norm; cbn; by rewrite Hf].
  destruct (resolveLabels env manifest (App_Labels app)) as [labels|e];
    [|norm; cbn; by rewrite Hf].
  destruct (File_Seek env acifile) as [e|]; [norm; cbn; by rewrite !Hf|].
  destruct (MarshalJSON env manifest) as [manblob|e]; [|norm; cbn; by rewrite !Hf]. norm.
  pose proof (getInitiationURL_requests {| App_Name := App_Name app; App_Labels := labels |}
                (h ++ [EvManifestFromImage acifile; EvSeek acifile])) as Hg.
  destruct (getInitiationURL env u _ _) as [[initurl|e] n]; cbn [snd] in Hg; norm.
  - pose proof (initiateUpload_requests initurl
                  (h ++ EvManifestFromImage acifile :: EvSeek acifile :: n)) as Hi.
    destruct (initiateUpload env u initurl _) as [i n']. cbn [snd] in Hi.
    destruct i as [e|d [e|]]; norm; cbn [snd];
      rewrite !omap_cons_quiet by done; by rewrite omap_app, Hg, Hi.
  - cbn [snd]. by rewrite !omap_cons_quiet.
Qed.

End BeforeUpload.

Section Sessions.

Context (env : Env) (u : Uploader).

Lemma negotiate_posts acifile ascfile h :
  completion_posts (snd (negotiate env u acifile ascfile h)) = [].
Proof. by apply negotiate_requests; [apply completion_post_on_requests|]. Qed.

Lemma negotiate_puts acifile ascfile h :
  put_requests (snd (negotiate env u acifile ascfile h)) = [].
Proof. by apply negotiate_requests; [apply put_request_on_requests|]. Qed.

(** A session that gets past the initiation: [Upload] is lines 142-170
    between what came before and the closing of the files. *)
Lemma Upload_session h acifile ascfile manblob initDeets n :
  os_Open env (Acipath u) = Ok acifile ->
  os_Open env (Ascpath u) = Ok ascfile ->
  negotiate env u acifile ascfile (h ++ [EvOpen (Acipath u); EvOpen (Ascpath u)])
    = (Ok (manblob, initDeets), n) ->
  let session := uploadAndReport env u initDeets manblob ascfile acifile
                   (h ++ [EvOpen (Acipath u); EvOpen (Ascpath u)] ++ n) in
  Upload env u h =
    (fst session,
     [EvOpen (Acipath u); EvOpen (Ascpath u)] ++ n ++ snd session
       ++ [EvFileClose ascfile; EvFileClose acifile]) /\
  completion_posts (snd (Upload env u h)) = completion_posts (snd session) /\
  put_requests (snd (Upload env u h)) = put_requests (snd session).
Proof.
  intros Ho Ho' Hneg session.
  pose proof (negotiate_posts acifile ascfile (h ++ [EvOpen (Acipath u); EvOpen (Ascpath u)]))
    as Hposts.
  pose proof (negotiate_puts acifile ascfile (h ++ [EvOpen (Acipath u); EvOpen (Ascpath u)]))
    as Hputs.
  rewrite (Upload_opened env u h _ _ Ho Ho'), (Upload_files_initiated env u _ _ _ _ _ _ Hneg).
  rewrite Hneg in *. cbn [fst snd] in *. rewrite <- !app_assoc. fold session.
  split; [done|]. split.
  - cbn [Datatypes.app]. change (completion_posts (?a :: ?b :: ?l)) with (completion_posts l).
    rewrite !completion_posts_app, Hposts. cbn. by rewrite app_nil_r.
  - cbn [Datatypes.app]. change (put_requests (?a :: ?b :: ?l)) with (put_requests l).
    rewrite !put_requests_app, Hputs. cbn. by rewrite app_nil_r.
Qed.

(** A session that does not get past the initiation uploads nothing. *)
Lemma Upload_not_initiated h acifile ascfile e n :
  os_Open env (Acipath u) = Ok acifile ->
  os_Open env (Ascpath u) = Ok ascfile ->
  negotiate env u acifile ascfile (h ++ [EvOpen (Acipath u); EvOpen (Ascpath u)])
    = (Err e, n) ->
  fst (Upload env u h) = Some e /\
  completion_posts (snd (Upload env u h)) = [] /\
  put_requests (snd (Upload env u h)) = [].
Proof.
  intros Ho Ho' Hneg.
  pose proof (negotiate_posts acifile ascfile (h ++ [EvOpen (Acipath u); EvOpen (Ascpath u)]))
    as Hposts.
  pose proof (negotiate_puts acifile ascfile (h ++ [EvOpen (Acipath u); EvOpen (Ascpath u)]))
    as Hputs.
  rewrite (Upload_opened env u h _ _ Ho Ho'), (Upload_files_fail env u _ _ _ _ _ Hneg).
  rewrite Hneg in *. cbn [fst snd] in *. split; [done|]. split.
  - cbn [Datatypes.app]. change (completion_posts (?a :: ?b :: ?l)) with (completion_posts l).
    by rewrite completion_posts_app, Hposts.
  - cbn [Datatypes.app]. change (put_requests (?a :: ?b :: ?l)) with (put_requests l).
    by rewrite put_requests_app, Hputs.
Qed.

End Sessions.

(** ** Order of the parts, and what a failing part leads to *)

Lemma parts_sources initDeets manblob ascfile acifile done rest :
  partsToUpload initDeets manblob ascfile acifile = done ++ rest ->
  map (fun part => (url part, source_of (r part))) done
    = map (fun part => (url part, r part)) done.
Proof.
  intros Hparts. apply map_ext_Forall.
  assert (Hall : Forall (fun part => (url part, source_of (r part)) = (url part, r part))
                   (partsToUpload initDeets manblob ascfile acifile))
    by (repeat constructor).
  rewrite Hparts in Hall. by apply Forall_app in Hall as [Hdone _].
Qed.

(** C7.  Order of the parts.  The parts are the manifest, the signature
    and the image, in this order.  Once the initiation has succeeded the
    session uploads a first stretch of them, one after the other and each
    with success; then either all three are done and only the report
    follows, or the next part fails, and after it nothing but the failure
    report happens: no later part is tried.  So the [PUT] requests of
    lines 142-170 are those of the first [k] parts, in order, each once
    and each from the reader of its part; they are all the [PUT] requests
    of the session, and a session that fails before the initiation makes
    none. *)
Theorem part_order (env : Env) (u : Uploader) (initDeets : initiateDetails) (manblob : string)
    (ascfile acifile : File) (h : list event) :
  let parts := partsToUpload initDeets manblob ascfile acifile in
  let events := snd (uploadAndReport env u initDeets manblob ascfile acifile h) in
  map label parts = ["manifest"; "signature"; "ACI"] /\
  map (fun part => (url part, r part)) parts
    = [(ManifestURL initDeets, BytesReader manblob); (SignatureURL initDeets, FileBody ascfile);
       (ACIURL initDeets, FileBody acifile)] /\
  (exists done rest n_up n_rest,
    parts = done ++ rest /\ uploaded env u done h n_up /\ events = n_up ++ n_rest /\
    match rest with
    | [] =>
        put_requests n_rest = [] /\
        map put_source (put_requests events) = map (fun part => (url part, r part)) parts
    | part :: _ =>
        exists err n_fail n_report,
          uploadPart env u (url part) (r part) (draw part) (label part) (h ++ n_up)
            = (Some err, n_fail) /\
          n_rest = n_fail ++ n_report /\ put_requests n_report = [] /\
          (map put_source (put_requests events) = map (fun part => (url part, r part)) done \/
           map put_source (put_requests events)
             = map (fun part => (url part, r part)) (done ++ [part]))
    end) /\
  (forall h0 n,
     os_Open env (Acipath u) = Ok acifile ->
     os_Open env (Ascpath u) = Ok ascfile ->
     negotiate env u acifile ascfile (h0 ++ [EvOpen (Acipath u); EvOpen (Ascpath u)])
       = (Ok (manblob, initDeets), n) ->
     h = h0 ++ [EvOpen (Acipath u); EvOpen (Ascpath u)] ++ n ->
     put_requests (snd (Upload env u h0)) = put_requests events) /\
  (forall h0,
     (forall e, os_Open env (Acipath u) = Err e -> put_requests (snd (Upload env u h0)) = []) /\
     (forall file e,
        os_Open env (Acipath u) = Ok file -> os_Open env (Ascpath u) = Err e ->
        put_requests (snd (Upload env u h0)) = []) /\
     (forall file file' e n,
        os_Open env (Acipath u) = Ok file -> os_Open env (Ascpath u) = Ok file' ->
        negotiate env u file file' (h0 ++ [EvOpen (Acipath u); EvOpen (Ascpath u)]) = (Err e, n) ->
        put_requests (snd (Upload env u h0)) = [])).
Proof.
  intros parts events. split; [reflexivity|]. split; [reflexivity|].
  split; [|split].
  2: { intros h0 n Ho Ho' Hneg ->.
       by destruct (Upload_session env u h0 _ _ _ _ _ Ho Ho' Hneg) as (_ & _ & ->). }
  2: { intros h0. split; [|split].
       - intros e Ho. by rewrite (Upload_open_aci_fail env u h0 e Ho).
       - intros file e Ho Ho'. by rewrite (Upload_open_asc_fail env u h0 file e Ho Ho').
       - intros file file' e n Ho Ho' Hneg.
         by destruct (Upload_not_initiated env u h0 _ _ _ _ Ho Ho' Hneg) as (_ & _ & ->). }
  destruct (uploadLoop_split env u parts h) as (done & rest & n_up & Hparts & Hup & Hrest).
  pose proof (uploaded_puts env u done h n_up Hup) as Hputs.
  rewrite (parts_sources _ _ _ _ _ _ Hparts) in Hputs.
  exists done, rest, n_up. destruct rest as [|part rest].
  - rewrite app_nil_r in Hparts. subst done.
    exists (snd (reportSuccess env u (CompletedURL initDeets) (h ++ n_up))).
    unfold events. rewrite (uploadAndReport_uploaded env u initDeets _ _ _ h n_up Hup).
    cbn [snd]. destruct (reportSuccess_posts env u (CompletedURL initDeets) (h ++ n_up))
      as [_ Hnone].
    repeat split; [done | done |].
    by rewrite put_requests_app, Hnone, app_nil_r.
  - destruct Hrest as [err Herr].
    destruct (uploadPart env u (url part) (r part) (draw part) (label part) (h ++ n_up))
      as [res n_fail] eqn:Hfail. cbn [fst] in Herr. subst res.
    pose proof (uploadAndReport_failed env u initDeets manblob ascfile acifile h done part rest
                  n_up err n_fail Hparts Hup Hfail) as Hrun.
    cbv zeta in Hrun.
    destruct (reportFailure_posts env u (CompletedURL initDeets) (reason_text part err)
                (h ++ n_up ++ n_fail)) as [_ Hnone].
    exists (n_fail ++ snd (reportFailure env u (CompletedURL initDeets) (reason_text part err)
                             (h ++ n_up ++ n_fail))).
    unfold events. rewrite Hrun. cbn [snd]. repeat split; [done..|].
    exists err, n_fail, (snd (reportFailure env u (CompletedURL initDeets)
                                (reason_text part err) (h ++ n_up ++ n_fail))).
    repeat split; [done|].
    rewrite !put_requests_app, Hnone, app_nil_r, !map_app, Hputs.
    assert (Hsrc : source_of (r part) = r part).
    { assert (Hin : In part (partsToUpload initDeets manblob ascfile acifile)).
      { fold parts. rewrite Hparts. apply in_or_app. right. by left. }
      destruct Hin as [<-|[<-|[<-|[]]]]; reflexivity. }
    destruct (uploadPart_failed_puts env u _ _ _ _ _ _ _ Hfail) as [-> | ->].
    + left. by rewrite app_nil_r.
    + right. cbn [map]. by rewrite Hsrc.
Qed.

Lemma part_order_witness :
  let env := Sample.env Sample.manifest ∅
               (Sample.failing_server "https://example.com/signature" 500) in
  let n := snd (negotiate env (Sample.uploader false) Sample.acifile Sample.ascfile
                  ([] ++ [EvOpen "app.aci"; EvOpen "app.aci.asc"])) in
  put_requests (snd (Upload env (Sample.uploader false) []))
    = put_requests
        (snd (uploadAndReport env (Sample.uploader false) Sample.deets Sample.manifest_doc
                Sample.ascfile Sample.acifile
                ([] ++ [EvOpen "app.aci"; EvOpen "app.aci.asc"] ++ n))).
Proof.
  intros env n.
  apply (proj1 (proj2 (proj2 (proj2
           (part_order env (Sample.uploader false) Sample.deets Sample.manifest_doc
              Sample.ascfile Sample.acifile
              ([] ++ [EvOpen "app.aci"; EvOpen "app.aci.asc"] ++ n))))) [] n);
    reflexivity.
Defined.

(** The one completion message of a session in which a part fails. *)
Lemma failed_session_posts (env : Env) (u : Uploader) (initDeets : initiateDetails)
    (manblob : string) (ascfile acifile : File) (h : list event)
    (done : list partToUpload) (part : partToUpload) (rest : list partToUpload)
    (n_up n_fail : list event) (err : error) :
  partsToUpload initDeets manblob ascfile acifile = done ++ part :: rest ->
  uploaded env u done h n_up ->
  uploadPart env u (url part) (r part) (draw part) (label part) (h ++ n_up)
    = (Some err, n_fail) ->
  completion_posts (snd (uploadAndReport env u initDeets manblob ascfile acifile h))
    = [(CompletedURL initDeets,
        fst (Marshal_completeMsg env
               {| Success := false; Reason := reason_text part err; ServerReason := "" |}))].
Proof.
  intros Hparts Hup Hfail.
  rewrite (uploadAndReport_failed env u initDeets manblob ascfile acifile h done part rest
             n_up err n_fail Hparts Hup Hfail).
  cbv zeta. cbn [snd].
  destruct (reportFailure_posts env u (CompletedURL initDeets) (reason_text part err)
              (h ++ n_up ++ n_fail)) as [Hpost _].
  rewrite !completion_posts_app, Hpost, (uploaded_no_completion env u done h n_up Hup).
  pose proof (uploadPart_no_completion env u (url part) (r part) (draw part) (label part)
                (h ++ n_up)) as Hc.
  rewrite Hfail in Hc. cbn [snd] in Hc. by rewrite Hc.
Qed.

(** C3.  A failing part.  When, after the initiation, the parts before
    [part] have uploaded and the upload of [part] fails with [err], the
    session makes one failure report, with the reason "error uploading
    <label>: <err>", and nothing else: the part is not sent again and no
    second report is made.  If the report fails with [reportErr] the
    session returns one error whose text has both [err] and [reportErr];
    if the report succeeds it returns the error whose text is the
    reason.  What lines 142-170 return is what [Upload] returns. *)
Theorem failure_report (env : Env) (u : Uploader) (initDeets : initiateDetails)
    (manblob : string) (ascfile acifile : File) (h : list event)
    (done : list partToUpload) (part : partToUpload) (rest : list partToUpload)
    (n_up n_fail : list event) (err : error) :
  partsToUpload initDeets manblob ascfile acifile = done ++ part :: rest ->
  uploaded env u done h n_up ->
  uploadPart env u (url part) (r part) (draw part) (label part) (h ++ n_up)
    = (Some err, n_fail) ->
  let reason := "error uploading " +:+ label part +:+ ": " +:+ Error err in
  let report := reportFailure env u (CompletedURL initDeets) reason (h ++ n_up ++ n_fail) in
  let session := uploadAndReport env u initDeets manblob ascfile acifile h in
  snd session = n_up ++ n_fail ++ snd report /\
  completion_posts (snd session)
    = [(CompletedURL initDeets,
        fst (Marshal_completeMsg env
               {| Success := false; Reason := reason; ServerReason := "" |}))] /\
  put_requests (snd session) = put_requests n_up ++ put_requests n_fail /\
  (length (put_requests n_fail) <= 1)%nat /\
  (forall reportErr,
     fst report = Some reportErr ->
     fst session
       = Some (Errorf ("error uploading " +:+ label part +:+ " and error reporting failure: "
                       +:+ Error err +:+ ", " +:+ Error reportErr))) /\
  (fst report = None -> fst session = Some (Errorf reason)) /\
  (forall h0 n,
     os_Open env (Acipath u) = Ok acifile ->
     os_Open env (Ascpath u) = Ok ascfile ->
     negotiate env u acifile ascfile (h0 ++ [EvOpen (Acipath u); EvOpen (Ascpath u)])
       = (Ok (manblob, initDeets), n) ->
     h = h0 ++ [EvOpen (Acipath u); EvOpen (Ascpath u)] ++ n ->
     fst (Upload env u h0) = fst session /\
     completion_posts (snd (Upload env u h0)) = completion_posts (snd session) /\
     put_requests (snd (Upload env u h0)) = put_requests (snd session)).
Proof.
  intros Hparts Hup Hfail reason report session.
  assert (Hsession : forall h0 n,
     os_Open env (Acipath u) = Ok acifile ->
     os_Open env (Ascpath u) = Ok ascfile ->
     negotiate env u acifile ascfile (h0 ++ [EvOpen (Acipath u); EvOpen (Ascpath u)])
       = (Ok (manblob, initDeets), n) ->
     h = h0 ++ [EvOpen (Acipath u); EvOpen (Ascpath u)] ++ n ->
     fst (Upload env u h0) = fst session /\
     completion_posts (snd (Upload env u h0)) = completion_posts (snd session) /\
     put_requests (snd (Upload env u h0)) = put_requests (snd session)).
  { intros h0 n Ho Ho' Hneg Hh. unfold session. rewrite Hh.
    destruct (Upload_session env u h0 _ _ _ _ _ Ho Ho' Hneg) as (-> & -> & ->). done. }
  pose proof (uploadAndReport_failed env u initDeets manblob ascfile acifile h done part rest
                n_up err n_fail Hparts Hup Hfail) as Hrun.
  cbv zeta in Hrun. fold reason in Hrun. unfold reason_text in Hrun. fold reason report in Hrun.
  fold session in Hrun.
  destruct (reportFailure_posts env u (CompletedURL initDeets) reason (h ++ n_up ++ n_fail))
    as [Hpost Hnone]. fold report in Hpost, Hnone.
  split; [by rewrite Hrun|]. split; [|split; [|split; [|split; [|split]]]].
  - pose proof (failed_session_posts env u initDeets manblob ascfile acifile h done part rest
                  n_up n_fail err Hparts Hup Hfail) as Hposts.
    unfold reason_text in Hposts. by fold reason in Hposts.
  - rewrite Hrun. cbn [snd]. by rewrite !put_requests_app, Hnone, app_nil_r.
  - pose proof (uploadPart_puts env u (url part) (r part) (draw part) (label part) (h ++ n_up))
      as Hp.
    rewrite Hfail in Hp. cbn [snd] in Hp. rewrite Hp.
    destruct (fst (withProgress env u _ _ _ _)); cbn; lia.
  - intros reportErr Hrep. by rewrite Hrun, Hrep.
  - intros Hrep. by rewrite Hrun, Hrep.
  - exact Hsession.
Qed.

Lemma failure_report_witness :
  let env := Sample.env Sample.manifest ∅
               (Sample.failing_server "https://example.com/signature" 500) in
  let session := uploadAndReport env (Sample.uploader false) Sample.deets Sample.manifest_doc
                   Sample.ascfile Sample.acifile [] in
  fst session = Some (Errorf "error uploading signature: bad HTTP status code: 500") /\
  completion_posts (snd session)
    = [("https://example.com/complete",
        fst (Marshal_completeMsg env
               {| Success := false;
                  Reason := "error uploading signature: bad HTTP status code: 500";
                  ServerReason := "" |}))].
Proof.
  intros env session.
  pose (manifest_part := {| label := "manifest"; url := "https://example.com/manifest";
                            r := BytesReader Sample.manifest_doc; draw := false |}).
  pose (signature_part := {| label := "signature"; url := "https://example.com/signature";
                             r := FileBody Sample.ascfile; draw := true |}).
  pose (aci_part := {| label := "ACI"; url := "https://example.com/aci";
                       r := FileBody Sample.acifile; draw := true |}).
  pose (n_manifest := snd (uploadPart env (Sample.uploader false) (url manifest_part)
                             (r manifest_part) (draw manifest_part) (label manifest_part) [])).
  assert (Hup : uploaded env (Sample.uploader false) [manifest_part] [] (n_manifest ++ [])).
  { apply uploaded_cons; [reflexivity | apply uploaded_nil]. }
  destruct (failure_report env (Sample.uploader false) Sample.deets Sample.manifest_doc
              Sample.ascfile Sample.acifile [] [manifest_part] signature_part [aci_part]
              (n_manifest ++ [])
              (snd (uploadPart env (Sample.uploader false) (url signature_part)
                      (r signature_part) (draw signature_part) (label signature_part)
                      ([] ++ n_manifest ++ [])))
              (Errorf "bad HTTP status code: 500") eq_refl Hup eq_refl)
    as (_ & Hposts & _ & _ & _ & Hreason & _).
  split; [exact (Hreason eq_refl) | exact Hposts].
Defined.

(** ** One completion message *)

Lemma uploaded_app_inv env u done rest h n :
  uploaded env u (done ++ rest) h n ->
  exists n1 n2, uploaded env u done h n1 /\ uploaded env u rest (h ++ n1) n2 /\ n = n1 ++ n2.
Proof.
  revert h n. induction done as [|part done IH]; intros h n Hup.
  - exists [], n. rewrite app_nil_r. repeat split; [constructor | done].
  - cbn [Datatypes.app] in Hup. inversion Hup as [|? ? ? n1 n2 Hpart Hrest]; subst.
    destruct (IH _ _ Hrest) as (m1 & m2 & Hdone & Hrest' & ->).
    exists (n1 ++ m1), m2. split; [by constructor|]. split.
    + by rewrite app_assoc.
    + by rewrite app_assoc.
Qed.

Lemma negotiate_errors env u acifile ascfile h e n :
  negotiate env u acifile ascfile h = (Err e, n) ->
  ManifestFromImage env acifile = Err e \/
  NewAppFromString env (Uri u) = Err e \/
  (exists manifest app,
     ManifestFromImage env acifile = Ok manifest /\ NewAppFromString env (Uri u) = Ok app /\
     resolveLabels env manifest (App_Labels app) = Err e) \/
  File_Seek env acifile = Some e \/
  (exists manifest, ManifestFromImage env acifile = Ok manifest /\
                    MarshalJSON env manifest = Err e) \/
  (exists app h', fst (getInitiationURL env u app h') = Err e) \/
  (exists initurl h',
     fst (initiateUpload env u initurl h') = NoDetails e \/
     exists deets, fst (initiateUpload env u initurl h') = Details deets (Some e)).
Proof.
  unfold negotiate. run.
  destruct (ManifestFromImage env acifile) as [manifest|e0] eqn:Hm;
    [|norm; intros [= <- _]; auto].
  destruct (NewAppFromString env (Uri u)) as [app|e0] eqn:Ha;
    [|norm; intros [= <- _]; auto].
  destruct (resolveLabels env manifest (App_Labels app)) as [labels|e0] eqn:Hl;
    [|norm; intros [= <- _]; right; right; left; eauto].
  destruct (File_Seek env acifile) as [e0|] eqn:Hs; [norm; intros [= <- _]; auto 6|].
  destruct (MarshalJSON env manifest) as [manblob|e0] eqn:Hj;
    [|norm; intros [= <- _]; do 4 right; left; eauto].
  norm.
  destruct (getInitiationURL env u _ _) as [[initurl|e0] n0] eqn:Hg;
    [|norm; intros [= <- _]; do 5 right; left; do 2 eexists; by rewrite Hg].
  norm.
  destruct (initiateUpload env u initurl _) as [i n1] eqn:Hi.
  destruct i as [e0|d [e0|]]; norm; intros [= <- _]; do 6 right; do 2 eexists.
  - left. by rewrite Hi.
  - right. eexists. by rewrite Hi.
Qed.

(** The session around the one call of [complete]: the message is
    posted when [http.NewRequest] accepts the completion URL, and else
    only the files are closed after it. *)
Lemma Upload_posting env u h acifile ascfile manblob initDeets n pre blob h' :
  os_Open env (Acipath u) = Ok acifile ->
  os_Open env (Ascpath u) = Ok ascfile ->
  negotiate env u acifile ascfile (h ++ [EvOpen (Acipath u); EvOpen (Ascpath u)])
    = (Ok (manblob, initDeets), n) ->
  snd (uploadAndReport env u initDeets manblob ascfile acifile
         (h ++ [EvOpen (Acipath u); EvOpen (Ascpath u)] ++ n))
    = pre ++ snd (complete env u (CompletedURL initDeets) blob h') ->
  completion_posts pre = [] ->
  match NewRequest_err env "POST" (CompletedURL initDeets) with
  | None =>
      exists before after,
        snd (Upload env u h) = before ++ posting u (CompletedURL initDeets) blob ++ after /\
        completion_posts before = [] /\ completion_posts after = []
  | Some e =>
      exists before,
        snd (Upload env u h)
          = before ++ [EvNewRequest "POST" (CompletedURL initDeets) (BytesReader blob);
                       EvFileClose ascfile; EvFileClose acifile] /\
        completion_posts before = [] /\
        fst (complete env u (CompletedURL initDeets) blob h') = Some e
  end.
Proof.
  intros Ho Ho' Hneg Hsession Hpre.
  destruct (Upload_session env u h _ _ _ _ _ Ho Ho' Hneg) as (-> & _ & _). cbn [snd].
  rewrite Hsession.
  pose proof (negotiate_posts env u acifile ascfile
                (h ++ [EvOpen (Acipath u); EvOpen (Ascpath u)])) as Hn.
  rewrite Hneg in Hn. cbn [snd] in Hn.
  pose proof (complete_posting env u (CompletedURL initDeets) blob h') as Hc.
  destruct (NewRequest_err env "POST" (CompletedURL initDeets)) as [e|].
  - rewrite Hc. cbn [fst snd].
    exists ([EvOpen (Acipath u); EvOpen (Ascpath u)] ++ n ++ pre). split.
    + by rewrite <- !app_assoc.
    + split; [|done]. rewrite !completion_posts_app, Hn, Hpre. done.
  - destruct Hc as (after & -> & Hafter).
    exists ([EvOpen (Acipath u); EvOpen (Ascpath u)] ++ n ++ pre),
           (after ++ [EvFileClose ascfile; EvFileClose acifile]).
    split; [by rewrite <- !app_assoc|]. split.
    + rewrite !completion_posts_app, Hn, Hpre. done.
    + by rewrite completion_posts_app, Hafter.
Qed.

(** C1, as stated, fails: the server answers the initiation with a
    completion URL that does not parse, [":bad"].  The initiation
    succeeds and the three parts upload, the message of success is made,
    and [http.NewRequest] refuses the URL: the only requests the auth hook
    and the transport see are the initiation and the three parts, no
    request to the completion URL is handed to the transport, and
    [Upload] returns the error of [url.Parse]. *)
Lemma completion_exactly_once_counterexample :
  let env := SampleOdd.env SampleOdd.initiate_doc in
  let u := Sample.uploader false in
  let run := Upload env u [] in
  fst (negotiate env u Sample.acifile Sample.ascfile [EvOpen "app.aci"; EvOpen "app.aci.asc"])
    = Ok (Sample.manifest_doc, SampleOdd.deets) /\
  put_requests (snd run)
    = [("https://example.com/manifest", BytesReader Sample.manifest_doc);
       ("https://example.com/signature", FileBody Sample.ascfile);
       ("https://example.com/aci", FileBody Sample.acifile)] /\
  completion_posts (snd run) = [(":bad", Sample.success_doc)] /\
  map URL (hooked_requests (snd run))
    = ["https://example.com/push"; "https://example.com/manifest";
       "https://example.com/signature"; "https://example.com/aci"] /\
  map URL (wire_requests (snd run))
    = ["https://example.com/push"; "https://example.com/manifest";
       "https://example.com/signature"; "https://example.com/aci"] /\
  ~ (exists insecure req,
       In (EvRoundTrip insecure req) (snd run) /\ URL req = CompletedURL SampleOdd.deets) /\
  fst run = Some (URLError "parse" ":bad" (Errorf "missing protocol scheme")).
Proof.
  cbv zeta. do 5 (split; [reflexivity|]). split; [|reflexivity].
  intros (insecure & req & Hin & Hurl).
  assert (Hwire : In (URL req)
                    (map URL (wire_requests
                                (snd (Upload (SampleOdd.env SampleOdd.initiate_doc)
                                        (Sample.uploader false) []))))).
  { apply in_map. unfold wire_requests. apply list_elem_of_In, list_elem_of_omap.
    exists (EvRoundTrip insecure req). split; [by apply list_elem_of_In | done]. }
  rewrite Hurl in Hwire. vm_compute in Hwire.
  repeat (destruct Hwire as [Hwire|Hwire]; [discriminate Hwire|]). destruct Hwire.
Qed.

(** C1, amended.  One completion message.  In a session whose initiation
    succeeds exactly one completion message is made, for the completion
    URL of the initiation details, and its [success] is [true] exactly
    when all three parts have uploaded; the message of a failure carries
    the reason.  When [http.NewRequest] accepts the completion URL the
    message is posted: the auth hook is given the request and the
    transport is handed what the hook returns.  When it refuses the URL
    the message is not posted: after [http.NewRequest] the session only
    closes its files, and [Upload] returns the error of the refusal, or,
    after a part has failed, the combined error that ends with it.  In
    a session that fails before - opening the image or the signature,
    reading the manifest, parsing the name, resolving the labels,
    rewinding, marshalling, discovering the endpoint or initiating - no
    completion message is made and [Upload] returns the very error of
    the step that failed. *)
Theorem completion_exactly_once (env : Env) (u : Uploader) (h : list event) :
  (forall acifile ascfile manblob initDeets n,
     os_Open env (Acipath u) = Ok acifile ->
     os_Open env (Ascpath u) = Ok ascfile ->
     negotiate env u acifile ascfile (h ++ [EvOpen (Acipath u); EvOpen (Ascpath u)])
       = (Ok (manblob, initDeets), n) ->
     exists msg,
       completion_posts (snd (Upload env u h))
         = [(CompletedURL initDeets, fst (Marshal_completeMsg env msg))] /\
       (Success msg = true <->
        exists n_up,
          uploaded env u (partsToUpload initDeets manblob ascfile acifile)
            (h ++ [EvOpen (Acipath u); EvOpen (Ascpath u)] ++ n) n_up) /\
       (Success msg = true -> Reason msg = "") /\
       (Success msg = false ->
        exists part err,
          In part (partsToUpload initDeets manblob ascfile acifile) /\
          Reason msg = "error uploading " +:+ label part +:+ ": " +:+ Error err) /\
       ServerReason msg = "" /\
       match NewRequest_err env "POST" (CompletedURL initDeets) with
       | None =>
           exists before after,
             snd (Upload env u h)
               = before
                   ++ posting u (CompletedURL initDeets) (fst (Marshal_completeMsg env msg))
                   ++ after /\
             completion_posts before = [] /\ completion_posts after = []
       | Some e =>
           exists before,
             snd (Upload env u h)
               = before ++ [EvNewRequest "POST" (CompletedURL initDeets)
                              (BytesReader (fst (Marshal_completeMsg env msg)));
                            EvFileClose ascfile; EvFileClose acifile] /\
             completion_posts before = [] /\
             (Success msg = true -> fst (Upload env u h) = Some e) /\
             (Success msg = false ->
              exists part err,
                In part (partsToUpload initDeets manblob ascfile acifile) /\
                Reason msg = "error uploading " +:+ label part +:+ ": " +:+ Error err /\
                fst (Upload env u h)
                  = Some (Errorf ("error uploading " +:+ label part
                                  +:+ " and error reporting failure: " +:+ Error err
                                  +:+ ", " +:+ Error e)))
       end) /\
  (forall e,
     os_Open env (Acipath u) = Err e ->
     fst (Upload env u h) = Some e /\ completion_posts (snd (Upload env u h)) = []) /\
  (forall acifile e,
     os_Open env (Acipath u) = Ok acifile ->
     os_Open env (Ascpath u) = Err e ->
     fst (Upload env u h) = Some e /\ completion_posts (snd (Upload env u h)) = []) /\
  (forall acifile ascfile e n,
     os_Open env (Acipath u) = Ok acifile ->
     os_Open env (Ascpath u) = Ok ascfile ->
     negotiate env u acifile ascfile (h ++ [EvOpen (Acipath u); EvOpen (Ascpath u)])
       = (Err e, n) ->
     fst (Upload env u h) = Some e /\ completion_posts (snd (Upload env u h)) = [] /\
     (ManifestFromImage env acifile = Err e \/
      NewAppFromString env (Uri u) = Err e \/
      (exists manifest app,
         ManifestFromImage env acifile = Ok manifest /\ NewAppFromString env (Uri u) = Ok app /\
         resolveLabels env manifest (App_Labels app) = Err e) \/
      File_Seek env acifile = Some e \/
      (exists manifest, ManifestFromImage env acifile = Ok manifest /\
                        MarshalJSON env manifest = Err e) \/
      (exists app h', fst (getInitiationURL env u app h') = Err e) \/
      (exists initurl h',
         fst (initiateUpload env u initurl h') = NoDetails e \/
         exists deets, fst (initiateUpload env u initurl h') = Details deets (Some e)))).
Proof.
  split; [|split; [|split]].
  - intros acifile ascfile manblob initDeets n Ho Ho' Hneg.
    destruct (Upload_session env u h _ _ _ _ _ Ho Ho' Hneg) as (Hrun & Hsame & _).
    assert (Hfst : fst (Upload env u h)
                   = fst (uploadAndReport env u initDeets manblob ascfile acifile
                            (h ++ [EvOpen (Acipath u); EvOpen (Ascpath u)] ++ n)))
      by (by rewrite Hrun).
    clear Hrun. rewrite Hsame. clear Hsame.
    set (h1 := h ++ [EvOpen (Acipath u); EvOpen (Ascpath u)] ++ n) in *.
    set (parts := partsToUpload initDeets manblob ascfile acifile).
    destruct (uploadLoop_split env u parts h1) as (done & rest & n_up & Hparts & Hup & Hrest).
    destruct rest as [|part rest].
    + rewrite app_nil_r in Hparts. subst done.
      exists {| Success := true; Reason := ""; ServerReason := "" |}.
      pose proof (uploadAndReport_uploaded env u initDeets _ _ _ h1 n_up Hup) as Hsession.
      pose proof (Upload_posting env u h acifile ascfile manblob initDeets n n_up
                    (fst (Marshal_completeMsg env
                            {| Success := true; Reason := ""; ServerReason := "" |}))
                    (h1 ++ n_up) Ho Ho' Hneg
                    (f_equal snd Hsession) (uploaded_no_completion env u _ _ _ Hup)) as Hposting.
      rewrite Hsession in Hfst. cbn [fst] in Hfst.
      rewrite Hsession. cbn [snd].
      destruct (reportSuccess_posts env u (CompletedURL initDeets) (h1 ++ n_up)) as [Hpost _].
      rewrite completion_posts_app, Hpost, (uploaded_no_completion env u _ _ _ Hup).
      cbn [Success Reason ServerReason].
      split; [done|]. split; [split; [by eexists | done]|].
      do 3 (split; [done|]).
      destruct (NewRequest_err env "POST" (CompletedURL initDeets)) as [e|]; [|exact Hposting].
      destruct Hposting as (before & Hevents & Hbefore & Hret).
      exists before. do 2 (split; [done|]). split; [|done].
      intros _. rewrite Hfst. exact Hret.
    + destruct Hrest as [err Herr].
      destruct (uploadPart env u (url part) (r part) (draw part) (label part) (h1 ++ n_up))
        as [res n_fail] eqn:Hfail. cbn [fst] in Herr. subst res.
      exists {| Success := false; Reason := reason_text part err; ServerReason := "" |}.
      pose proof (failed_session_posts env u initDeets manblob ascfile acifile h1 done part rest
                    n_up n_fail err Hparts Hup Hfail) as Hposts.
      pose proof (uploadAndReport_failed env u initDeets manblob ascfile acifile h1 done part
                    rest n_up err n_fail Hparts Hup Hfail) as Hsession.
      cbv zeta in Hsession.
      assert (Hpre : completion_posts (n_up ++ n_fail) = []).
      { rewrite completion_posts_app, (uploaded_no_completion env u _ _ _ Hup).
        pose proof (uploadPart_no_completion env u (url part) (r part) (draw part) (label part)
                      (h1 ++ n_up)) as Hc.
        by rewrite Hfail in Hc. }
      pose proof (Upload_posting env u h acifile ascfile manblob initDeets n (n_up ++ n_fail)
                    (fst (Marshal_completeMsg env
                            {| Success := false; Reason := reason_text part err;
                               ServerReason := "" |}))
                    (h1 ++ n_up ++ n_fail) Ho Ho' Hneg) as Hposting.
      fold h1 in Hposting.
      rewrite Hsession in Hposting, Hfst. cbn [fst snd] in Hposting, Hfst.
      rewrite <- app_assoc in Hposting. specialize (Hposting eq_refl Hpre).
      assert (Hin : In part parts).
      { rewrite Hparts. apply in_or_app. right. by left. }
      rewrite Hposts. cbn [Success Reason ServerReason].
      split; [done|]. split; [|split; [done|split; [|split; [done|]]]].
      * split; [discriminate|].
        intros [n' Hall]. fold parts in Hall. rewrite Hparts in Hall.
        apply uploaded_app_inv in Hall as (n1 & n2 & Hdone & Hnext & _).
        rewrite (uploaded_unique env u _ _ _ _ Hdone Hup) in Hnext.
        inversion Hnext as [|? ? ? m1 m2 Hpart _]; subst. congruence.
      * intros _. by exists part, err.
      * destruct (NewRequest_err env "POST" (CompletedURL initDeets)) as [e|];
          [|exact Hposting].
        destruct Hposting as (before & Hevents & Hbefore & Hret).
        exists before. do 2 (split; [done|]). split; [discriminate|].
        intros _. exists part, err. do 2 (split; [done|]).
        rewrite Hfst. unfold surfaced. rewrite reportFailure_run, Hret. done.
  - intros e Ho. by rewrite (Upload_open_aci_fail env u h e Ho).
  - intros acifile e Ho Ho'. by rewrite (Upload_open_asc_fail env u h acifile e Ho Ho').
  - intros acifile ascfile e n Ho Ho' Hneg.
    destruct (Upload_not_initiated env u h _ _ _ _ Ho Ho' Hneg) as (Herr & Hposts & _).
    split; [done|]. split; [done|].
    exact (negotiate_errors env u acifile ascfile _ e n Hneg).
Qed.

Lemma completion_exactly_once_witness :
  let env := Sample.env Sample.manifest ∅ Sample.good_server in
  (exists msg,
     completion_posts (snd (Upload env (Sample.uploader false) []))
       = [("https://example.com/complete", fst (Marshal_completeMsg env msg))] /\
     Success msg = true /\
     exists before after,
       snd (Upload env (Sample.uploader false) [])
         = before
             ++ posting (Sample.uploader false) "https://example.com/complete"
                  (fst (Marshal_completeMsg env msg))
             ++ after) /\
  (fst (Upload (Sample.env {| Manifest_Name := "example.com/app"; Manifest_Labels := [] |} ∅
                  Sample.good_server) (Sample.uploader false) [])
     = Some (Errorf ("manifest is missing label: " +:+ quoted "arch")) /\
   completion_posts
     (snd (Upload (Sample.env {| Manifest_Name := "example.com/app"; Manifest_Labels := [] |} ∅
                     Sample.good_server) (Sample.uploader false) [])) = []) /\
  (exists before,
     snd (Upload (SampleOdd.env SampleOdd.initiate_doc) (Sample.uploader false) [])
       = before ++ [EvNewRequest "POST" ":bad" (BytesReader Sample.success_doc);
                    EvFileClose Sample.ascfile; EvFileClose Sample.acifile]) /\
  fst (Upload (SampleOdd.env SampleOdd.initiate_doc) (Sample.uploader false) [])
    = Some (SampleOdd.missing_scheme ":bad").
Proof.
  intros env.
  destruct (proj1 (completion_exactly_once (SampleOdd.env SampleOdd.initiate_doc)
                     (Sample.uploader false) [])
              Sample.acifile Sample.ascfile Sample.manifest_doc SampleOdd.deets
              (snd (negotiate (SampleOdd.env SampleOdd.initiate_doc) (Sample.uploader false)
                      Sample.acifile Sample.ascfile
                      ([] ++ [EvOpen "app.aci"; EvOpen "app.aci.asc"])))
              eq_refl eq_refl eq_refl)
    as (odd & _ & Hodd & Hreason & _ & Hserver & gone & Hgone & _ & Hreturned & _).
  assert (Hall : Success odd = true).
  { apply Hodd. eexists. repeat (eapply uploaded_cons; [reflexivity|]). apply uploaded_nil. }
  split; [|split; [|split; [|exact (Hreturned Hall)]]].
  - destruct (proj1 (completion_exactly_once env (Sample.uploader false) [])
                Sample.acifile Sample.ascfile Sample.manifest_doc Sample.deets
                (snd (negotiate env (Sample.uploader false) Sample.acifile Sample.ascfile
                        ([] ++ [EvOpen "app.aci"; EvOpen "app.aci.asc"])))
                eq_refl eq_refl eq_refl)
      as (msg & Hposts & Hsuccess & _ & _ & _ & before & after & Hposting & _).
    exists msg. split; [exact Hposts|]. split.
    + apply Hsuccess.
      eexists. repeat (eapply uploaded_cons; [reflexivity|]). apply uploaded_nil.
    + exists before, after. exact Hposting.
  - refine (match proj2 (proj2 (proj2 (completion_exactly_once
                (Sample.env {| Manifest_Name := "example.com/app"; Manifest_Labels := [] |} ∅
                   Sample.good_server) (Sample.uploader false) [])))
                Sample.acifile Sample.ascfile
                (Errorf ("manifest is missing label: " +:+ quoted "arch"))
                [EvManifestFromImage Sample.acifile] eq_refl eq_refl _
            with conj Herr (conj Hposts _) => conj Herr Hposts end).
    reflexivity.
  - exists gone. specialize (Hreason Hall).
    destruct odd as [[] reason server_reason]; [|discriminate Hall].
    cbn [Reason ServerReason] in Hreason, Hserver. subst reason server_reason.
    exact Hgone.
Defined.

(** ** What the initiation accepts *)

Lemma performRequest_first env u reqType url blob draw label h :
  exists rest,
    snd (performRequest env u reqType url (BytesReader blob) draw label h)
      = EvNewRequest reqType url (BytesReader blob) :: rest.
Proof.
  rewrite performRequest_run, withProgress_run.
  destruct (NewRequest_err env reqType url) as [e|]; [by eexists|].
  cbv zeta. destruct (client_Do env u _ _) as [[res|e] n1]; [|by eexists].
  destruct ((StatusCode res =? 200) || (StatusCode res =? 400)); by eexists.
Qed.

Lemma uploadAndReport_first env u initDeets manblob ascfile acifile h :
  exists rest,
    snd (uploadAndReport env u initDeets manblob ascfile acifile h)
      = EvNewRequest "PUT" (ManifestURL initDeets) (BytesReader manblob) :: rest.
Proof.
  destruct (performRequest_first env u "PUT" (ManifestURL initDeets) manblob false "manifest" h)
    as [rest Hfirst].
  unfold uploadAndReport, partsToUpload. rewrite bind_snd.
  cbn [uploadLoop url r draw label]. rewrite bind_snd.
  unfold uploadPart at 1. rewrite bind_snd, Hfirst. by eexists.
Qed.

Lemma negotiate_initiated env u acifile ascfile h manifest app labels manblob initurl n deets :
  ManifestFromImage env acifile = Ok manifest ->
  NewAppFromString env (Uri u) = Ok app ->
  resolveLabels env manifest (App_Labels app) = Ok labels ->
  File_Seek env acifile = None ->
  MarshalJSON env manifest = Ok manblob ->
  getInitiationURL env u {| App_Name := App_Name app; App_Labels := labels |}
    (h ++ [EvManifestFromImage acifile; EvSeek acifile]) = (Ok initurl, n) ->
  fst (initiateUpload env u initurl (h ++ [EvManifestFromImage acifile; EvSeek acifile] ++ n))
    = Details deets None ->
  fst (negotiate env u acifile ascfile h) = Ok (manblob, deets).
Proof.
  intros Hm Ha Hl Hs Hj Hg Hi. unfold negotiate. run. rewrite Hm, Ha, Hl, Hs, Hj. norm.
  rewrite Hg. norm.
  destruct (initiateUpload env u initurl _) as [i n']. cbn [fst] in Hi. subst i. by norm.
Qed.

Lemma negotiate_not_initiated env u acifile ascfile h manifest app labels manblob initurl n
    deets e :
  ManifestFromImage env acifile = Ok manifest ->
  NewAppFromString env (Uri u) = Ok app ->
  resolveLabels env manifest (App_Labels app) = Ok labels ->
  File_Seek env acifile = None ->
  MarshalJSON env manifest = Ok manblob ->
  getInitiationURL env u {| App_Name := App_Name app; App_Labels := labels |}
    (h ++ [EvManifestFromImage acifile; EvSeek acifile]) = (Ok initurl, n) ->
  fst (initiateUpload env u initurl (h ++ [EvManifestFromImage acifile; EvSeek acifile] ++ n))
    = Details deets (Some e) ->
  fst (negotiate env u acifile ascfile h) = Err e.
Proof.
  intros Hm Ha Hl Hs Hj Hg Hi. unfold negotiate. run. rewrite Hm, Ha, Hl, Hs, Hj. norm.
  rewrite Hg. norm.
  destruct (initiateUpload env u initurl _) as [i n']. cbn [fst] in Hi. subst i. by norm.
Qed.

(** C10, as stated, fails: a 200 whose body is the JSON document [[]]
    is valid JSON, and the initiation fails on it with the type error of
    the decoder, which ends the session. *)
Lemma initiation_lenient_counterexample :
  let env := Sample.env Sample.manifest ∅ (fun _ _ _ => Sample.reply 200 "[]") in
  json_parse env "[]" = Ok (JArray []) /\
  fst (initiateUpload env (Sample.uploader false) "https://example.com/push" [])
    = Details zero_initiateDetails (Some (UnmarshalTypeError "array" "lib.initiateDetails")) /\
  fst (Upload env (Sample.uploader false) [])
    = Some (UnmarshalTypeError "array" "lib.initiateDetails").
Proof. cbv zeta. repeat split; reflexivity. Qed.

(** C10, amended.  Let the initiation request be answered, after any
    redirects, with a response of status 200 or 400 whose body is read in
    full.  If the body is the JSON [null], or a JSON object in which every
    member that is decoded into a field is [null] or has the type of the
    field, [initiateUpload] returns no error - for a 400 as for a 200 - and
    every field that no member is decoded into has its zero value.  The
    details are not validated: the session goes on to the upload loop with
    them, and the loop starts by making the [PUT] of the manifest to
    whatever [ManifestURL] they have, the empty string included.  A body
    that is valid JSON of another shape fails the initiation with a type
    error of the decoder: for an array, a string, a number or a boolean
    the error names that kind and [lib.initiateDetails], for an object
    with a member that does not fit it names the kind of the value of
    the first such member and the type of its field.  [initiateUpload]
    returns that error, and [Upload] returns it without making a [PUT]
    or posting a completion message. *)
Theorem initiation_lenient (env : Env) (u : Uploader) (initurl : string) (h : list event)
    (res : Response) (n1 : list event) :
  NewRequest_err env "POST" initurl = None ->
  let req := {| Method := "POST"; URL := initurl; Header := []; ReqBody := NilBody |} in
  let pre := [EvNewRequest "POST" initurl NilBody; EvSetHTTPHeaders req] in
  client_Do env u (SetHTTPHeaders u req) (h ++ initiating_lines u ++ pre) = (Ok res, n1) ->
  StatusCode res = 200 \/ StatusCode res = 400 ->
  body_err (Body res) = None ->
  (json_parse env (body_bytes (Body res)) = Ok JNull ->
   fst (initiateUpload env u initurl h) = Details zero_initiateDetails None) /\
  (forall members,
     json_parse env (body_bytes (Body res)) = Ok (JObject members) ->
     Forall (member_fits env) members ->
     exists deets,
       fst (initiateUpload env u initurl h) = Details deets None /\
       forall f, field_absent env f members ->
                 initiateField_value f deets = initiateField_value f zero_initiateDetails) /\
  (forall acifile ascfile h0 manifest app labels manblob n deets,
     ManifestFromImage env acifile = Ok manifest ->
     NewAppFromString env (Uri u) = Ok app ->
     resolveLabels env manifest (App_Labels app) = Ok labels ->
     File_Seek env acifile = None ->
     MarshalJSON env manifest = Ok manblob ->
     getInitiationURL env u {| App_Name := App_Name app; App_Labels := labels |}
       (h0 ++ [EvManifestFromImage acifile; EvSeek acifile]) = (Ok initurl, n) ->
     h = h0 ++ [EvManifestFromImage acifile; EvSeek acifile] ++ n ->
     fst (initiateUpload env u initurl h) = Details deets None ->
     fst (negotiate env u acifile ascfile h0) = Ok (manblob, deets)) /\
  (forall deets manblob ascfile acifile h',
     exists rest,
       snd (uploadAndReport env u deets manblob ascfile acifile h')
         = EvNewRequest "PUT" (ManifestURL deets) (BytesReader manblob) :: rest) /\
  (forall v,
     json_parse env (body_bytes (Body res)) = Ok v ->
     v <> JNull -> (forall members, v <> JObject members) ->
     fst (initiateUpload env u initurl h)
       = Details zero_initiateDetails
           (Some (UnmarshalTypeError (json_kind v) "lib.initiateDetails"))) /\
  (forall members,
     json_parse env (body_bytes (Body res)) = Ok (JObject members) ->
     ~ Forall (member_fits env) members ->
     exists fits key v rest f deets,
       members = fits ++ (key, v) :: rest /\ Forall (member_fits env) fits /\
       initiateField_of env key = Some f /\ ~ member_fits env (key, v) /\
       fst (initiateUpload env u initurl h)
         = Details deets (Some (UnmarshalTypeError (json_kind v) (initiateField_type f)))) /\
  (forall acifile ascfile h0 manifest app labels manblob n deets e,
     ManifestFromImage env acifile = Ok manifest ->
     NewAppFromString env (Uri u) = Ok app ->
     resolveLabels env manifest (App_Labels app) = Ok labels ->
     File_Seek env acifile = None ->
     MarshalJSON env manifest = Ok manblob ->
     getInitiationURL env u {| App_Name := App_Name app; App_Labels := labels |}
       (h0 ++ [EvManifestFromImage acifile; EvSeek acifile]) = (Ok initurl, n) ->
     h = h0 ++ [EvManifestFromImage acifile; EvSeek acifile] ++ n ->
     fst (initiateUpload env u initurl h) = Details deets (Some e) ->
     fst (negotiate env u acifile ascfile h0) = Err e /\
     forall h00,
       h0 = h00 ++ [EvOpen (Acipath u); EvOpen (Ascpath u)] ->
       os_Open env (Acipath u) = Ok acifile ->
       os_Open env (Ascpath u) = Ok ascfile ->
       fst (Upload env u h00) = Some e /\
       put_requests (snd (Upload env u h00)) = [] /\
       completion_posts (snd (Upload env u h00)) = []).
Proof.
  intros Hnew req pre Hdo Hcode Hread.
  assert (Hreq : performRequest env u "POST" initurl NilBody false "" (h ++ initiating_lines u)
                 = (Ok (Body res), pre ++ n1)).
  { rewrite performRequest_run, withProgress_run, Hnew. cbv zeta. cbn [Datatypes.app].
    fold req. fold pre. rewrite <- app_assoc, Hdo. by destruct Hcode as [-> | ->]. }
  split; [|split; [|split; [|split; [|split; [|split]]]]].
  - intros Hparse. rewrite initiateUpload_run, Hreq, Hread. cbv zeta. cbn [fst].
    unfold Unmarshal_initiateDetails, Unmarshal_struct. by rewrite Hparse.
  - intros members Hparse Hfit.
    rewrite initiateUpload_run, Hreq, Hread. cbv zeta. cbn [fst].
    unfold Unmarshal_initiateDetails, Unmarshal_struct. rewrite Hparse.
    destruct (decode_members_fits env members zero_initiateDetails None Hfit) as [Hnone Hkeep].
    eexists. split; [by rewrite Hnone|]. exact Hkeep.
  - intros acifile ascfile h0 manifest app labels manblob n deets Hm Ha Hl Hs Hj Hg -> Hi.
    by apply negotiate_initiated with (manifest := manifest) (app := app) (labels := labels)
         (initurl := initurl) (n := n).
  - intros. apply uploadAndReport_first.
  - intros v Hparse Hnull Hobject.
    rewrite initiateUpload_run, Hreq, Hread. cbv zeta. cbn [fst].
    unfold Unmarshal_initiateDetails, Unmarshal_struct. rewrite Hparse.
    destruct v as [| | | | |members]; try done. by destruct (Hobject members).
  - intros members Hparse Hnot.
    destruct (first_misfit env members Hnot) as (fits & [key v] & rest & -> & Hfits & Hmis).
    destruct (misfit_has_field env key v Hmis) as [f Hkey].
    exists fits, key, v, rest, f. eexists. do 4 (split; [done|]).
    rewrite initiateUpload_run, Hreq, Hread. cbv zeta. cbn [fst].
    unfold Unmarshal_initiateDetails, Unmarshal_struct. rewrite Hparse.
    by rewrite (decode_members_misfit env fits key v rest f zero_initiateDetails Hfits Hkey Hmis).
  - intros acifile ascfile h0 manifest app labels manblob n deets e Hm Ha Hl Hs Hj Hg -> Hi.
    assert (Hneg : fst (negotiate env u acifile ascfile h0) = Err e).
    { by apply negotiate_not_initiated with (manifest := manifest) (app := app)
           (labels := labels) (manblob := manblob) (initurl := initurl) (n := n)
           (deets := deets). }
    split; [exact Hneg|]. intros h00 -> Ho Ho'.
    destruct (negotiate env u acifile ascfile _) as [r0 n0] eqn:Hrun. cbn [fst] in Hneg.
    subst r0.
    destruct (Upload_not_initiated env u h00 acifile ascfile e n0 Ho Ho' Hrun)
      as (Hret & Hposts & Hputs).
    by rewrite Hret, Hposts, Hputs.
Qed.

Lemma initiation_lenient_witness :
  let env := Sample.env Sample.manifest ∅ (fun _ _ _ => Sample.reply 400 "{}") in
  (exists deets,
     fst (initiateUpload env (Sample.uploader false) "https://example.com/push" [])
       = Details deets None /\
     ManifestURL deets = "" /\ CompletedURL deets = "") /\
  (exists rest,
     snd (uploadAndReport env (Sample.uploader false) zero_initiateDetails Sample.manifest_doc
            Sample.ascfile Sample.acifile [])
       = EvNewRequest "PUT" "" (BytesReader Sample.manifest_doc) :: rest) /\
  exists deets value type,
    fst (initiateUpload (SampleOdd.env SampleOdd.mistyped_doc) (Sample.uploader false)
           "https://example.com/push" [])
      = Details deets (Some (UnmarshalTypeError value type)).
Proof.
  intros env.
  destruct (initiation_lenient env (Sample.uploader false) "https://example.com/push" []
              {| StatusCode := 400; Location := "";
                 Body := {| body_bytes := "{}"; body_err := None |} |}
              _ eq_refl eq_refl (or_intror eq_refl) eq_refl)
    as (_ & Hobject & _ & Hfirst & _).
  destruct (initiation_lenient (SampleOdd.env SampleOdd.mistyped_doc) (Sample.uploader false)
              "https://example.com/push" []
              {| StatusCode := 200; Location := "";
                 Body := {| body_bytes := SampleOdd.mistyped_doc; body_err := None |} |}
              _ eq_refl eq_refl (or_introl eq_refl) eq_refl)
    as (_ & _ & _ & _ & _ & Hmistyped & _).
  split; [|split].
  - destruct (Hobject [] eq_refl (List.Forall_nil _)) as (deets & Hdeets & Hzero).
    exists deets. split; [exact Hdeets|]. split.
    + pose proof (Hzero F_ManifestURL (List.Forall_nil _)) as Hurl. by injection Hurl.
    + pose proof (Hzero F_CompletedURL (List.Forall_nil _)) as Hurl. by injection Hurl.
  - apply (Hfirst zero_initiateDetails Sample.manifest_doc Sample.ascfile Sample.acifile []).
  - assert (Hnot : ~ Forall (member_fits (SampleOdd.env SampleOdd.mistyped_doc))
                       [("upload_manifest_url", JString "https://example.com/manifest");
                        ("multipart", JNumber "1")]).
    { intros Hall. apply Forall_cons in Hall as [_ Hall].
      apply Forall_cons in Hall as [Hfit _]. vm_compute in Hfit.
      destruct Hfit as [Hnull | [b Hbool]]; discriminate. }
    destruct (Hmistyped _ eq_refl Hnot)
      as (fits & key & v & rest & f & deets & _ & _ & _ & _ & Hi).
    exists deets, (json_kind v), (initiateField_type f). exact Hi.
Defined.

(** ** The scenarios of the specification, run *)

(** Scenario A: everything succeeds.  The three parts go out in order and
    one success message is posted. *)
Example scenario_all_good :
  let run := Upload (Sample.env Sample.manifest ∅ Sample.good_server) (Sample.uploader false) [] in
  fst run = None /\
  put_requests (snd run)
    = [("https://example.com/manifest", BytesReader Sample.manifest_doc);
       ("https://example.com/signature", FileBody Sample.ascfile);
       ("https://example.com/aci", FileBody Sample.acifile)] /\
  completion_posts (snd run) = [("https://example.com/complete", Sample.success_doc)].
Proof. cbv zeta. repeat split; reflexivity. Qed.

(** Scenario B: [os] is missing everywhere. *)
Example scenario_missing_os :
  let run := Upload (Sample.env {| Manifest_Name := "example.com/app";
                                   Manifest_Labels := [("arch", "amd64")] |} ∅
                       Sample.good_server) (Sample.uploader true) [] in
  fst run = Some (Errorf ("manifest is missing label: " +:+ quoted "os")) /\
  network_calls (snd run) = [].
Proof. cbv zeta. split; reflexivity. Qed.

(** Scenario C: discovery finds no endpoint; no request is made. *)
Example scenario_no_endpoint :
  let run := Upload (Sample.without_endpoints
                       (Sample.env Sample.manifest ∅ Sample.good_server))
               (Sample.uploader false) [] in
  fst run = Some (Errorf "no endpoints discovered") /\
  filter (fun e => is_NewRequest e = true) (snd run) = [] /\
  round_trips (snd run) = 0%nat.
Proof. cbv zeta. repeat split; reflexivity. Qed.

(** Scenario D: the image upload is answered with 500 and the failure
    report is accepted. *)
Example scenario_image_fails :
  let run := Upload (Sample.env Sample.manifest ∅
                       (Sample.failing_server "https://example.com/aci" 500))
               (Sample.uploader false) [] in
  fst run = Some (Errorf "error uploading ACI: bad HTTP status code: 500") /\
  length (completion_posts (snd run)) = 1%nat.
Proof. cbv zeta. split; reflexivity. Qed.

(** The signature upload and the failure report both fail. *)
Example scenario_report_fails :
  fst (Upload (Sample.env Sample.manifest ∅ Sample.broken_server) (Sample.uploader false) [])
    = Some (Errorf ("error uploading signature and error reporting failure: "
                    +:+ "bad HTTP status code: 500, bad HTTP status code: 500")).
Proof. reflexivity. Qed.

(** The server rejects the report of a success. *)
Example scenario_server_veto :
  fst (Upload (Sample.env Sample.manifest ∅
                 (fun insecure h req =>
                    if String.eqb (URL req) "https://example.com/complete"
                    then Sample.reply 200 Sample.rejected_doc
                    else Sample.good_server insecure h req))
         (Sample.uploader false) [])
    = Some (Errorf "signature does not verify").
Proof. reflexivity. Qed.

(** * Further properties of lib.go *)

(** ** Which events a call can add *)

Section Events.

Context (env : Env) (u : Uploader) (P : event -> Prop).

Hypothesis P_Stderr : Debug u = true -> forall line, P (EvStderr line).
Hypothesis P_Stat : Debug u = true -> forall f, P (EvStat f).
Hypothesis P_Discover : forall app, P (EvDiscover app (Insecure u)).
Hypothesis P_POST : forall url b, P (EvNewRequest "POST" url b).
Hypothesis P_PUT : forall url b, P (EvNewRequest "PUT" url b).
Hypothesis P_SetHTTPHeaders : forall req, P (EvSetHTTPHeaders req).
Hypothesis P_RoundTrip : forall req, P (EvRoundTrip (Insecure u) req).
Hypothesis P_ReadAll : forall b, P (EvReadAll b).
Hypothesis P_BodyClose : forall b, P (EvBodyClose b).
Hypothesis P_ManifestFromImage : forall f, P (EvManifestFromImage f).
Hypothesis P_Seek : forall f, P (EvSeek f).

Ltac all_P := repeat first [ apply Forall_nil_2 | apply Forall_cons_2 | apply Forall_app_2 ]; auto.

Lemma withProgress_Forall b draw label h :
  Forall P (snd (withProgress env u b draw label h)).
Proof.
  rewrite withProgress_run. destruct b as [| |f|]; try by all_P.
  destruct draw; [|by all_P]. destruct (Debug u) eqn:Hd; [|by all_P].
  cbn [andb snd]. all_P.
Qed.

Lemma doFollowingRedirects_Forall fuel ireq req via h :
  Forall P (snd (doFollowingRedirects env fuel (Insecure u) (CheckRedirect u) ireq req via h)).
Proof.
  revert req via h. induction fuel as [|fuel IH]; intros req via h; [by all_P|].
  rewrite doFollowingRedirects_step. cbv zeta.
  destruct (RoundTrip env (Insecure u) h req) as [resp|e]; [|by all_P].
  destruct (shouldRedirect env (Method ireq) (StatusCode resp)); [|by all_P].
  destruct (decide (Location resp = "")); [by all_P|].
  destruct (redirectRequest env ireq _ (Location resp)) as [nreq|e]; [|by all_P].
  destruct (10 <=? length _)%nat; [by all_P|].
  cbn [snd]. all_P.
Qed.

Lemma client_Do_Forall req h : Forall P (snd (client_Do env u req h)).
Proof.
  destruct (client_Do_run env u req h) as (res & Hloop & _).
  pose proof (doFollowingRedirects_Forall maxRequests req req [] h) as Hq.
  by rewrite Hloop in Hq.
Qed.

Lemma performRequest_Forall reqType url b draw label h :
  (forall url b, P (EvNewRequest reqType url b)) ->
  Forall P (snd (performRequest env u reqType url b draw label h)).
Proof.
  intros P_New. rewrite performRequest_run.
  pose proof (withProgress_Forall b draw label h) as H0.
  destruct (withProgress env u b draw label h) as [[b'|e] n0]; cbn [snd] in *; [|done].
  destruct (NewRequest_err env reqType url) as [e|]; [by all_P|]. cbv zeta.
  pose proof (client_Do_Forall
                (SetHTTPHeaders u {| Method := reqType; URL := url; Header := []; ReqBody := b' |})
                (h ++ n0 ++ [EvNewRequest reqType url b';
                             EvSetHTTPHeaders {| Method := reqType; URL := url; Header := [];
                                                 ReqBody := b' |}])) as H1.
  destruct (client_Do env u _ _) as [[res|e] n1]; cbn [snd] in *; [|by all_P].
  destruct ((StatusCode res =? 200) || (StatusCode res =? 400)); cbn [snd]; all_P.
Qed.

Lemma uploadPart_Forall url b draw label h :
  Forall P (snd (uploadPart env u url b draw label h)).
Proof.
  rewrite uploadPart_run.
  pose proof (performRequest_Forall "PUT" url b draw label h P_PUT) as Hp.
  destruct (performRequest env u "PUT" url b draw label h) as [[resp|e] n]; cbn [snd] in *;
    all_P.
Qed.

Lemma complete_Forall url blob h : Forall P (snd (complete env u url blob h)).
Proof.
  rewrite complete_run.
  pose proof (performRequest_Forall "POST" url (BytesReader blob) false "" h P_POST) as Hp.
  destruct (performRequest env u "POST" url (BytesReader blob) false "" h) as [[resp|e] n];
    cbn [snd] in *; all_P.
Qed.

Lemma initiateUpload_Forall initurl h : Forall P (snd (initiateUpload env u initurl h)).
Proof.
  rewrite initiateUpload_run.
  pose proof (performRequest_Forall "POST" initurl NilBody false "" (h ++ initiating_lines u)
                P_POST) as Hp.
  assert (Hlines : Forall P (initiating_lines u)).
  { unfold initiating_lines. destruct (Debug u) eqn:Hd; all_P. }
  assert (Hlines' : forall d, Forall P (initiated_lines u d)).
  { intros d. unfold initiated_lines. destruct (Debug u) eqn:Hd; all_P. }
  destruct (performRequest env u "POST" initurl NilBody false "" _) as [[resp|e] n];
    cbn [snd] in *; [|by all_P].
  destruct (body_err resp); cbv zeta; cbn [snd]; all_P.
Qed.

Lemma stderr_attempts_Forall attempts h :
  Debug u = true -> Forall P (snd (stderr_attempts attempts h)).
Proof.
  intros Hd. revert h. induction attempts as [|[prefix err] attempts IH]; intros h; [by all_P|].
  cbn [stderr_attempts]. rewrite bind_snd. unfold stderr at 1, emit. cbn [fst snd]. all_P.
Qed.

Lemma getInitiationURL_Forall app h : Forall P (snd (getInitiationURL env u app h)).
Proof.
  unfold getInitiationURL. run.
  destruct (DiscoverEndpoints env app (Insecure u)) as [[eps attempts] err].
  pose proof (stderr_attempts_Forall attempts
                (h ++ [EvStderr (TrimSuffix_newline "searching for push endpoint via meta discovery");
                       EvDiscover app (Insecure u)])) as Hs.
  destruct (Debug u) eqn:Hd; norm.
  - specialize (Hs eq_refl).
    destruct (stderr_attempts attempts _) as [[] n]. cbn [snd] in Hs.
    destruct err as [e|]; [|destruct eps as [|ep eps]]; norm; cbn [snd]; all_P.
  - destruct err as [e|]; [|destruct eps as [|ep eps]]; norm; cbn [snd]; all_P.
Qed.

Lemma negotiate_Forall acifile ascfile h :
  Forall P (snd (negotiate env u acifile ascfile h)).
Proof.
  unfold negotiate. run.
  destruct (ManifestFromImage env acifile) as [manifest|e]; [|norm; cbn [snd]; all_P].
  destruct (NewAppFromString env (Uri u)) as [app|e]; [|norm; cbn [snd]; all_P].
  destruct (resolveLabels env manifest (App_Labels app)) as [labels|e];
    [|norm; cbn [snd]; all_P].
  destruct (File_Seek env acifile) as [e|]; [norm; cbn [snd]; all_P|].
  destruct (MarshalJSON env manifest) as [manblob|e]; [|norm; cbn [snd]; all_P]. norm.
  pose proof (getInitiationURL_Forall {| App_Name := App_Name app; App_Labels := labels |}
                (h ++ [EvManifestFromImage acifile; EvSeek acifile])) as Hg.
  destruct (getInitiationURL env u _ _) as [[initurl|e] n]; cbn [snd] in Hg; norm.
  - pose proof (initiateUpload_Forall initurl
                  (h ++ EvManifestFromImage acifile :: EvSeek acifile :: n)) as Hi.
    destruct (initiateUpload env u initurl _) as [i n']. cbn [snd] in Hi.
    destruct i as [e|d [e|]]; norm; cbn [snd]; all_P.
  - cbn [snd]. all_P.
Qed.

Lemma uploadLoop_Forall initDeets parts h :
  Forall P (snd (uploadLoop env u initDeets parts h)).
Proof.
  revert h. induction parts as [|part parts IH]; intros h; [by all_P|].
  rewrite uploadLoop_cons.
  pose proof (uploadPart_Forall (url part) (r part) (draw part) (label part) h) as Hp.
  destruct (uploadPart env u (url part) (r part) (draw part) (label part) h) as [[err|] n1];
    cbn [snd] in *.
  - cbv zeta. cbn [snd]. rewrite reportFailure_run. pose proof complete_Forall. all_P.
  - all_P.
Qed.

Lemma uploadAndReport_Forall initDeets manblob ascfile acifile h :
  Forall P (snd (uploadAndReport env u initDeets manblob ascfile acifile h)).
Proof.
  unfold uploadAndReport. rewrite bind_snd.
  pose proof (uploadLoop_Forall initDeets (partsToUpload initDeets manblob ascfile acifile) h).
  destruct (fst (uploadLoop env u initDeets _ h)) as [err|]; [by all_P|].
  rewrite bind_snd, reportSuccess_run. pose proof complete_Forall.
  destruct (fst (complete env u _ _ _)); all_P.
Qed.

Lemma Upload_files_Forall acifile ascfile h :
  Forall P (snd (Upload_files env u acifile ascfile h)).
Proof.
  pose proof (negotiate_Forall acifile ascfile h) as Hn.
  destruct (negotiate env u acifile ascfile h) as [[[manblob initDeets]|e] n] eqn:Hneg;
    cbn [snd] in Hn.
  - rewrite (Upload_files_initiated env u _ _ _ _ _ _ Hneg). cbn [snd].
    pose proof uploadAndReport_Forall. all_P.
  - by rewrite (Upload_files_fail env u _ _ _ _ _ Hneg).
Qed.

End Events.

Lemma session_events (env : Env) (u : Uploader) (acifile ascfile : File) (h : list event) :
  Forall (session_event u) (snd (Upload_files env u acifile ascfile h)).
Proof. apply Upload_files_Forall; cbn; auto. Qed.

(** ** One transport policy, and silence without [Debug] *)

(** X1.  One TLS policy.  In a session every call of discovery and every
    request on the wire, redirects included, is made with the [Insecure]
    flag of the uploader. *)
Theorem insecure_everywhere (env : Env) (u : Uploader) (h : list event) :
  Forall (fun e => match e with
                   | EvDiscover _ insecure | EvRoundTrip insecure _ => insecure = Insecure u
                   | _ => True
                   end) (snd (Upload env u h)).
Proof.
  destruct (os_Open env (Acipath u)) as [acifile|e] eqn:Ho.
  - destruct (os_Open env (Ascpath u)) as [ascfile|e] eqn:Ho'.
    + rewrite (Upload_opened env u h _ _ Ho Ho'). cbn [snd].
      repeat first [ apply Forall_nil_2 | apply Forall_cons_2 | apply Forall_app_2 ]; try done.
      eapply Forall_impl; [apply session_events|]. by intros [].
    + rewrite (Upload_open_asc_fail env u h _ _ Ho Ho'). by repeat constructor.
  - rewrite (Upload_open_aci_fail env u h _ Ho). by repeat constructor.
Qed.

(** X2.  Silence without [Debug].  With [u.Debug] unset a session writes
    nothing to standard error and never asks a file for its size. *)
Theorem quiet_without_debug (env : Env) (u : Uploader) (h : list event) :
  Debug u = false ->
  Forall (fun e => match e with
                   | EvStderr _ | EvStat _ => False
                   | _ => True
                   end) (snd (Upload env u h)).
Proof.
  intros Hd.
  destruct (os_Open env (Acipath u)) as [acifile|e] eqn:Ho.
  - destruct (os_Open env (Ascpath u)) as [ascfile|e] eqn:Ho'.
    + rewrite (Upload_opened env u h _ _ Ho Ho'). cbn [snd].
      repeat first [ apply Forall_nil_2 | apply Forall_cons_2 | apply Forall_app_2 ]; try done.
      eapply Forall_impl; [apply session_events|].
      intros [] He; cbn in He; try done; congruence.
    + rewrite (Upload_open_asc_fail env u h _ _ Ho Ho'). by repeat constructor.
  - rewrite (Upload_open_aci_fail env u h _ Ho). by repeat constructor.
Qed.

Lemma quiet_without_debug_witness :
  Forall (fun e => match e with
                   | EvStderr _ | EvStat _ => False
                   | _ => True
                   end)
    (snd (Upload (Sample.env Sample.manifest ∅ Sample.good_server) (Sample.uploader false) [])).
Proof.
  apply (quiet_without_debug (Sample.env Sample.manifest ∅ Sample.good_server)
           (Sample.uploader false) []).
  reflexivity.
Defined.

(** ** Files and response bodies are released *)

(** X3.  The files are released.  [Upload] closes every file it has
    opened, the signature before the image, as the last thing it does and
    on every path: when the image does not open nothing is closed, when
    the signature does not open the image is closed, and otherwise both
    are closed after everything else, and nothing in between opens or
    closes a file. *)
Theorem files_released (env : Env) (u : Uploader) (h : list event) :
  match os_Open env (Acipath u) with
  | Err _ => snd (Upload env u h) = [EvOpen (Acipath u)]
  | Ok acifile =>
      match os_Open env (Ascpath u) with
      | Err _ =>
          snd (Upload env u h)
            = [EvOpen (Acipath u); EvOpen (Ascpath u); EvFileClose acifile]
      | Ok ascfile =>
          exists between,
            snd (Upload env u h)
              = [EvOpen (Acipath u); EvOpen (Ascpath u)] ++ between
                  ++ [EvFileClose ascfile; EvFileClose acifile] /\
            file_events between = []
      end
  end.
Proof.
  destruct (os_Open env (Acipath u)) as [acifile|e] eqn:Ho.
  - destruct (os_Open env (Ascpath u)) as [ascfile|e] eqn:Ho'.
    + rewrite (Upload_opened env u h _ _ Ho Ho'). cbn [snd]. eexists. split; [reflexivity|].
      pose proof (session_events env u acifile ascfile
                    (h ++ [EvOpen (Acipath u); EvOpen (Ascpath u)])) as Hev.
      induction Hev as [|e l He _ IH]; [done|].
      unfold file_events in *. rewrite filter_cons, IH. by destruct e.
    + by rewrite (Upload_open_asc_fail env u h _ _ Ho Ho').
  - by rewrite (Upload_open_aci_fail env u h _ Ho).
Qed.

Section Bodies.

Context (env : Env) (u : Uploader).

Lemma received_bodies_app h n1 n2 :
  received_bodies env h (n1 ++ n2)
    = received_bodies env h n1 ++ received_bodies env (h ++ n1) n2.
Proof.
  revert h. induction n1 as [|e n1 IH]; intros h; [by rewrite app_nil_r|].
  cbn [Datatypes.app received_bodies]. by rewrite IH, <- !app_assoc.
Qed.

Lemma closed_bodies_app l1 l2 : closed_bodies (l1 ++ l2) = closed_bodies l1 ++ closed_bodies l2.
Proof. apply omap_app. Qed.

Lemma quiet_closed n : Forall (fun e => is_wire e = false) n -> closed_bodies n = [].
Proof. induction 1 as [|e l He _ IH]; [done|]. cbn. rewrite <- IH. by destruct e. Qed.

Lemma quiet_received h n :
  Forall (fun e => is_wire e = false) n -> received_bodies env h n = [].
Proof.
  intros Hq. revert h. induction Hq as [|e l He _ IH]; intros h; [done|].
  cbn [received_bodies]. rewrite IH. by destruct e.
Qed.

Lemma balanced_app h n1 n2 open :
  balanced_with env h n1 [] -> balanced_with env (h ++ n1) n2 open ->
  balanced_with env h (n1 ++ n2) open.
Proof.
  unfold balanced_with. intros H1 H2. rewrite app_nil_r in H1.
  by rewrite closed_bodies_app, received_bodies_app, <- app_assoc, H1, H2.
Qed.

Lemma balanced_quiet h n :
  Forall (fun e => is_wire e = false) n -> balanced_with env h n [].
Proof. intros Hq. unfold balanced_with. by rewrite quiet_closed, quiet_received. Qed.

Lemma balanced_close h n b :
  balanced_with env h n [b] -> balanced_with env h (n ++ [EvBodyClose b]) [].
Proof.
  unfold balanced_with. intros Hb.
  rewrite closed_bodies_app, received_bodies_app, <- Hb. cbn. by rewrite !app_nil_r.
Qed.

Lemma balanced_then_quiet h n q open :
  balanced_with env h n open -> Forall (fun e => is_wire e = false) q ->
  balanced_with env h (n ++ q) open.
Proof.
  unfold balanced_with. intros Hb Hq.
  rewrite closed_bodies_app, received_bodies_app, (quiet_closed q Hq), (quiet_received _ q Hq).
  by rewrite !app_nil_r.
Qed.

Lemma balanced_after_quiet h q n open :
  Forall (fun e => is_wire e = false) q -> balanced_with env (h ++ q) n open ->
  balanced_with env h (q ++ n) open.
Proof.
  unfold balanced_with. intros Hq Hb.
  by rewrite closed_bodies_app, received_bodies_app, (quiet_closed q Hq), (quiet_received _ q Hq).
Qed.

(** The redirect loop closes every answer it follows and leaves the one
    it returns open. *)
Lemma doFollowingRedirects_balanced fuel ireq req via h :
  balanced_with env h
    (snd (doFollowingRedirects env fuel (Insecure u) (CheckRedirect u) ireq req via h))
    (match fst (doFollowingRedirects env fuel (Insecure u) (CheckRedirect u) ireq req via h) with
     | Some (Ok resp) => [Body resp]
     | _ => []
     end).
Proof.
  revert req via h. induction fuel as [|fuel IH]; intros req via h; [done|].
  rewrite doFollowingRedirects_step. cbv zeta. unfold balanced_with.
  destruct (RoundTrip env (Insecure u) h req) as [resp|e] eqn:Hrt;
    [|cbn; by rewrite Hrt].
  destruct (shouldRedirect env (Method ireq) (StatusCode resp)); [|cbn; by rewrite Hrt].
  destruct (decide (Location resp = "")); [cbn; by rewrite Hrt|].
  destruct (redirectRequest env ireq _ (Location resp)) as [nreq|e]; [|cbn; by rewrite Hrt].
  destruct (10 <=? length _)%nat; [cbn; by rewrite Hrt|].
  cbn [fst snd].
  specialize (IH (SetHTTPHeaders u nreq) (via ++ [req])
                (h ++ [EvRoundTrip (Insecure u) req; EvBodyClose (Body resp);
                       EvSetHTTPHeaders nreq])).
  unfold balanced_with in IH.
  rewrite closed_bodies_app, received_bodies_app, <- app_assoc, IH.
  cbn. by rewrite Hrt, <- !app_assoc.
Qed.

Lemma client_Do_balanced req h :
  balanced_with env h (snd (client_Do env u req h))
    (match fst (client_Do env u req h) with Ok resp => [Body resp] | Err _ => [] end).
Proof.
  destruct (client_Do_run env u req h) as (res & Hloop & Hdo).
  pose proof (doFollowingRedirects_balanced maxRequests req req [] h) as Hb.
  rewrite Hloop in Hb. rewrite Hdo at 2. exact Hb.
Qed.

(** [performRequest] closes every body it receives but the one it
    returns. *)
Lemma performRequest_balanced reqType url b draw label h :
  balanced_with env h (snd (performRequest env u reqType url b draw label h))
    (match fst (performRequest env u reqType url b draw label h) with
     | Ok body => [body]
     | Err _ => []
     end).
Proof.
  rewrite performRequest_run.
  destruct (withProgress_quiet env u b draw label h) as (_ & _ & Hn0).
  destruct (withProgress env u b draw label h) as [[b'|e] n0]; cbn [fst snd] in *.
  - assert (Hq0 : Forall (fun e => is_wire e = false) n0)
      by (destruct Hn0 as [->|[f ->]]; by repeat constructor).
    destruct (NewRequest_err env reqType url) as [e|].
    + cbn [fst snd]. apply balanced_quiet. apply Forall_app_2; [done|by repeat constructor].
    + cbv zeta.
      set (req := {| Method := reqType; URL := url; Header := []; ReqBody := b' |}).
      set (pre := n0 ++ [EvNewRequest reqType url b'; EvSetHTTPHeaders req]).
      assert (Hpre : Forall (fun e => is_wire e = false) pre)
        by (apply Forall_app_2; [done|by repeat constructor]).
      pose proof (client_Do_balanced (SetHTTPHeaders u req) (h ++ pre)) as Hdo.
      destruct (client_Do env u (SetHTTPHeaders u req) (h ++ pre)) as [[res|e] n1];
        cbn [fst snd] in *.
      * destruct ((StatusCode res =? 200) || (StatusCode res =? 400)); cbn [fst snd].
        -- by apply balanced_after_quiet.
        -- rewrite app_assoc. apply balanced_close. by apply balanced_after_quiet.
      * by apply balanced_after_quiet.
  - apply balanced_quiet. destruct Hn0 as [->|[f ->]]; by repeat constructor.
Qed.

Lemma uploadPart_balanced url b draw label h :
  balanced_with env h (snd (uploadPart env u url b draw label h)) [].
Proof.
  rewrite uploadPart_run.
  pose proof (performRequest_balanced "PUT" url b draw label h) as Hp.
  destruct (performRequest env u "PUT" url b draw label h) as [[resp|e] n]; cbn [fst snd] in *;
    [by apply balanced_close | done].
Qed.

Lemma complete_balanced url blob h :
  balanced_with env h (snd (complete env u url blob h)) [].
Proof.
  rewrite complete_run.
  pose proof (performRequest_balanced "POST" url (BytesReader blob) false "" h) as Hp.
  destruct (performRequest env u "POST" url (BytesReader blob) false "" h) as [[resp|e] n];
    cbn [fst snd] in *; [|done].
  change (n ++ [EvReadAll resp; EvBodyClose resp])
    with (n ++ [EvReadAll resp] ++ [EvBodyClose resp]).
  rewrite app_assoc. apply balanced_close. apply balanced_then_quiet; [done|by repeat constructor].
Qed.

Lemma initiateUpload_balanced initurl h :
  balanced_with env h (snd (initiateUpload env u initurl h)) [].
Proof.
  rewrite initiateUpload_run.
  assert (Hlines : Forall (fun e => is_wire e = false) (initiating_lines u))
    by (unfold initiating_lines; destruct (Debug u); by repeat constructor).
  assert (Hlines' : forall d, Forall (fun e => is_wire e = false) (initiated_lines u d))
    by (intros d; unfold initiated_lines; destruct (Debug u); by repeat constructor).
  pose proof (performRequest_balanced "POST" initurl NilBody false "" (h ++ initiating_lines u))
    as Hp.
  destruct (performRequest env u "POST" initurl NilBody false "" _) as [[resp|e] n];
    cbn [fst snd] in *.
  - destruct (body_err resp); cbv zeta; cbn [snd];
      (apply balanced_app; [by apply balanced_quiet|]).
    + change (n ++ [EvReadAll resp; EvBodyClose resp])
        with (n ++ [EvReadAll resp] ++ [EvBodyClose resp]).
      rewrite app_assoc. apply balanced_close.
      apply balanced_then_quiet; [done|by repeat constructor].
    + rewrite !app_assoc. apply balanced_close. rewrite <- app_assoc.
      apply balanced_then_quiet; [done|]. apply Forall_app_2; [by repeat constructor|done].
  - apply balanced_app; [by apply balanced_quiet|done].
Qed.

End Bodies.

Section SessionBodies.

Context (env : Env) (u : Uploader).

Lemma getInitiationURL_quiet app h :
  Forall (fun e => is_wire e = false) (snd (getInitiationURL env u app h)).
Proof. by apply getInitiationURL_Forall. Qed.

Lemma negotiate_balanced acifile ascfile h :
  balanced_with env h (snd (negotiate env u acifile ascfile h)) [].
Proof.
  unfold negotiate. run.
  destruct (ManifestFromImage env acifile) as [manifest|e];
    [|norm; cbn [snd]; apply balanced_quiet; by repeat constructor].
  destruct (NewAppFromString env (Uri u)) as [app|e];
    [|norm; cbn [snd]; apply balanced_quiet; by repeat constructor].
  destruct (resolveLabels env manifest (App_Labels app)) as [labels|e];
    [|norm; cbn [snd]; apply balanced_quiet; by repeat constructor].
  destruct (File_Seek env acifile) as [e|];
    [norm; cbn [snd]; apply balanced_quiet; by repeat constructor|].
  destruct (MarshalJSON env manifest) as [manblob|e];
    [|norm; cbn [snd]; apply balanced_quiet; by repeat constructor].
  norm.
  pose proof (getInitiationURL_quiet {| App_Name := App_Name app; App_Labels := labels |}
                (h ++ [EvManifestFromImage acifile; EvSeek acifile])) as Hg.
  destruct (getInitiationURL env u _ _) as [[initurl|e] n]; cbn [snd] in Hg; norm.
  - pose proof (initiateUpload_balanced env u initurl
                  (h ++ EvManifestFromImage acifile :: EvSeek acifile :: n)) as Hi.
    destruct (initiateUpload env u initurl _) as [i n']. cbn [snd] in Hi.
    assert (Hall : balanced_with env h
                     ((EvManifestFromImage acifile :: EvSeek acifile :: n) ++ n') []).
    { apply balanced_after_quiet; [|done]. by repeat (constructor; [done|]). }
    destruct i as [e|d [e|]]; norm; cbn [snd]; exact Hall.
  - cbn [snd]. apply balanced_quiet. by repeat (constructor; [done|]).
Qed.

Lemma uploadLoop_balanced initDeets parts h :
  balanced_with env h (snd (uploadLoop env u initDeets parts h)) [].
Proof.
  revert h. induction parts as [|part parts IH]; intros h; [done|].
  rewrite uploadLoop_cons.
  pose proof (uploadPart_balanced env u (url part) (r part) (draw part) (label part) h) as Hp.
  destruct (uploadPart env u (url part) (r part) (draw part) (label part) h) as [[err|] n1];
    cbn [snd] in *.
  - cbv zeta. cbn [snd]. apply balanced_app; [done|].
    rewrite reportFailure_run. apply complete_balanced.
  - apply balanced_app; [done|apply IH].
Qed.

Lemma uploadAndReport_balanced initDeets manblob ascfile acifile h :
  balanced_with env h (snd (uploadAndReport env u initDeets manblob ascfile acifile h)) [].
Proof.
  unfold uploadAndReport. rewrite bind_snd.
  pose proof (uploadLoop_balanced initDeets (partsToUpload initDeets manblob ascfile acifile) h)
    as Hl.
  destruct (fst (uploadLoop env u initDeets _ h)) as [err|].
  - apply balanced_app; [done|]. by apply balanced_quiet.
  - apply balanced_app; [done|]. rewrite bind_snd, reportSuccess_run.
    apply balanced_app; [apply complete_balanced|].
    destruct (fst (complete env u _ _ _)); by apply balanced_quiet.
Qed.

Lemma Upload_files_balanced acifile ascfile h :
  balanced_with env h (snd (Upload_files env u acifile ascfile h)) [].
Proof.
  pose proof (negotiate_balanced acifile ascfile h) as Hn.
  destruct (negotiate env u acifile ascfile h) as [[[manblob initDeets]|e] n] eqn:Hneg;
    cbn [snd] in Hn.
  - rewrite (Upload_files_initiated env u _ _ _ _ _ _ Hneg). cbn [snd].
    apply balanced_app; [done|apply uploadAndReport_balanced].
  - by rewrite (Upload_files_fail env u _ _ _ _ _ Hneg).
Qed.

End SessionBodies.

(** X4.  The response bodies are released.  In a session every response
    body that is received - the answers that are redirects, the answers
    with a bad status, and the answers handed to [initiateUpload],
    [uploadPart] and [complete] - is closed, once, and in the order of
    arrival; nothing else is closed. *)
Theorem bodies_released (env : Env) (u : Uploader) (h : list event) :
  closed_bodies (snd (Upload env u h)) = received_bodies env h (snd (Upload env u h)).
Proof.
  assert (Hgoal : balanced_with env h (snd (Upload env u h)) []);
    [|unfold balanced_with in Hgoal; by rewrite app_nil_r in Hgoal].
  destruct (os_Open env (Acipath u)) as [acifile|e] eqn:Ho.
  - destruct (os_Open env (Ascpath u)) as [ascfile|e] eqn:Ho'.
    + rewrite (Upload_opened env u h _ _ Ho Ho'). cbn [snd].
      apply balanced_after_quiet; [by repeat constructor|].
      apply balanced_then_quiet; [apply Upload_files_balanced|by repeat constructor].
    + rewrite (Upload_open_asc_fail env u h _ _ Ho Ho'). cbn [snd].
      apply balanced_quiet. by repeat constructor.
  - rewrite (Upload_open_aci_fail env u h _ Ho). apply balanced_quiet. by repeat constructor.
Qed.

(** ** Discovery and the first request *)

Section Discovery.

Context (env : Env) (u : Uploader).

Lemma new_request_on_requests : on_requests new_request.
Proof. by intros []. Qed.

Lemma network_calls_app l1 l2 : network_calls (l1 ++ l2) = network_calls l1 ++ network_calls l2.
Proof. apply filter_app. Qed.

Lemma stderr_attempts_network attempts h :
  network_calls (snd (stderr_attempts attempts h)) = [].
Proof.
  revert h. induction attempts as [|[prefix err] attempts IH]; intros h; [done|].
  cbn [stderr_attempts]. rewrite bind_snd. unfold stderr at 1, emit. cbn [fst snd].
  by rewrite network_calls_app, IH.
Qed.

(** [getInitiationURL], its result and its one call. *)
Lemma getInitiationURL_run app h :
  fst (getInitiationURL env u app h) =
    match DiscoverEndpoints env app (Insecure u) with
    | (_, _, Some e) => Err e
    | ([], _, None) => Err (Errorf "no endpoints discovered")
    | (ep :: _, _, None) => Ok ep
    end /\
  network_calls (snd (getInitiationURL env u app h)) = [EvDiscover app (Insecure u)].
Proof.
  unfold getInitiationURL. run.
  destruct (DiscoverEndpoints env app (Insecure u)) as [[eps attempts] err].
  destruct (Debug u); norm.
  - pose proof (stderr_attempts_network attempts
                  (h ++ [EvStderr (TrimSuffix_newline "searching for push endpoint via meta discovery");
                         EvDiscover app (Insecure u)])) as Hs.
    destruct (stderr_attempts attempts _) as [[] n]. cbn [snd] in Hs.
    destruct err as [e|], eps as [|ep eps]; norm; cbn [fst snd]; (split; [done|]).
    all: change (network_calls (EvStderr ?a :: EvDiscover ?b ?c :: ?l))
           with (EvDiscover b c :: network_calls l).
    all: by rewrite ?network_calls_app, Hs.
  - destruct err as [e|], eps as [|ep eps]; by norm.
Qed.

Lemma initiateUpload_all_requests initurl h :
  all_requests (snd (initiateUpload env u initurl h)) = [("POST", initurl, NilBody)].
Proof.
  rewrite initiateUpload_run.
  pose proof (performRequest_requests env u new_request new_request_on_requests
                "POST" initurl NilBody false "" (h ++ initiating_lines u)) as Hp.
  rewrite withProgress_run in Hp. cbn [fst] in Hp.
  change (omap new_request [_]) with [("POST", initurl, NilBody)] in Hp.
  assert (Hlines : all_requests (initiating_lines u) = [])
    by (unfold initiating_lines; by destruct (Debug u)).
  assert (Hlines' : forall d, all_requests (initiated_lines u d) = [])
    by (intros d; unfold initiated_lines; by destruct (Debug u)).
  unfold all_requests in *.
  destruct (performRequest env u "POST" initurl NilBody false "" _) as [[resp|e] n];
    cbn [snd] in *.
  - destruct (body_err resp); cbv zeta; cbn [snd];
      by rewrite !omap_app, ?Hlines, ?Hlines', Hp.
  - by rewrite omap_app, Hlines, Hp.
Qed.

(** Lines 91-140 once the manifest is marshalled: the discovery, and the
    initiation at the first endpoint. *)
Lemma negotiate_discovery acifile ascfile h manifest app labels manblob :
  ManifestFromImage env acifile = Ok manifest ->
  NewAppFromString env (Uri u) = Ok app ->
  resolveLabels env manifest (App_Labels app) = Ok labels ->
  File_Seek env acifile = None ->
  MarshalJSON env manifest = Ok manblob ->
  let app' := {| App_Name := App_Name app; App_Labels := labels |} in
  match fst (getInitiationURL env u app' (h ++ [EvManifestFromImage acifile; EvSeek acifile])) with
  | Err e =>
      fst (negotiate env u acifile ascfile h) = Err e /\
      network_calls (snd (negotiate env u acifile ascfile h)) = [EvDiscover app' (Insecure u)]
  | Ok initurl =>
      all_requests (snd (negotiate env u acifile ascfile h)) = [("POST", initurl, NilBody)]
  end.
Proof.
  intros Hm Ha Hl Hs Hj app'. unfold negotiate. run. rewrite Hm, Ha, Hl, Hs, Hj. norm.
  fold app'.
  destruct (getInitiationURL_run app' (h ++ [EvManifestFromImage acifile; EvSeek acifile]))
    as [_ Hnet].
  pose proof (getInitiationURL_requests env u new_request new_request_on_requests app'
                (h ++ [EvManifestFromImage acifile; EvSeek acifile])) as Hreq.
  destruct (getInitiationURL env u app' _) as [[initurl|e] n]; cbn [fst snd] in *; norm.
  - pose proof (initiateUpload_all_requests initurl
                  (h ++ EvManifestFromImage acifile :: EvSeek acifile :: n)) as Hi.
    destruct (initiateUpload env u initurl _) as [i n']. cbn [snd] in Hi.
    unfold all_requests in *.
    destruct i as [e|d [e|]]; norm; cbn [snd];
      change (omap new_request (?a :: ?b :: ?l)) with (omap new_request l);
      by rewrite omap_app, Hreq, Hi.
  - cbn [fst snd]. split; [done|].
    change (network_calls (?a :: ?b :: ?l)) with (network_calls l). done.
Qed.

End Discovery.

(** X5.  Discovery decides where the session starts.  With the files
    open and the manifest, the name, the labels, the rewinding and the
    marshalling in order: when discovery fails, [Upload] returns its
    error, and when it finds no endpoint, the error "no endpoints
    discovered"; in both cases the discovery is the only network call of
    the session (an error of discovery counts even if endpoints come with
    it).  Otherwise the first request of the session is the initiation: a
    [POST] without body to the first endpoint of the list, whatever else
    the list holds. *)
Theorem discovery_decides (env : Env) (u : Uploader) (h : list event) (acifile ascfile : File)
    (manifest : ImageManifest) (app : App) (labels : gmap string string) (manblob : string)
    (eps : list string) (attempts : list (string * error)) (err : option error) :
  os_Open env (Acipath u) = Ok acifile ->
  os_Open env (Ascpath u) = Ok ascfile ->
  ManifestFromImage env acifile = Ok manifest ->
  NewAppFromString env (Uri u) = Ok app ->
  resolveLabels env manifest (App_Labels app) = Ok labels ->
  File_Seek env acifile = None ->
  MarshalJSON env manifest = Ok manblob ->
  let app' := {| App_Name := App_Name app; App_Labels := labels |} in
  DiscoverEndpoints env app' (Insecure u) = (eps, attempts, err) ->
  match err, eps with
  | Some e, _ =>
      fst (Upload env u h) = Some e /\
      network_calls (snd (Upload env u h)) = [EvDiscover app' (Insecure u)]
  | None, [] =>
      fst (Upload env u h) = Some (Errorf "no endpoints discovered") /\
      network_calls (snd (Upload env u h)) = [EvDiscover app' (Insecure u)]
  | None, ep :: _ =>
      exists later, all_requests (snd (Upload env u h)) = ("POST", ep, NilBody) :: later
  end.
Proof.
  intros Ho Ho' Hm Ha Hl Hs Hj app' Hd.
  pose proof (negotiate_discovery env u acifile ascfile
                (h ++ [EvOpen (Acipath u); EvOpen (Ascpath u)]) manifest app labels manblob
                Hm Ha Hl Hs Hj) as Hneg.
  cbv zeta in Hneg. fold app' in Hneg.
  destruct (getInitiationURL_run env u app'
              ((h ++ [EvOpen (Acipath u); EvOpen (Ascpath u)])
                 ++ [EvManifestFromImage acifile; EvSeek acifile])) as [Hres _].
  rewrite Hd in Hres. rewrite Hres in Hneg.
  rewrite (Upload_opened env u h _ _ Ho Ho').
  destruct err as [e|], eps as [|ep eps].
  1-3: destruct Hneg as [Hfst Hnet];
       destruct (negotiate env u acifile ascfile _) as [res n] eqn:Hn; cbn [fst snd] in *;
       subst res; rewrite (Upload_files_fail env u _ _ _ _ _ Hn); cbn [fst snd];
       (split; [done|]);
       change (network_calls ([?a; ?b] ++ ?l)) with (network_calls l);
       by rewrite network_calls_app, Hnet.
  cbn [snd]. unfold all_requests in *.
  change (omap new_request ([?a; ?b] ++ ?l)) with (omap new_request l).
  rewrite omap_app.
  destruct (negotiate env u acifile ascfile _) as [[[mb d]|e] n] eqn:Hn; cbn [snd] in Hneg.
  - rewrite (Upload_files_initiated env u _ _ _ _ _ _ Hn). cbn [snd].
    rewrite omap_app, Hneg. by eexists.
  - rewrite (Upload_files_fail env u _ _ _ _ _ Hn). cbn [snd]. rewrite Hneg. by eexists.
Qed.

Lemma discovery_decides_witness :
  let env := Sample.without_endpoints (Sample.env Sample.manifest ∅ Sample.good_server) in
  fst (Upload env (Sample.uploader true) []) = Some (Errorf "no endpoints discovered") /\
  network_calls (snd (Upload env (Sample.uploader true) []))
    = [EvDiscover
         {| App_Name := "example.com/app";
            App_Labels := <["ext" := "aci"]> (<["os" := "linux"]> (<["arch" := "amd64"]> ∅)) |}
         false].
Proof.
  intros env.
  exact (discovery_decides env (Sample.uploader true) [] Sample.acifile Sample.ascfile
           Sample.manifest {| App_Name := "example.com/app"; App_Labels := ∅ |}
           (<["ext" := "aci"]> (<["os" := "linux"]> (<["arch" := "amd64"]> ∅)))
           Sample.manifest_doc [] [("example.com", LibError "expected a 200 OK got 404")] None
           eq_refl eq_refl eq_refl eq_refl eq_refl eq_refl eq_refl eq_refl).
Defined.

Lemma negotiate_network (env : Env) (u : Uploader) (acifile ascfile : File) (h : list event) :
  network_calls (snd (negotiate env u acifile ascfile h)) = [] \/
  exists manifest app labels manblob later,
    ManifestFromImage env acifile = Ok manifest /\
    NewAppFromString env (Uri u) = Ok app /\
    resolveLabels env manifest (App_Labels app) = Ok labels /\
    File_Seek env acifile = None /\
    MarshalJSON env manifest = Ok manblob /\
    network_calls (snd (negotiate env u acifile ascfile h))
      = EvDiscover {| App_Name := App_Name app; App_Labels := labels |} (Insecure u) :: later.
Proof.
  unfold negotiate. run.
  destruct (ManifestFromImage env acifile) as [manifest|e] eqn:Hm; norm; [|by left].
  destruct (NewAppFromString env (Uri u)) as [app|e] eqn:Ha; norm; [|by left].
  destruct (resolveLabels env manifest (App_Labels app)) as [labels|e] eqn:Hl; norm; [|by left].
  destruct (File_Seek env acifile) as [e|] eqn:Hs; norm; [by left|].
  destruct (MarshalJSON env manifest) as [manblob|e] eqn:Hj; norm; [|by left].
  right. exists manifest, app, labels, manblob.
  destruct (getInitiationURL_run env u {| App_Name := App_Name app; App_Labels := labels |}
              (h ++ [EvManifestFromImage acifile; EvSeek acifile])) as [_ Hnet].
  destruct (getInitiationURL env u _ _) as [[initurl|e] n]; cbn [snd] in Hnet; norm.
  - destruct (initiateUpload env u initurl _) as [i n'].
    exists (network_calls n'). do 5 (split; [done|]).
    destruct i as [e|d [e|]]; norm; cbn [snd];
      change (network_calls (?a :: ?b :: ?l)) with (network_calls l);
      by rewrite network_calls_app, Hnet.
  - exists []. do 5 (split; [done|]). cbn [snd].
    change (network_calls (?a :: ?b :: ?l)) with (network_calls l). done.
Qed.

(** X6.  Nothing on the network before the local work is done.  If a
    session reaches the network at all, then both files were opened, the
    manifest was read from the image, the name was parsed, the labels were
    resolved, the image was rewound and the manifest was marshalled, all
    without error; and the first network call of the session is the
    discovery, for the name of the URI with the resolved labels and with
    the TLS policy of the uploader. *)
Theorem discovery_first (env : Env) (u : Uploader) (h : list event) :
  network_calls (snd (Upload env u h)) <> [] ->
  exists acifile ascfile manifest app labels manblob later,
    os_Open env (Acipath u) = Ok acifile /\
    os_Open env (Ascpath u) = Ok ascfile /\
    ManifestFromImage env acifile = Ok manifest /\
    NewAppFromString env (Uri u) = Ok app /\
    resolveLabels env manifest (App_Labels app) = Ok labels /\
    File_Seek env acifile = None /\
    MarshalJSON env manifest = Ok manblob /\
    network_calls (snd (Upload env u h))
      = EvDiscover {| App_Name := App_Name app; App_Labels := labels |} (Insecure u) :: later.
Proof.
  intros Hnet.
  destruct (os_Open env (Acipath u)) as [acifile|e] eqn:Ho.
  2: { by rewrite (Upload_open_aci_fail env u h e Ho) in Hnet. }
  destruct (os_Open env (Ascpath u)) as [ascfile|e] eqn:Ho'.
  2: { by rewrite (Upload_open_asc_fail env u h acifile e Ho Ho') in Hnet. }
  rewrite (Upload_opened env u h _ _ Ho Ho') in Hnet |- *. cbn [snd] in Hnet |- *.
  change (network_calls ([?a; ?b] ++ ?l)) with (network_calls l) in Hnet |- *.
  rewrite network_calls_app in Hnet |- *.
  change (network_calls [EvFileClose ascfile; EvFileClose acifile]) with (@nil event) in Hnet |- *.
  rewrite app_nil_r in Hnet |- *.
  set (h' := h ++ [EvOpen (Acipath u); EvOpen (Ascpath u)]) in *.
  destruct (negotiate_network env u acifile ascfile h')
    as [Hnone|(manifest & app & labels & manblob & later & Hm & Ha & Hl & Hs & Hj & Hn)].
  - exfalso. apply Hnet.
    destruct (negotiate env u acifile ascfile h') as [[[mb d]|e] n] eqn:Hneg; cbn [snd] in Hnone.
    + unfold negotiate in Hneg. revert Hneg. run.
      destruct (ManifestFromImage env acifile) as [manifest|e] eqn:Hm; norm; [|done].
      destruct (NewAppFromString env (Uri u)) as [app|e] eqn:Ha; norm; [|done].
      destruct (resolveLabels env manifest (App_Labels app)) as [labels|e] eqn:Hl; norm; [|done].
      destruct (File_Seek env acifile) as [e|] eqn:Hs; norm; [done|].
      destruct (MarshalJSON env manifest) as [manblob|e] eqn:Hj; norm; [|done].
      destruct (getInitiationURL_run env u {| App_Name := App_Name app; App_Labels := labels |}
                  (h' ++ [EvManifestFromImage acifile; EvSeek acifile])) as [_ Hd].
      destruct (getInitiationURL env u _ _) as [[initurl|e] n0]; cbn [snd] in Hd; norm; [|done].
      destruct (initiateUpload env u initurl _) as [i n'].
      destruct i as [e|d' [e|]]; norm; try done.
      intros [= _ _ <-]. exfalso. revert Hnone.
      change (network_calls (?a :: ?b :: ?l)) with (network_calls l).
      by rewrite network_calls_app, Hd.
    + by rewrite (Upload_files_fail env u _ _ _ _ _ Hneg).
  - exists acifile, ascfile, manifest, app, labels, manblob.
    destruct (negotiate env u acifile ascfile h') as [[[mb d]|e] n] eqn:Hneg; cbn [snd] in Hn.
    + rewrite (Upload_files_initiated env u _ _ _ _ _ _ Hneg). cbn [snd].
      rewrite network_calls_app, Hn. eexists. do 7 (split; [done|]). done.
    + rewrite (Upload_files_fail env u _ _ _ _ _ Hneg). cbn [snd]. rewrite Hn.
      eexists. do 7 (split; [done|]). done.
Qed.

Lemma discovery_first_witness :
  let env := Sample.env Sample.manifest ∅ Sample.good_server in
  exists acifile ascfile manifest app labels manblob later,
    os_Open env "app.aci" = Ok acifile /\
    os_Open env "app.aci.asc" = Ok ascfile /\
    ManifestFromImage env acifile = Ok manifest /\
    NewAppFromString env "example.com/app" = Ok app /\
    resolveLabels env manifest (App_Labels app) = Ok labels /\
    File_Seek env acifile = None /\
    MarshalJSON env manifest = Ok manblob /\
    network_calls (snd (Upload env (Sample.uploader false) []))
      = EvDiscover {| App_Name := App_Name app; App_Labels := labels |} false :: later.
Proof.
  intros env.
  apply (discovery_first env (Sample.uploader false) []).
  vm_compute. discriminate.
Defined.

(** ** The order of the requests *)

Section Order.

Context (env : Env) (u : Uploader).

Lemma puts_then_posts_app n1 n2 :
  puts_then_posts n1 -> completion_posts n1 = [] -> puts_then_posts n2 ->
  puts_then_posts (n1 ++ n2).
Proof.
  unfold puts_then_posts, all_requests, put_requests, completion_posts.
  intros H1 H1' H2. rewrite !omap_app, H1, H2, H1', map_app. cbn [map].
  by rewrite app_nil_r, app_assoc.
Qed.

Lemma uploadPart_order url b draw label h :
  puts_then_posts (snd (uploadPart env u url b draw label h)).
Proof.
  unfold puts_then_posts.
  rewrite uploadPart_puts, uploadPart_no_completion, uploadPart_run.
  pose proof (performRequest_requests env u new_request new_request_on_requests
                "PUT" url b draw label h) as Hp.
  unfold all_requests.
  destruct (performRequest env u "PUT" url b draw label h) as [[resp|e] n]; cbn [snd] in *;
    rewrite ?omap_app, Hp; by destruct (fst (withProgress env u b draw label h)).
Qed.

Lemma complete_order url blob h :
  puts_then_posts (snd (complete env u url blob h)).
Proof.
  unfold puts_then_posts.
  rewrite complete_puts, complete_posts, complete_run.
  pose proof (performRequest_requests env u new_request new_request_on_requests
                "POST" url (BytesReader blob) false "" h) as Hp.
  rewrite withProgress_run in Hp. cbn [fst] in Hp.
  unfold all_requests.
  destruct (performRequest env u "POST" url (BytesReader blob) false "" h) as [[resp|e] n];
    cbn [snd] in *; by rewrite ?omap_app, Hp.
Qed.

Lemma uploadLoop_order initDeets parts h :
  puts_then_posts (snd (uploadLoop env u initDeets parts h)) /\
  (fst (uploadLoop env u initDeets parts h) = None ->
   completion_posts (snd (uploadLoop env u initDeets parts h)) = []).
Proof.
  revert h. induction parts as [|part parts IH]; intros h; [by split|].
  rewrite uploadLoop_cons.
  pose proof (uploadPart_order (url part) (r part) (draw part) (label part) h) as Hpart.
  pose proof (uploadPart_no_completion env u (url part) (r part) (draw part) (label part) h)
    as Hnone.
  destruct (uploadPart env u (url part) (r part) (draw part) (label part) h) as [[err|] n1];
    cbn [snd] in Hpart, Hnone; cbv zeta; cbn [fst snd].
  - split; [|done]. apply puts_then_posts_app; [done..|].
    rewrite reportFailure_run. apply complete_order.
  - destruct (IH (h ++ n1)) as [Hrest Hrest']. split.
    + by apply puts_then_posts_app.
    + intros Hok. unfold completion_posts in *. by rewrite omap_app, Hnone, Hrest'.
Qed.

Lemma uploadAndReport_order initDeets manblob ascfile acifile h :
  puts_then_posts (snd (uploadAndReport env u initDeets manblob ascfile acifile h)).
Proof.
  unfold uploadAndReport. rewrite bind_snd.
  destruct (uploadLoop_order initDeets (partsToUpload initDeets manblob ascfile acifile) h)
    as [Hloop Hloop'].
  destruct (uploadLoop env u initDeets _ h) as [[err|] n]; cbn [fst snd] in *.
  - unfold ret. cbn [snd]. by rewrite app_nil_r.
  - apply puts_then_posts_app; [done|by apply Hloop'|]. rewrite bind_snd.
    pose proof (complete_order (CompletedURL initDeets)
                  (fst (Marshal_completeMsg env
                          {| Success := true; Reason := ""; ServerReason := "" |})) (h ++ n))
      as Hreport.
    rewrite <- reportSuccess_run in Hreport.
    destruct (reportSuccess env u (CompletedURL initDeets) (h ++ n)) as [[e|] n'];
      unfold ret; cbn [fst snd] in *; by rewrite app_nil_r.
Qed.

Lemma negotiate_all_requests acifile ascfile h :
  (all_requests (snd (negotiate env u acifile ascfile h)) = [] /\
   exists e, fst (negotiate env u acifile ascfile h) = Err e) \/
  exists initurl,
    all_requests (snd (negotiate env u acifile ascfile h)) = [("POST", initurl, NilBody)].
Proof.
  unfold negotiate. run.
  destruct (ManifestFromImage env acifile) as [manifest|e]; norm; [|left; eauto].
  destruct (NewAppFromString env (Uri u)) as [app|e]; norm; [|left; eauto].
  destruct (resolveLabels env manifest (App_Labels app)) as [labels|e]; norm; [|left; eauto].
  destruct (File_Seek env acifile) as [e|]; norm; [left; eauto|].
  destruct (MarshalJSON env manifest) as [manblob|e]; norm; [|left; eauto].
  pose proof (getInitiationURL_requests env u new_request new_request_on_requests
                {| App_Name := App_Name app; App_Labels := labels |}
                (h ++ [EvManifestFromImage acifile; EvSeek acifile])) as Hreq.
  destruct (getInitiationURL env u _ _) as [[initurl|e] n]; cbn [snd] in Hreq; norm.
  - right. exists initurl.
    pose proof (initiateUpload_all_requests env u initurl
                  (h ++ EvManifestFromImage acifile :: EvSeek acifile :: n)) as Hi.
    destruct (initiateUpload env u initurl _) as [i n']. cbn [snd] in Hi.
    unfold all_requests in *.
    destruct i as [e|d [e|]]; norm; cbn [snd];
      change (omap new_request (?a :: ?b :: ?l)) with (omap new_request l);
      by rewrite omap_app, Hreq, Hi.
  - left. cbn [fst snd]. split; [|eauto]. unfold all_requests in *.
    by change (omap new_request (?a :: ?b :: ?l)) with (omap new_request l).
Qed.

End Order.

(** X7.  The order of the requests.  The requests a session makes with
    [http.NewRequest] are, in this order: the initiation, a [POST] without
    body; the [PUT]s of the parts; the completion message, a [POST] with a
    byte body.  No part is sent before the initiation or after the
    completion message, and a session that makes no initiation makes no
    request at all. *)
Theorem requests_in_order (env : Env) (u : Uploader) (h : list event) :
  let session := snd (Upload env u h) in
  (all_requests session = [] /\ exists e, fst (Upload env u h) = Some e) \/
  exists initurl,
    all_requests session =
      ("POST", initurl, NilBody)
        :: map as_PUT (put_requests session) ++ map as_POST (completion_posts session).
Proof.
  cbv zeta.
  destruct (os_Open env (Acipath u)) as [acifile|e] eqn:Ho.
  2: { rewrite (Upload_open_aci_fail env u h e Ho). left. eauto. }
  destruct (os_Open env (Ascpath u)) as [ascfile|e] eqn:Ho'.
  2: { rewrite (Upload_open_asc_fail env u h acifile e Ho Ho'). left. eauto. }
  rewrite (Upload_opened env u h _ _ Ho Ho'). cbn [fst snd].
  set (h' := h ++ [EvOpen (Acipath u); EvOpen (Ascpath u)]).
  assert (Hwrap : forall {A} (f : event -> option A) n, on_requests f ->
            omap f ([EvOpen (Acipath u); EvOpen (Ascpath u)] ++ n
                      ++ [EvFileClose ascfile; EvFileClose acifile]) = omap f n).
  { intros A f n Hf. rewrite !omap_app. cbn. rewrite !Hf by done. by rewrite app_nil_r. }
  unfold all_requests, put_requests, completion_posts.
  rewrite !Hwrap
    by (apply new_request_on_requests || apply put_request_on_requests
        || apply completion_post_on_requests).
  pose proof (negotiate_puts env u acifile ascfile h') as Hputs.
  pose proof (negotiate_posts env u acifile ascfile h') as Hposts.
  destruct (negotiate_all_requests env u acifile ascfile h') as [[Hnone [e He]]|[initurl Hinit]].
  - left. destruct (negotiate env u acifile ascfile h') as [res n] eqn:Hneg.
    cbn [fst snd] in *. subst res.
    rewrite (Upload_files_fail env u _ _ _ _ _ Hneg). eauto.
  - right. exists initurl.
    destruct (negotiate env u acifile ascfile h') as [[[manblob d]|e] n] eqn:Hneg;
      cbn [snd] in *.
    + rewrite (Upload_files_initiated env u _ _ _ _ _ _ Hneg). cbn [snd].
      unfold all_requests, put_requests, completion_posts in *.
      rewrite !omap_app, Hinit, Hputs, Hposts.
      by rewrite (uploadAndReport_order env u d manblob ascfile acifile (h' ++ n)).
    + rewrite (Upload_files_fail env u _ _ _ _ _ Hneg). cbn [snd].
      unfold all_requests, put_requests, completion_posts in *.
      by rewrite Hinit, Hputs, Hposts.
Qed.

(** ** The lines on standard error *)

Lemma TrimSuffix_newline_append (s : string) : TrimSuffix_newline (s +:+ newline) = s.
Proof.
  induction s as [|c s IH]; [done|].
  change (String c s +:+ newline) with (String c (s +:+ newline)).
  cbn [TrimSuffix_newline].
  destruct (decide (s +:+ newline = EmptyString)) as [Hempty|_]; [by destruct s|].
  by rewrite IH.
Qed.

Lemma TrimSuffix_newline_spec (s : string) :
  s = TrimSuffix_newline s \/ s = TrimSuffix_newline s +:+ newline.
Proof.
  induction s as [|c s IH]; [by left|].
  cbn [TrimSuffix_newline].
  destruct (decide (s = EmptyString)) as [->|Hs].
  - destruct (decide (c = "010"%char)) as [->|_]; [by right|by left].
  - destruct IH as [IH|IH]; [left; by rewrite <- IH|right].
    change (String c s = String c (TrimSuffix_newline s +:+ newline)). by rewrite <- IH.
Qed.

(** X8.  One line per message.  [stderr] prints a message that ends in a
    newline without that newline (the line feed is the one [Fprintln]
    adds), so a format with and a format without the final newline give
    the same line; it removes nothing else: what it prints is the message,
    or the message without its last newline. *)
Theorem stderr_one_line (out : string) (h : list event) :
  stderr (out +:+ newline) h = (tt, [EvStderr out]) /\
  exists line,
    stderr out h = (tt, [EvStderr line]) /\ (out = line \/ out = line +:+ newline).
Proof.
  unfold stderr, emit. rewrite TrimSuffix_newline_append. split; [done|].
  exists (TrimSuffix_newline out). split; [done|]. apply TrimSuffix_newline_spec.
Qed.

(** ** The completion message and its reply *)

(** X9.  The flag of a completion message is on the wire.  Marshalling a
    completion message never fails, and two messages with the same bytes
    have the same [success]: whatever the reason says, and however the
    encoder quotes it, a report of failure is never the bytes of a report
    of success.  A message without reasons is the object with the one
    member [success]. *)
Theorem completion_message_flag (env : Env) (m m' : completeMsg) :
  snd (Marshal_completeMsg env m) = None /\
  (fst (Marshal_completeMsg env m) = fst (Marshal_completeMsg env m') ->
   Success m = Success m') /\
  (Reason m = "" -> ServerReason m = "" ->
   fst (Marshal_completeMsg env m)
     = "{" +:+ quoted "success" +:+ ":" +:+ (if Success m then "true}" else "false}")).
Proof.
  split; [done|]. split.
  - unfold Marshal_completeMsg. cbn [fst].
    destruct (Success m), (Success m'); try done; cbn; intros H; discriminate H.
  - intros Hr Hs. unfold Marshal_completeMsg. cbn [fst]. rewrite Hr, Hs.
    by destruct (Success m).
Qed.

Lemma completion_message_flag_witness :
  fst (Marshal_completeMsg (Sample.env Sample.manifest ∅ Sample.good_server)
         {| Success := true; Reason := ""; ServerReason := "" |})
    = Sample.success_doc.
Proof.
  exact (proj2 (proj2 (completion_message_flag
                         (Sample.env Sample.manifest ∅ Sample.good_server)
                         {| Success := true; Reason := ""; ServerReason := "" |}
                         zero_completeMsg)) eq_refl eq_refl).
Defined.

Section Reply.

Context (env : Env).

(** A reply in which no member is decoded into [Success] leaves it as it
    was, whatever the other members are. *)
Lemma decode_members_keeps_success members : forall m saved,
  Forall (fun kv => completeField_of env (fst kv) <> Some F_Success) members ->
  Success (fst (decode_members (equalFold env) completeField_name completeFields
                  store_completeField members m saved)) = Success m.
Proof.
  induction members as [|[key v] members IH]; intros m saved Habs; [done|].
  apply Forall_cons in Habs as [Hne Habs]. cbn [fst] in Hne. cbn [decode_members].
  fold (completeField_of env key).
  destruct (completeField_of env key) as [f|]; [|by apply IH].
  destruct (store_completeField f v m) as [m' e] eqn:Hstore.
  rewrite (IH m' _ Habs).
  destruct f; [done| |]; cbn [store_completeField] in Hstore.
  - destruct (store_string v (Reason m)). by simplify_eq.
  - destruct (store_string v (ServerReason m)). by simplify_eq.
Qed.

End Reply.

(** X10.  Silence is a rejection.  When the completion message is
    answered with a body that is read in full and that does not set
    [success] - the JSON [null], the empty object, or an object in which
    no member is decoded into the field - [complete] returns an error,
    whatever the client reported: for [null] and for the empty object the
    error with the empty text. *)
Theorem silent_reply_rejected (env : Env) (u : Uploader) (url blob : string) (h : list event)
    (resp : respBody) (n : list event) :
  performRequest env u "POST" url (BytesReader blob) false "" h = (Ok resp, n) ->
  body_err resp = None ->
  (json_parse env (body_bytes resp) = Ok JNull ->
   fst (complete env u url blob h) = Some (Errorf "")) /\
  (json_parse env (body_bytes resp) = Ok (JObject []) ->
   fst (complete env u url blob h) = Some (Errorf "")) /\
  (forall members,
     json_parse env (body_bytes resp) = Ok (JObject members) ->
     Forall (fun kv => completeField_of env (fst kv) <> Some F_Success) members ->
     fst (complete env u url blob h) <> None).
Proof.
  intros Hreq Hread. rewrite complete_run, Hreq, Hread. cbn [fst].
  unfold Unmarshal_completeMsg, Unmarshal_struct.
  split; [|split].
  - by intros ->.
  - by intros ->.
  - intros members -> Habs.
    pose proof (decode_members_keeps_success env members zero_completeMsg None Habs) as Hkeep.
    destruct (decode_members _ _ _ _ members zero_completeMsg None) as [reply [e|]]; [done|].
    cbn [fst] in Hkeep. by rewrite Hkeep.
Qed.

Lemma silent_reply_rejected_witness :
  fst (complete (Sample.env Sample.manifest ∅ (fun _ _ _ => Sample.reply 200 "{}"))
         (Sample.uploader false) "https://example.com/complete" Sample.success_doc [])
    = Some (Errorf "").
Proof.
  exact (proj1 (proj2 (silent_reply_rejected
                         (Sample.env Sample.manifest ∅ (fun _ _ _ => Sample.reply 200 "{}"))
                         (Sample.uploader false) "https://example.com/complete"
                         Sample.success_doc [] {| body_bytes := "{}"; body_err := None |} _
                         eq_refl eq_refl)) eq_refl).
Defined.

(** ** What a session without error has done *)

(** Lines 142-170 return no error only when all three parts have uploaded
    and the report of success was answered with [success]. *)
Lemma uploadAndReport_nil (env : Env) (u : Uploader) (initDeets : initiateDetails)
    (manblob : string) (ascfile acifile : File) (h : list event) :
  fst (uploadAndReport env u initDeets manblob ascfile acifile h) = None ->
  exists n_up resp n_req reply,
    uploaded env u (partsToUpload initDeets manblob ascfile acifile) h n_up /\
    performRequest env u "POST" (CompletedURL initDeets)
      (BytesReader (fst (Marshal_completeMsg env
                           {| Success := true; Reason := ""; ServerReason := "" |})))
      false "" (h ++ n_up) = (Ok resp, n_req) /\
    body_err resp = None /\
    Unmarshal_completeMsg env (body_bytes resp) zero_completeMsg = (reply, None) /\
    Success reply = true /\
    snd (uploadAndReport env u initDeets manblob ascfile acifile h)
      = n_up ++ n_req ++ [EvReadAll resp; EvBodyClose resp].
Proof.
  intros Hnil.
  destruct (uploadLoop_split env u (partsToUpload initDeets manblob ascfile acifile) h)
    as (done & rest & n_up & Hparts & Hup & Hrest).
  destruct rest as [|part rest].
  - rewrite app_nil_r in Hparts. subst done.
    rewrite (uploadAndReport_uploaded env u initDeets _ _ _ _ _ Hup) in Hnil |- *.
    cbn [fst snd] in *. rewrite reportSuccess_run, complete_run in Hnil |- *.
    destruct (performRequest env u "POST" _ _ false "" (h ++ n_up)) as [[resp|e] n_req]
      eqn:Hreq; [|done].
    cbn [fst snd] in *.
    destruct (body_err resp) as [e|] eqn:Hread; [done|].
    destruct (Unmarshal_completeMsg env (body_bytes resp) zero_completeMsg)
      as [reply [e|]] eqn:Hdec; [done|].
    destruct (Success reply) eqn:Hs; [|done].
    by exists n_up, resp, n_req, reply.
  - destruct Hrest as [err Hfail].
    destruct (uploadPart env u (url part) (r part) (draw part) (label part) (h ++ n_up))
      as [res n_fail] eqn:Hpart. cbn [fst] in Hfail. subst res.
    rewrite (uploadAndReport_failed env u initDeets _ _ _ _ _ _ _ _ _ _ Hparts Hup Hpart)
      in Hnil.
    cbn [fst] in Hnil. unfold surfaced in Hnil.
    by destruct (fst (reportFailure env u _ _ _)).
Qed.

(** A session without error, from its beginning to the reply. *)
Lemma Upload_nil_acknowledged (env : Env) (u : Uploader) (h : list event) :
  fst (Upload env u h) = None ->
  exists acifile ascfile manblob initDeets resp reply,
    os_Open env (Acipath u) = Ok acifile /\
    os_Open env (Ascpath u) = Ok ascfile /\
    map put_source (put_requests (snd (Upload env u h)))
      = [(ManifestURL initDeets, BytesReader manblob);
         (SignatureURL initDeets, FileBody ascfile);
         (ACIURL initDeets, FileBody acifile)] /\
    completion_posts (snd (Upload env u h))
      = [(CompletedURL initDeets,
          fst (Marshal_completeMsg env {| Success := true; Reason := ""; ServerReason := "" |}))] /\
    last (closed_bodies (snd (Upload env u h))) = Some resp /\
    body_err resp = None /\
    Unmarshal_completeMsg env (body_bytes resp) zero_completeMsg = (reply, None) /\
    Success reply = true.
Proof.
  intros Hnil.
  destruct (os_Open env (Acipath u)) as [acifile|e] eqn:Ho.
  2: { by rewrite (Upload_open_aci_fail env u h e Ho) in Hnil. }
  destruct (os_Open env (Ascpath u)) as [ascfile|e] eqn:Ho'.
  2: { by rewrite (Upload_open_asc_fail env u h acifile e Ho Ho') in Hnil. }
  destruct (negotiate env u acifile ascfile (h ++ [EvOpen (Acipath u); EvOpen (Ascpath u)]))
    as [[[manblob initDeets]|e] n] eqn:Hneg.
  2: { destruct (Upload_not_initiated env u h _ _ _ _ Ho Ho' Hneg) as [He _].
       by rewrite He in Hnil. }
  destruct (Upload_session env u h _ _ _ _ _ Ho Ho' Hneg) as (Hrun & Hposts & Hputs).
  cbv zeta in Hrun. rewrite Hrun in Hnil. cbn [fst] in Hnil.
  destruct (uploadAndReport_nil env u initDeets manblob ascfile acifile _ Hnil)
    as (n_up & resp & n_req & reply & Hup & Hreq & Hread & Hdec & Hs & Hevents).
  exists acifile, ascfile, manblob, initDeets, resp, reply.
  split; [done|]. split; [done|]. split; [|split; [|split; [|by repeat split]]].
  - rewrite Hputs, Hevents, put_requests_app, map_app.
    rewrite (uploaded_puts env u _ _ _ Hup).
    pose proof (complete_puts env u (CompletedURL initDeets)
                  (fst (Marshal_completeMsg env
                          {| Success := true; Reason := ""; ServerReason := "" |}))
                  ((h ++ [EvOpen (Acipath u); EvOpen (Ascpath u)] ++ n) ++ n_up)) as Hc.
    rewrite complete_run, Hreq in Hc. cbn [snd] in Hc. rewrite Hc. done.
  - rewrite Hposts, Hevents, completion_posts_app.
    rewrite (uploaded_no_completion env u _ _ _ Hup).
    pose proof (complete_posts env u (CompletedURL initDeets)
                  (fst (Marshal_completeMsg env
                          {| Success := true; Reason := ""; ServerReason := "" |}))
                  ((h ++ [EvOpen (Acipath u); EvOpen (Ascpath u)] ++ n) ++ n_up)) as Hc.
    rewrite complete_run, Hreq in Hc. cbn [snd] in Hc. rewrite Hc. done.
  - rewrite Hrun. cbn [snd]. rewrite Hevents.
    rewrite !closed_bodies_app.
    change (closed_bodies [EvReadAll resp; EvBodyClose resp]) with [resp].
    change (closed_bodies [EvFileClose ascfile; EvFileClose acifile]) with (@nil respBody).
    rewrite app_nil_r, !app_assoc. apply last_snoc.
Qed.



(** ** A session is bounded *)

Section Bounds.

Context (env : Env) (u : Uploader).

Lemma count_app p l1 l2 : count p (l1 ++ l2) = (count p l1 + count p l2)%nat.
Proof. unfold count. by rewrite filter_app, length_app. Qed.

Lemma count_quiet p l : Forall (fun e => p e = false) l -> count p l = 0%nat.
Proof.
  unfold count. induction 1 as [|e l He _ IH]; [done|].
  rewrite filter_cons_False by congruence. exact IH.
Qed.

Lemma count_cons_quiet p e l : p e = false -> count p (e :: l) = count p l.
Proof. intros He. unfold count. by rewrite filter_cons_False by congruence. Qed.

(** The redirect loop, by the number of requests made so far. *)
Lemma count_cons p e l :
  count p (e :: l) = ((if p e then 1 else 0) + count p l)%nat.
Proof.
  unfold count. destruct (p e) eqn:He.
  - by rewrite filter_cons_True.
  - by rewrite filter_cons_False by congruence.
Qed.

Lemma count_nil p : count p [] = 0%nat.
Proof. done. Qed.

Ltac counted :=
  cbn [snd]; rewrite ?count_app, ?count_cons, ?count_nil;
  cbn [is_RoundTrip is_SetHTTPHeaders is_NewRequest]; repeat split; lia.

Lemma doFollowingRedirects_bounds fuel : forall ireq req via h,
  let n := snd (doFollowingRedirects env fuel (Insecure u) (CheckRedirect u) ireq req via h) in
  (count is_RoundTrip n <= fuel)%nat /\
  (count is_SetHTTPHeaders n <= 9 - length via)%nat /\
  count is_NewRequest n = 0%nat.
Proof.
  induction fuel as [|fuel IH]; intros ireq req via h; cbv zeta.
  { cbn [doFollowingRedirects ret snd]. rewrite !count_nil. repeat split; lia. }
  rewrite doFollowingRedirects_step. cbv zeta.
  destruct (RoundTrip env (Insecure u) h req) as [resp|e]; [|counted].
  destruct (shouldRedirect env (Method ireq) (StatusCode resp)); [|counted].
  destruct (decide (Location resp = "")); [counted|].
  destruct (redirectRequest env ireq (via ++ [req]) (Location resp)) as [nreq|e];
    [|counted].
  destruct (10 <=? length (via ++ [req]))%nat eqn:Hlen; [counted|].
  apply Nat.leb_gt in Hlen. rewrite length_app in Hlen. cbn [length] in Hlen.
  destruct (IH ireq (SetHTTPHeaders u nreq) (via ++ [req])
              (h ++ [EvRoundTrip (Insecure u) req; EvBodyClose (Body resp);
                     EvSetHTTPHeaders nreq])) as (H1 & H2 & H3).
  rewrite length_app in H2. cbn [length] in H2.
  counted.
Qed.

(** One call of [performRequest]: at most one request is made, at most
    ten are sent, and the auth hook runs at most ten times. *)
Lemma performRequest_bounds reqType url b draw label h :
  let n := snd (performRequest env u reqType url b draw label h) in
  (count is_NewRequest n <= 1)%nat /\
  (count is_RoundTrip n <= 10)%nat /\
  (count is_SetHTTPHeaders n <= 10)%nat.
Proof.
  cbv zeta. rewrite performRequest_run.
  destruct (withProgress_quiet env u b draw label h) as (_ & _ & Hn0).
  destruct (withProgress env u b draw label h) as [[b'|e] n0]; cbn [snd] in Hn0.
  2: { destruct Hn0 as [->|[f ->]]; counted. }
  assert (H0 : forall p, p = is_NewRequest \/ p = is_RoundTrip \/ p = is_SetHTTPHeaders ->
                         count p n0 = 0%nat).
  { intros p Hp. destruct Hn0 as [->|[f ->]]; [done|].
    by destruct Hp as [->|[->| ->]]. }
  pose proof (H0 is_NewRequest) as N1. pose proof (H0 is_RoundTrip) as N2.
  pose proof (H0 is_SetHTTPHeaders) as N3.
  specialize (N1 ltac:(auto)). specialize (N2 ltac:(auto)). specialize (N3 ltac:(auto)).
  destruct (NewRequest_err env reqType url) as [e|]; [counted|].
  cbv zeta.
  set (req := {| Method := reqType; URL := url; Header := []; ReqBody := b' |}).
  destruct (client_Do_run env u (SetHTTPHeaders u req)
              (h ++ n0 ++ [EvNewRequest reqType url b'; EvSetHTTPHeaders req]))
    as (res & Hloop & Hdo).
  pose proof (doFollowingRedirects_bounds maxRequests (SetHTTPHeaders u req)
                (SetHTTPHeaders u req) []
                (h ++ n0 ++ [EvNewRequest reqType url b'; EvSetHTTPHeaders req])) as Hb.
  cbv zeta in Hb. rewrite Hloop in Hb. cbn [snd length] in Hb. destruct Hb as (H1 & H2 & H3).
  rewrite Hdo. unfold maxRequests in H1.
  destruct res as [res|e]; [|counted].
  destruct ((StatusCode res =? 200) || (StatusCode res =? 400)); counted.
Qed.

Context (p : event -> bool) (c : nat).
Context (Hp : forall e, is_http e = false -> p e = false).
Context (Hperf : forall reqType url b draw label h,
           (count p (snd (performRequest env u reqType url b draw label h)) <= c)%nat).

Lemma count_lines l : Forall (fun e => is_http e = false) l -> count p l = 0%nat.
Proof. intros Hl. apply count_quiet. eapply Forall_impl; [exact Hl|]. exact Hp. Qed.

Lemma uploadPart_count url b draw label h :
  (count p (snd (uploadPart env u url b draw label h)) <= c)%nat.
Proof.
  rewrite uploadPart_run.
  pose proof (Hperf "PUT" url b draw label h) as H.
  destruct (performRequest env u "PUT" url b draw label h) as [[resp|e] n]; cbn [snd] in *;
    [|done].
  rewrite count_app, (count_lines [_]) by (by repeat constructor). lia.
Qed.

Lemma complete_count url blob h :
  (count p (snd (complete env u url blob h)) <= c)%nat.
Proof.
  rewrite complete_run.
  pose proof (Hperf "POST" url (BytesReader blob) false "" h) as H.
  destruct (performRequest env u "POST" url (BytesReader blob) false "" h) as [[resp|e] n];
    cbn [snd] in *; [|done].
  rewrite count_app, (count_lines [_; _]) by (by repeat constructor). lia.
Qed.

Lemma initiateUpload_count initurl h :
  (count p (snd (initiateUpload env u initurl h)) <= c)%nat.
Proof.
  rewrite initiateUpload_run.
  pose proof (Hperf "POST" initurl NilBody false "" (h ++ initiating_lines u)) as H.
  assert (Hl : count p (initiating_lines u) = 0%nat).
  { apply count_lines. unfold initiating_lines. destruct (Debug u); by repeat constructor. }
  assert (Hl' : forall d, count p (initiated_lines u d) = 0%nat).
  { intros d. apply count_lines. unfold initiated_lines.
    destruct (Debug u); by repeat constructor. }
  destruct (performRequest env u "POST" initurl NilBody false "" _) as [[resp|e] n];
    cbn [snd] in *.
  - destruct (body_err resp); cbv zeta; cbn [snd];
      rewrite !count_app, ?Hl, ?Hl', ?(count_lines [_; _]), ?(count_lines [_])
        by (by repeat constructor); lia.
  - rewrite count_app, Hl. lia.
Qed.

Lemma negotiate_count acifile ascfile h :
  (count p (snd (negotiate env u acifile ascfile h)) <= c)%nat.
Proof.
  unfold negotiate. run.
  destruct (ManifestFromImage env acifile) as [manifest|e];
    [|norm; cbn [snd]; rewrite (count_lines [_]) by (by repeat constructor); lia].
  destruct (NewAppFromString env (Uri u)) as [app|e];
    [|norm; cbn [snd]; rewrite (count_lines [_]) by (by repeat constructor); lia].
  destruct (resolveLabels env manifest (App_Labels app)) as [labels|e];
    [|norm; cbn [snd]; rewrite (count_lines [_]) by (by repeat constructor); lia].
  destruct (File_Seek env acifile) as [e|];
    [norm; cbn [snd]; rewrite (count_lines [_; _]) by (by repeat constructor); lia|].
  destruct (MarshalJSON env manifest) as [manblob|e];
    [|norm; cbn [snd]; rewrite (count_lines [_; _]) by (by repeat constructor); lia].
  norm.
  assert (Hg : count p (snd (getInitiationURL env u
                               {| App_Name := App_Name app; App_Labels := labels |}
                               (h ++ [EvManifestFromImage acifile; EvSeek acifile])))
               = 0%nat).
  { apply count_lines. by apply getInitiationURL_Forall. }
  destruct (getInitiationURL env u _ _) as [[initurl|e] n]; cbn [snd] in Hg; norm.
  - pose proof (initiateUpload_count initurl
                  (h ++ EvManifestFromImage acifile :: EvSeek acifile :: n)) as Hi.
    destruct (initiateUpload env u initurl _) as [i n']. cbn [snd] in Hi.
    destruct i as [e|d [e|]]; norm; cbn [snd];
      rewrite !count_cons_quiet by (by apply Hp); rewrite count_app; lia.
  - cbn [snd]. rewrite !count_cons_quiet by (by apply Hp). lia.
Qed.

Lemma uploadLoop_count initDeets parts h :
  (count p (snd (uploadLoop env u initDeets parts h))
   <= length parts * c
      + match fst (uploadLoop env u initDeets parts h) with Some _ => c | None => 0 end)%nat.
Proof.
  revert h. induction parts as [|part parts IH]; intros h; [cbn; lia|].
  rewrite uploadLoop_cons.
  pose proof (uploadPart_count (url part) (r part) (draw part) (label part) h) as Hpart.
  destruct (uploadPart env u (url part) (r part) (draw part) (label part) h) as [[err|] n1];
    cbn [snd] in Hpart; cbv zeta; cbn [fst snd length].
  - rewrite count_app, reportFailure_run.
    pose proof (complete_count (CompletedURL initDeets)
                  (fst (Marshal_completeMsg env
                          {| Success := false; Reason := reason_text part err;
                             ServerReason := "" |})) (h ++ n1)) as Hreport.
    lia.
  - rewrite count_app. specialize (IH (h ++ n1)). lia.
Qed.

Lemma uploadAndReport_count initDeets manblob ascfile acifile h :
  (count p (snd (uploadAndReport env u initDeets manblob ascfile acifile h)) <= 4 * c)%nat.
Proof.
  unfold uploadAndReport. rewrite bind_snd.
  pose proof (uploadLoop_count initDeets (partsToUpload initDeets manblob ascfile acifile) h)
    as Hloop.
  change (length (partsToUpload initDeets manblob ascfile acifile)) with 3%nat in Hloop.
  destruct (uploadLoop env u initDeets _ h) as [[err|] n]; cbn [fst snd] in *.
  - unfold ret. cbn [snd]. rewrite app_nil_r. lia.
  - pose proof (complete_count (CompletedURL initDeets)
                  (fst (Marshal_completeMsg env
                          {| Success := true; Reason := ""; ServerReason := "" |})) (h ++ n))
      as Hreport.
    rewrite <- reportSuccess_run in Hreport.
    rewrite count_app, bind_snd.
    destruct (reportSuccess env u (CompletedURL initDeets) (h ++ n)) as [[e|] n'];
      unfold ret; cbn [fst snd] in *; rewrite app_nil_r; lia.
Qed.

Lemma Upload_count h : (count p (snd (Upload env u h)) <= 5 * c)%nat.
Proof.
  destruct (os_Open env (Acipath u)) as [acifile|e] eqn:Ho.
  2: { rewrite (Upload_open_aci_fail env u h e Ho). cbn [snd].
       rewrite (count_lines [_]) by (by repeat constructor). lia. }
  destruct (os_Open env (Ascpath u)) as [ascfile|e] eqn:Ho'.
  2: { rewrite (Upload_open_asc_fail env u h acifile e Ho Ho'). cbn [snd].
       rewrite (count_lines [_; _; _]) by (by repeat constructor). lia. }
  rewrite (Upload_opened env u h _ _ Ho Ho'). cbn [snd].
  rewrite !count_app, (count_lines [_; _]), (count_lines [EvFileClose _; _])
    by (by repeat constructor).
  set (h' := h ++ [EvOpen (Acipath u); EvOpen (Ascpath u)]).
  pose proof (negotiate_count acifile ascfile h') as Hneg.
  destruct (negotiate env u acifile ascfile h') as [[[manblob d]|e] n] eqn:Hn; cbn [snd] in Hneg.
  - rewrite (Upload_files_initiated env u _ _ _ _ _ _ Hn). cbn [snd]. rewrite count_app.
    pose proof (uploadAndReport_count d manblob ascfile acifile (h' ++ n)). lia.
  - rewrite (Upload_files_fail env u _ _ _ _ _ Hn). cbn [snd]. lia.
Qed.

End Bounds.

(** X22.  A session is bounded.  Whatever the servers answer, [Upload]
    makes at most five requests with [http.NewRequest] - the initiation,
    three parts, one completion message - sends at most fifty requests on
    the wire, the redirects they are answered with included, and calls
    the auth hook at most fifty times; a single [performRequest] makes at
    most one request, sends at most ten and calls the hook at most ten
    times. *)
Theorem session_is_bounded (env : Env) (u : Uploader) (h : list event) :
  (length (all_requests (snd (Upload env u h))) <= 5)%nat /\
  (round_trips (snd (Upload env u h)) <= 50)%nat /\
  (auth_calls (snd (Upload env u h)) <= 50)%nat /\
  forall reqType url b draw label h',
    let n := snd (performRequest env u reqType url b draw label h') in
    (length (all_requests n) <= 1)%nat /\ (round_trips n <= 10)%nat /\
    (auth_calls n <= 10)%nat.
Proof.
  assert (Hreq : forall l, length (all_requests l) = count is_NewRequest l).
  { intros l. unfold all_requests, count. induction l as [|e l IH]; [done|].
    destruct e; cbn; rewrite ?IH; try done;
      rewrite filter_cons_False by done; done. }
  assert (Hp1 : forall e, is_http e = false -> is_NewRequest e = false)
    by (by intros []).
  assert (Hp2 : forall e, is_http e = false -> is_RoundTrip e = false)
    by (by intros []).
  assert (Hp3 : forall e, is_http e = false -> is_SetHTTPHeaders e = false)
    by (by intros []).
  split; [|split; [|split]].
  - rewrite Hreq.
    apply (Upload_count env u is_NewRequest 1 Hp1).
    intros. apply performRequest_bounds.
  - apply (Upload_count env u is_RoundTrip 10 Hp2).
    intros. apply performRequest_bounds.
  - apply (Upload_count env u is_SetHTTPHeaders 10 Hp3).
    intros. apply performRequest_bounds.
  - intros reqType url b draw label h' n. unfold n. rewrite Hreq.
    apply performRequest_bounds.
Qed.

(** * Properties of rkt/config/config.go *)

(** ** The order of strings *)

Lemma ascii_compare_refl (c : ascii) : Ascii.compare c c = Eq.
Proof. unfold Ascii.compare. apply N.compare_refl. Qed.

Lemma string_compare_refl (s : string) : String.compare s s = Eq.
Proof. induction s as [|c s IH]; [done|]. cbn. by rewrite ascii_compare_refl. Qed.

Lemma ascii_compare_eq (a b : ascii) : Ascii.compare a b = Eq -> a = b.
Proof. apply Ascii.compare_eq_iff. Qed.

Lemma ascii_compare_lt_trans (a b c : ascii) :
  Ascii.compare a b = Lt -> Ascii.compare b c = Lt -> Ascii.compare a c = Lt.
Proof.
  unfold Ascii.compare. rewrite !N.compare_lt_iff. lia.
Qed.

Lemma string_compare_lt_trans (s1 : string) : forall s2 s3,
  String.compare s1 s2 = Lt -> String.compare s2 s3 = Lt -> String.compare s1 s3 = Lt.
Proof.
  induction s1 as [|c1 s1 IH]; intros [|c2 s2] [|c3 s3]; cbn; try done.
  destruct (Ascii.compare c1 c2) eqn:H12; try done;
    destruct (Ascii.compare c2 c3) eqn:H23; try done.
  - apply ascii_compare_eq in H12, H23. subst. rewrite ascii_compare_refl. apply IH.
  - apply ascii_compare_eq in H12. subst. by rewrite H23.
  - apply ascii_compare_eq in H23. subst. by rewrite H12.
  - by rewrite (ascii_compare_lt_trans _ _ _ H12 H23).
Qed.

#[local] Instance string_le_trans : Transitive config.string_le.
Proof.
  intros s1 s2 s3. unfold config.string_le, String.leb.
  destruct (String.compare s1 s2) eqn:H12; [| |done].
  - apply String.compare_eq_iff in H12. by subst.
  - destruct (String.compare s2 s3) eqn:H23; [| |done].
    + apply String.compare_eq_iff in H23. subst. by rewrite H12.
    + by rewrite (string_compare_lt_trans _ _ _ H12 H23).
Qed.

#[local] Instance string_le_antisym : AntiSymm eq config.string_le.
Proof. intros s1 s2. apply String.leb_antisym. Qed.

#[local] Instance string_le_total : Total config.string_le.
Proof. intros s1 s2. apply String.leb_total. Qed.

Lemma string_le_empty (s : string) : config.string_le "" s.
Proof. by destruct s. Qed.

(** [sort.Strings] returns the sorted arrangement of its argument, whatever
    the order of the argument. *)
Lemma sort_Strings_sorted (a : list string) : Sorted config.string_le (config.sort_Strings a).
Proof. apply (Sorted_merge_sort _). Qed.

Lemma sort_Strings_perm (a : list string) : config.sort_Strings a ≡ₚ a.
Proof. apply merge_sort_Permutation. Qed.

Lemma sort_Strings_unique (a b : list string) :
  a ≡ₚ b -> config.sort_Strings a = config.sort_Strings b.
Proof.
  intros Hab. apply (Sorted_unique config.string_le); try apply sort_Strings_sorted.
  by rewrite !sort_Strings_perm.
Qed.

Lemma sort_Strings_empties (n : nat) (a : list string) :
  config.sort_Strings (replicate n "" ++ a) = replicate n "" ++ config.sort_Strings a.
Proof.
  apply (Sorted_unique config.string_le); [apply sort_Strings_sorted| |].
  - induction n as [|n IH]; [apply sort_Strings_sorted|].
    cbn [replicate Datatypes.app]. constructor; [done|].
    destruct n as [|n]; cbn [replicate Datatypes.app].
    + destruct (config.sort_Strings a); constructor. apply string_le_empty.
    + constructor. apply string_le_empty.
  - by rewrite !sort_Strings_perm.
Qed.

(** ** The registry of parsers and subdirectories *)

Section Registry.

Context (w : config.World).

Lemma string_length_zero (s : string) : String.length s = 0%nat <-> s = "".
Proof. by destruct s. Qed.

(** X12.  Parsers are registered once.  [addParser] panics exactly when
    the kind or the version is empty, the parser is nil, or a parser is
    already registered for the kind and version: it never replaces a
    parser.  When it returns, [getParser] finds the new parser under its
    kind and version, finds under every other kind and version the parser
    it found before, and the subdirectories are as they were. *)
Theorem parsers_registered_once (reg : config.registry) (kind version : string)
    (parser : option config.configParser) :
  match config.addParser w kind version parser reg with
  | config.Panics _ =>
      kind = "" \/ version = "" \/ parser = None \/
      exists p, config.getParser w reg kind version = Ok p
  | config.Returns reg' =>
      kind <> "" /\ version <> "" /\
      (forall p, config.getParser w reg kind version <> Ok p) /\
      (exists p, parser = Some p /\ config.getParser w reg' kind version = Ok p) /\
      (forall k v p, (k, v) <> (kind, version) ->
         config.getParser w reg' k v = Ok p <-> config.getParser w reg k v = Ok p) /\
      config.configSubDirs reg' = config.configSubDirs reg
  end.
Proof.
  unfold config.addParser.
  destruct (decide (String.length kind = 0%nat)) as [Hk|Hk];
    [left; by apply string_length_zero|].
  destruct (decide (String.length version = 0%nat)) as [Hv|Hv];
    [right; left; by apply string_length_zero|].
  destruct parser as [p|]; [|by do 2 right; left].
  destruct (config.getParser w reg kind version) as [p0|e] eqn:Hget;
    [do 3 right; by exists p0|].
  rewrite string_length_zero in Hk, Hv.
  split; [done|]. split; [done|]. split; [done|].
  set (forKind := match config.parsersForKind reg !! kind with
                  | Some _ => config.parsersForKind reg
                  | None => <[kind:=∅]> (config.parsersForKind reg)
                  end).
  assert (Hother : forall k, k <> kind -> forKind !! k = config.parsersForKind reg !! k).
  { intros k Hne. unfold forKind.
    destruct (config.parsersForKind reg !! kind); [done|]. by rewrite lookup_insert_ne. }
  assert (Hsame : forKind !!! kind = default ∅ (config.parsersForKind reg !! kind)).
  { unfold forKind. rewrite lookup_total_alt.
    destruct (config.parsersForKind reg !! kind) as [ps|] eqn:Hps.
    - by rewrite Hps.
    - by rewrite lookup_insert_eq. }
  split; [|split; [|done]].
  - exists p. split; [done|]. unfold config.getParser. cbn [config.parsersForKind].
    by rewrite !lookup_insert_eq.
  - intros k v p' Hne. unfold config.getParser. cbn [config.parsersForKind].
    destruct (decide (k = kind)) as [->|Hk'].
    + assert (Hv' : v <> version) by congruence.
      rewrite lookup_insert_eq, lookup_insert_ne by done. rewrite Hsame.
      destruct (config.parsersForKind reg !! kind) as [ps|]; cbn [default].
      * done.
      * rewrite lookup_empty. done.
    + rewrite lookup_insert_ne by done. by rewrite Hother.
Qed.

Lemma count_NoDup (l : list string) (k : string) :
  NoDup l -> k ∈ l -> length (filter (fun x => x = k) l) = 1%nat.
Proof.
  intros Hnd Hin.
  assert (Hcount : length (filter (fun x => x = k) l)
                   = if decide (k ∈ l) then 1%nat else 0%nat).
  { clear Hin. induction Hnd as [|x l Hx Hnd IH]; [done|].
    destruct (decide (x = k)) as [->|Hne].
    - rewrite filter_cons_True by done. cbn [length]. rewrite IH.
      rewrite decide_False by done. rewrite decide_True by (by left). done.
    - rewrite filter_cons_False by done. rewrite IH.
      destruct (decide (k ∈ l)) as [Hl|Hl].
      + by rewrite decide_True by (by right).
      + rewrite decide_False; [done|]. intros [->|H]%elem_of_cons; done. }
  by rewrite Hcount, decide_True.
Qed.

Lemma toSet_list_to_set (a : list string) : config.toSet a = list_to_set a.
Proof.
  unfold config.toSet.
  assert (H : forall s, foldl (fun (s : gset string) v => {[v]} ∪ s) s a = list_to_set a ∪ s).
  { induction a as [|v a IH]; intros s; cbn [foldl list_to_set]; [by rewrite (left_id_L ∅ (∪))|].
    rewrite IH. rewrite (comm_L (∪) {[v]} (list_to_set a)). by rewrite (assoc_L (∪)). }
  rewrite H. by rewrite (right_id_L ∅ (∪)).
Qed.

Lemma toArray_run (s : gset string) :
  config.toArray w s = replicate (size s) "" ++ config.range_kinds w s.
Proof.
  unfold config.toArray.
  generalize (replicate (size s) ""). generalize (config.range_kinds w s).
  induction l as [|k l IH]; intros a; cbn [foldl]; [by rewrite app_nil_r|].
  by rewrite IH, <- app_assoc.
Qed.

(** X13.  The kinds of a subdirectory.  [registerSubDir] panics exactly
    when the directory name is empty or no kind is given.  Otherwise it
    changes the entry of the directory only; the new list is sorted and
    does not depend on the order in which [range] visits the set of kinds;
    it holds every kind that was registered before and every kind given
    now, each once - and before them as many empty strings as there are
    such kinds, left by [toArray]. *)
Theorem registered_kinds (Hw : config.ranges_maps w) (reg : config.registry) (dir : string)
    (kinds : list string) :
  let old := config.configSubDirs reg !!! dir in
  let all : gset string := list_to_set (old ++ kinds) in
  match config.registerSubDir w dir kinds reg with
  | config.Panics _ => dir = "" \/ kinds = []
  | config.Returns reg' =>
      dir <> "" /\ kinds <> [] /\
      config.parsersForKind reg' = config.parsersForKind reg /\
      config.configSubDirs reg'
        = <[dir := replicate (size all) "" ++ config.sort_Strings (elements all)]>
            (config.configSubDirs reg) /\
      Sorted config.string_le (config.configSubDirs reg' !!! dir) /\
      (forall k, k ∈ config.configSubDirs reg' !!! dir <->
                 k = "" \/ k ∈ old \/ k ∈ kinds) /\
      (forall k, k <> "" -> k ∈ old \/ k ∈ kinds ->
         length (filter (fun x => x = k) (config.configSubDirs reg' !!! dir)) = 1%nat)
  end.
Proof.
  intros old all. unfold config.registerSubDir.
  destruct (decide (String.length dir = 0%nat)) as [Hd|Hd];
    [left; by apply string_length_zero|].
  destruct (decide (length kinds = 0%nat)) as [Hk|Hk];
    [right; by destruct kinds|].
  rewrite string_length_zero in Hd.
  split; [done|]. split; [by destruct kinds|]. split; [done|].
  cbn [config.configSubDirs].
  fold old. rewrite toSet_list_to_set. fold all. rewrite toArray_run.
  assert (Hsort : config.sort_Strings (replicate (size all) "" ++ config.range_kinds w all)
                  = replicate (size all) "" ++ config.sort_Strings (elements all)).
  { rewrite sort_Strings_empties. f_equal. apply sort_Strings_unique.
    apply (config.range_kinds_perm w Hw). }
  rewrite Hsort. split; [done|].
  rewrite lookup_total_insert_eq.
  assert (Hsize : size all <> 0%nat).
  { destruct kinds as [|k kinds]; [done|].
    apply size_non_empty_iff. intros Hempty.
    assert (Hin : k ∈ all)
      by (unfold all; rewrite elem_of_list_to_set, elem_of_app, elem_of_cons; auto).
    rewrite Hempty in Hin. by apply not_elem_of_empty in Hin. }
  split; [|split].
  - rewrite <- sort_Strings_empties. apply sort_Strings_sorted.
  - intros k. rewrite elem_of_app, elem_of_replicate, sort_Strings_perm, elem_of_elements.
    unfold all. rewrite elem_of_list_to_set, elem_of_app. split.
    + intros [[-> _]|H]; [by left|by right].
    + intros [->|H]; [left; by split|by right].
  - intros k Hne Hin. rewrite filter_app.
    assert (Hnone : forall n, filter (fun x => x = k) (replicate n "") = []).
    { induction n as [|n IH]; [done|]. cbn [replicate].
      rewrite filter_cons_False by congruence. apply IH. }
    rewrite Hnone. cbn [Datatypes.app].
    assert (Hperm : filter (fun x => x = k) (config.sort_Strings (elements all))
                    ≡ₚ filter (fun x => x = k) (elements all))
      by (by rewrite sort_Strings_perm).
    rewrite Hperm.
    assert (Hk' : k ∈ elements all).
    { rewrite elem_of_elements. unfold all. rewrite elem_of_list_to_set, elem_of_app. done. }
    by apply count_NoDup; [apply NoDup_elements|].
Qed.

End Registry.

(** ** Merging configurations *)

Section Merge.

Context (env : Env) (w : config.World) (Hw : config.ranges_maps w).

(** Storing the entries of a map one by one, in any order, is the union
    that prefers the entries stored. *)
Lemma foldl_insert_union {V : Type} (l : list (string * V)) : forall m : gmap string V,
  NoDup l.*1 ->
  foldl (fun m entry => <[fst entry := snd entry]> m) m l = list_to_map l ∪ m.
Proof.
  induction l as [|[k v] l IH]; intros m Hnd; cbn [foldl fst snd].
  - by rewrite list_to_map_nil, (left_id_L ∅ (∪)).
  - rewrite fmap_cons in Hnd. cbn [fst] in Hnd. apply NoDup_cons in Hnd as [Hk Hnd].
    rewrite (IH _ Hnd), list_to_map_cons. apply map_eq. intros i.
    assert (Hnone : (list_to_map l : gmap string V) !! k = None)
      by (by apply not_elem_of_list_to_map_1).
    destruct (decide (i = k)) as [->|Hne].
    + rewrite lookup_union_r by done.
      rewrite lookup_insert_eq. symmetry. apply lookup_union_Some_l. apply lookup_insert_eq.
    + rewrite !lookup_union, lookup_insert_ne, lookup_insert_ne by done. done.
Qed.

Lemma store_entries {V : Type} (l : list (string * V)) (m sub : gmap string V) :
  l ≡ₚ map_to_list sub ->
  foldl (fun m entry => <[fst entry := snd entry]> m) m l = sub ∪ m.
Proof.
  intros Hl.
  assert (Hnd : NoDup l.*1) by (rewrite Hl; apply NoDup_fst_map_to_list).
  rewrite (foldl_insert_union l m Hnd). f_equal.
  symmetry. apply list_to_map_flip. by symmetry.
Qed.

Lemma mergeConfigs_run (config subconfig : config.Config) :
  config.mergeConfigs w config subconfig =
    {| config.AuthPerHost := config.AuthPerHost subconfig ∪ config.AuthPerHost config;
       config.DockerCredentialsPerRegistry :=
         config.DockerCredentialsPerRegistry subconfig
           ∪ config.DockerCredentialsPerRegistry config |}.
Proof.
  unfold config.mergeConfigs.
  rewrite (store_entries _ _ _ (config.range_auth_perm w Hw _)).
  by rewrite (store_entries _ _ _ (config.range_creds_perm w Hw _)).
Qed.

End Merge.

(** X14.  The later configuration wins.  [mergeConfigs] leaves in
    [config], for every host, the headerer of [subconfig] when [subconfig]
    has one for the host, and the one [config] had otherwise; nothing is
    lost and nothing else is added; the same holds for the credentials of
    the registries; and the result does not depend on the order in which
    [range] visits the maps of [subconfig]. *)
Theorem later_configuration_wins (w : config.World) (Hw : config.ranges_maps w)
    (config subconfig : config.Config) (host : string) :
  let merged := config.mergeConfigs w config subconfig in
  config.AuthPerHost merged !! host =
    match config.AuthPerHost subconfig !! host with
    | Some headerer => Some headerer
    | None => config.AuthPerHost config !! host
    end /\
  config.DockerCredentialsPerRegistry merged !! host =
    match config.DockerCredentialsPerRegistry subconfig !! host with
    | Some creds => Some creds
    | None => config.DockerCredentialsPerRegistry config !! host
    end /\
  forall w', config.ranges_maps w' -> config.mergeConfigs w' config subconfig = merged.
Proof.
  cbv zeta. rewrite (mergeConfigs_run w Hw). cbn [config.AuthPerHost
    config.DockerCredentialsPerRegistry].
  split; [|split].
  - rewrite lookup_union. by destruct (config.AuthPerHost subconfig !! host),
      (config.AuthPerHost config !! host).
  - rewrite lookup_union. by destruct (config.DockerCredentialsPerRegistry subconfig !! host),
      (config.DockerCredentialsPerRegistry config !! host).
  - intros w' Hw'. by rewrite (mergeConfigs_run w' Hw').
Qed.

(** ** Which files are configuration files *)

Lemma string_of_list_ascii_snoc (l : list ascii) (c : ascii) (s : string) :
  string_of_list_ascii (l ++ [c]) +:+ s = string_of_list_ascii l +:+ String c s.
Proof.
  induction l as [|a l IH]; [done|].
  change (String a (string_of_list_ascii (l ++ [c]) +:+ s)
          = String a (string_of_list_ascii l +:+ String c s)).
  by rewrite IH.
Qed.

Lemma list_ascii_of_string_app (s1 s2 : string) :
  list_ascii_of_string (s1 +:+ s2) = list_ascii_of_string s1 ++ list_ascii_of_string s2.
Proof.
  induction s1 as [|c s1 IH]; [done|].
  change (c :: list_ascii_of_string (s1 +:+ s2)
          = c :: (list_ascii_of_string s1 ++ list_ascii_of_string s2)).
  by rewrite IH.
Qed.

Lemma string_app_nil_r (s : string) : s +:+ "" = s.
Proof.
  induction s as [|c s IH]; [done|].
  change (String c (s +:+ "") = String c s). by rewrite IH.
Qed.

(** What [filepath.Ext] returns is a suffix of the path. *)
Lemma Ext_scan_suffix (before : list ascii) : forall suffix,
  config.Ext_scan before suffix = "" \/
  exists pre,
    string_of_list_ascii (reverse before) +:+ suffix = pre +:+ config.Ext_scan before suffix.
Proof.
  induction before as [|c before IH]; intros suffix; [by left|].
  cbn [config.Ext_scan]. rewrite reverse_cons, string_of_list_ascii_snoc.
  destruct (decide (c = "/"%char)); [by left|].
  destruct (decide (c = "."%char)); [right; by eexists|].
  apply IH.
Qed.

Lemma Ext_suffix (path : string) :
  config.filepath_Ext path = "" \/ exists pre, path = pre +:+ config.filepath_Ext path.
Proof.
  unfold config.filepath_Ext.
  destruct (Ext_scan_suffix (reverse (list_ascii_of_string path)) "") as [H|[pre H]];
    [by left|right].
  exists pre. rewrite <- H, reverse_involutive, string_of_list_ascii_of_string.
  by rewrite string_app_nil_r.
Qed.

Lemma Ext_json (name : string) :
  config.filepath_Ext name = ".json" <-> exists stem, name = stem +:+ ".json".
Proof.
  split.
  - intros Hext. destruct (Ext_suffix name) as [H|[pre H]]; [by rewrite Hext in H|].
    exists pre. by rewrite Hext in H.
  - intros [stem ->]. unfold config.filepath_Ext.
    rewrite list_ascii_of_string_app, reverse_app. reflexivity.
Qed.

Lemma symlink_not_regular (m : Z) :
  Z.land m config.ModeSymlink = config.ModeSymlink -> config.IsRegular m = false.
Proof.
  intros Hs. unfold config.IsRegular. apply Z.eqb_neq. intros Hz.
  assert (Hbit : Z.testbit (Z.land m config.ModeType) 27 = true).
  { rewrite Z.land_spec.
    assert (Hm : Z.testbit m 27 = true).
    { assert (H27 : Z.testbit (Z.land m config.ModeSymlink) 27 = true)
        by (by rewrite Hs).
      rewrite Z.land_spec in H27. by apply andb_prop in H27 as [? _]. }
    by rewrite Hm. }
  by rewrite Hz in Hbit.
Qed.

(** X15.  Which files are configuration files.  [validConfigFile] accepts
    a file exactly when it is a regular file whose name ends in ".json";
    the comparison is that of [filepath.Ext], which returns a suffix of
    the name.  A directory is answered with [filepath.SkipDir], and
    nothing else is: the function returns no other error.  A symbolic
    link is never accepted, whatever its name. *)
Theorem configuration_files (info : config.FileInfo) :
  (fst (config.validConfigFile info) = true <->
   config.IsDir (config.Mode info) = false /\
   config.IsRegular (config.Mode info) = true /\
   exists stem, config.Name info = stem +:+ ".json") /\
  (snd (config.validConfigFile info) = Some config.SkipDir <->
   config.IsDir (config.Mode info) = true) /\
  (config.IsDir (config.Mode info) = false -> snd (config.validConfigFile info) = None) /\
  (Z.land (config.Mode info) config.ModeSymlink = config.ModeSymlink ->
   fst (config.validConfigFile info) = false).
Proof.
  unfold config.validConfigFile. cbv zeta.
  split; [|split; [|split]].
  - destruct (config.IsDir (config.Mode info)); cbn [fst]; [by split; [|intros [? _]]|].
    destruct (config.IsRegular (config.Mode info)); cbn [fst].
    + rewrite bool_decide_eq_true, Ext_json. split; [by intros ?|by intros (_ & _ & ?)].
    + destruct (_ =? _); cbn [fst]; by split; [|intros (_ & ? & _)].
  - destruct (config.IsDir (config.Mode info)); cbn [snd]; [done|].
    destruct (config.IsRegular (config.Mode info)); cbn [snd]; [done|].
    by destruct (_ =? _).
  - intros ->. destruct (config.IsRegular (config.Mode info)); [done|]. by destruct (_ =? _).
  - intros Hs. rewrite (symlink_not_regular _ Hs).
    destruct (config.IsDir (config.Mode info)); [done|]. by destruct (_ =? _).
Qed.

(** ** Parsing one file *)

Lemma existsb_eqb_elem_of (k : string) (kinds : list string) :
  existsb (String.eqb k) kinds = true <-> k ∈ kinds.
Proof.
  rewrite existsb_exists, list_elem_of_In. split.
  - intros (x & Hin & Heq). apply String.eqb_eq in Heq. by subst.
  - intros Hin. exists k. split; [done|]. apply String.eqb_refl.
Qed.

(** X16.  One file, one parser.  [parseConfigFile] reads the file once.
    It returns no error exactly when the file is read, its header decodes,
    the kind and the version of the header are not empty, the kind is one
    of the kinds of the directory, a parser is registered for the kind and
    the version, and that parser returns no error; the configuration is
    then as the parser leaves it.  In every other case but the failure of
    the parser itself the configuration is as it was.  A header without
    kind is refused even when the empty string is among the kinds. *)
Theorem one_file_one_parser (env : Env) (w : config.World) (reg : config.registry)
    (cfg : config.Config) (path : string) (kinds : list string) :
  let r := config.parseConfigFile env w reg cfg path kinds in
  let parsed raw header parser :=
    config.ioutil_ReadFile w path = Ok raw /\
    config.Unmarshal_configHeader env raw config.zero_configHeader = (header, None) /\
    config.RktKind header <> "" /\ config.RktVersion header <> "" /\
    config.RktKind header ∈ kinds /\
    config.getParser w reg (config.RktKind header) (config.RktVersion header) = Ok parser in
  snd r = [config.AccReadFile path] /\
  (snd (fst r) = None <->
   exists raw header parser,
     parsed raw header parser /\ snd (parser cfg raw) = None) /\
  (fst (fst r) = cfg \/
   exists raw header parser,
     parsed raw header parser /\ fst (fst r) = fst (parser cfg raw)) /\
  (snd (fst r) = None ->
   exists raw header parser,
     parsed raw header parser /\ fst (fst r) = fst (parser cfg raw)).
Proof.
  cbv zeta. unfold config.parseConfigFile, config.wbind, config.touch, config.wret.
  destruct (config.ioutil_ReadFile w path) as [raw|e] eqn:Hread.
  2: { cbn. split; [done|]. split; [|split; [by left|done]].
       split; [done|]. by intros (? & ? & ? & (? & _) & _). }
  destruct (config.Unmarshal_configHeader env raw config.zero_configHeader)
    as [header [e|]] eqn:Hdec.
  { cbn. split; [done|]. split; [|split; [by left|done]].
    split; [done|]. intros (raw' & header' & ? & (Hr & Hd & _) & _). congruence. }
  destruct (decide (String.length (config.RktKind header) = 0%nat)) as [Hk|Hk].
  { cbn. split; [done|]. split; [|split; [by left|done]].
    split; [done|]. intros (raw' & header' & ? & (Hr & Hd & Hk' & _) & _).
    simplify_eq. rewrite Hdec in Hd. simplify_eq. by apply string_length_zero in Hk. }
  destruct (decide (String.length (config.RktVersion header) = 0%nat)) as [Hv|Hv].
  { cbn. split; [done|]. split; [|split; [by left|done]].
    split; [done|]. intros (raw' & header' & ? & (Hr & Hd & _ & Hv' & _) & _).
    simplify_eq. rewrite Hdec in Hd. simplify_eq. by apply string_length_zero in Hv. }
  destruct (existsb (String.eqb (config.RktKind header)) kinds) eqn:Hin; cbn [negb].
  2: { cbn. split; [done|]. split; [|split; [by left|done]].
       split; [done|]. intros (raw' & header' & ? & (Hr & Hd & _ & _ & Hin' & _) & _).
       simplify_eq. rewrite Hdec in Hd. simplify_eq.
       apply existsb_eqb_elem_of in Hin'. congruence. }
  destruct (config.getParser w reg (config.RktKind header) (config.RktVersion header))
    as [parser|e] eqn:Hget.
  2: { cbn. split; [done|]. split; [|split; [by left|done]].
       split; [done|]. intros (raw' & header' & ? & (Hr & Hd & _ & _ & _ & Hget') & _).
       simplify_eq. rewrite Hdec in Hd. simplify_eq. congruence. }
  rewrite string_length_zero in Hk, Hv. apply existsb_eqb_elem_of in Hin.
  assert (Hparsed : config.ioutil_ReadFile w path = Ok raw /\
                    config.Unmarshal_configHeader env raw config.zero_configHeader
                      = (header, None) /\
                    config.RktKind header <> "" /\ config.RktVersion header <> "" /\
                    config.RktKind header ∈ kinds /\
                    config.getParser w reg (config.RktKind header) (config.RktVersion header)
                      = Ok parser) by done.
  assert (Hunique : forall raw' header' parser',
            Ok raw = Ok raw' /\
            config.Unmarshal_configHeader env raw' config.zero_configHeader = (header', None) /\
            config.RktKind header' <> "" /\ config.RktVersion header' <> "" /\
            config.RktKind header' ∈ kinds /\
            config.getParser w reg (config.RktKind header') (config.RktVersion header')
              = Ok parser' ->
            raw' = raw /\ parser' = parser).
  { intros raw' header' parser' (Hr & Hd & _ & _ & _ & Hg). simplify_eq.
    rewrite Hdec in Hd. simplify_eq. rewrite Hget in Hg. by simplify_eq. }
  destruct (parser cfg raw) as [cfg' [e|]] eqn:Hparse; cbn [fst snd Datatypes.app].
  - split; [done|]. split; [|split; [|done]].
    + split; [done|]. intros (raw' & header' & parser' & Hp & Hnone).
      destruct (Hunique _ _ _ Hp) as [-> ->]. by rewrite Hparse in Hnone.
    + right. exists raw, header, parser. by rewrite Hparse.
  - split; [done|]. split; [|split].
    + split; [|done]. intros _. exists raw, header, parser. by rewrite Hparse.
    + right. exists raw, header, parser. by rewrite Hparse.
    + intros _. exists raw, header, parser. by rewrite Hparse.
Qed.

(** ** Walking a configuration subdirectory *)

Section Walk.

Context (env : Env) (w : config.World) (reg : config.registry).
Context (kinds : list string) (d : string).

Lemma parseConfigFile_reads cfg path :
  snd (config.parseConfigFile env w reg cfg path kinds) = [config.AccReadFile path].
Proof.
  unfold config.parseConfigFile, config.wbind, config.touch, config.wret.
  destruct (config.ioutil_ReadFile w path) as [raw|e]; [|done].
  destruct (config.Unmarshal_configHeader env raw config.zero_configHeader) as [header [e|]];
    [done|].
  destruct (decide _); [done|]. destruct (decide _); [done|].
  destruct (negb _); [done|].
  destruct (config.getParser w reg _ _) as [parser|e]; [|done].
  by destruct (parser cfg raw) as [cfg' [e|]].
Qed.

Lemma validConfigFile_accepted info :
  config.IsDir (config.Mode info) = false ->
  (fst (config.validConfigFile info) = true <-> config.accepted info) /\
  snd (config.validConfigFile info) = None.
Proof.
  intros Hdir. unfold config.validConfigFile, config.accepted. cbv zeta. rewrite Hdir.
  destruct (config.IsRegular (config.Mode info)); cbn [fst snd].
  - rewrite bool_decide_eq_true, Ext_json. split; [|done].
    split; [by intros ?|by intros (_ & _ & ?)].
  - destruct (_ =? _); cbn [fst snd]; (split; [|done]); by split; [|intros (_ & ? & _)].
Qed.

(** [walk] on an entry of the directory: nothing for a directory and for a
    file that is not config.accepted, [parseConfigFile] for a file that is. *)
Lemma walk_entry (filename : string) (sub : config.tree) (cfg : config.Config) :
  filename <> d ->
  let info := config.info_of sub in
  config.walk w (config.getConfigWalker env w reg kinds d) filename sub cfg =
    if config.IsDir (config.Mode info) then ((cfg, None), [])
    else if fst (config.validConfigFile info) then
      let r := config.parseConfigFile env w reg cfg filename kinds in
      ((fst (fst r), option_map config.Failure (snd (fst r))), snd r)
    else ((cfg, None), []).
Proof.
  intros Hne. destruct sub as [info listing]. cbn [config.info_of config.walk]. cbv zeta.
  unfold config.getConfigWalker at 1. rewrite decide_False by done.
  unfold config.readFile.
  destruct (config.IsDir (config.Mode info)) eqn:Hdir.
  - unfold config.validConfigFile. cbv zeta. rewrite Hdir. by cbn.
  - destruct (validConfigFile_accepted info Hdir) as [_ Hnone].
    destruct (config.validConfigFile info) as [valid err]. cbn [fst snd] in *. subst err.
    destruct valid; [|by cbn].
    unfold config.wbind, config.wret.
    destruct (config.parseConfigFile env w reg cfg filename kinds) as [[cfg' [e|]] reads];
      cbn [fst snd option_map negb andb]; by rewrite ?app_nil_r.
Qed.

Lemma flat_mono l l' a : (forall x, x ∈ l -> x ∈ l') -> config.flat w d l a -> config.flat w d l' a.
Proof.
  intros Hsub. destruct a as [p|p|p|p]; cbn; [done| |done|].
  - intros [->|(name & found & Hin & ->)]; [by left|right; eauto].
  - intros (name & sub & Hin & -> & Hacc). eauto 6.
Qed.

Lemma walk_names_flat (l : list (string * result config.tree)) : forall cfg,
  (forall name found, (name, found) ∈ l -> config.filepath_Join w d name <> d) ->
  let r := config.walk_names w (config.walk w (config.getConfigWalker env w reg kinds d)) (config.getConfigWalker env w reg kinds d) d l cfg in
  snd (fst r) <> Some config.SkipDir /\
  Forall (config.flat w d l) (snd r) /\
  (snd (fst r) = None ->
   forall name sub, (name, Ok sub) ∈ l -> config.accepted (config.info_of sub) ->
     config.AccReadFile (config.filepath_Join w d name) ∈ snd r).
Proof.
  induction l as [|[name found] l IH]; intros cfg Hsane; cbv zeta.
  { cbn. split; [done|]. split; [constructor|]. intros _ ? ? Hin. by apply elem_of_nil in Hin. }
  assert (Hne : config.filepath_Join w d name <> d) by (apply (Hsane name found); left).
  assert (Hsane' : forall name found, (name, found) ∈ l -> config.filepath_Join w d name <> d)
    by (intros n f Hin; apply (Hsane n f); by right).
  assert (Hlstat : config.flat w d ((name, found) :: l) (config.AccLstat (config.filepath_Join w d name))).
  { right. exists name, found. split; [left|done]. }
  assert (Hrest : forall cfg',
    let r := config.walk_names w (config.walk w (config.getConfigWalker env w reg kinds d)) (config.getConfigWalker env w reg kinds d) d l cfg' in
    snd (fst r) <> Some config.SkipDir /\
    Forall (config.flat w d ((name, found) :: l)) (snd r) /\
    (snd (fst r) = None ->
     forall name' sub, (name', Ok sub) ∈ l -> config.accepted (config.info_of sub) ->
       config.AccReadFile (config.filepath_Join w d name') ∈ snd r)).
  { intros cfg'. destruct (IH cfg' Hsane') as (H1 & H2 & H3). split; [done|]. split; [|done].
    eapply Forall_impl; [exact H2|]. intros a. apply flat_mono. intros x Hx. by right. }
  cbn [config.walk_names]. unfold config.wbind at 1, config.touch.
  destruct found as [sub|e].
  - rewrite (walk_entry _ sub cfg Hne). cbv zeta.
    destruct (config.IsDir (config.Mode (config.info_of sub))) eqn:Hdir.
    + unfold config.wbind. destruct (Hrest cfg) as (H1 & H2 & H3).
      destruct (config.walk_names w _ (config.getConfigWalker env w reg kinds d) d l cfg) as [[cfg' err] reads].
      cbn [fst snd Datatypes.app] in *. split; [done|]. split; [by constructor|].
      intros Hnone name' sub' Hin Hacc. apply elem_of_cons in Hin as [Heq|Hin].
      * simplify_eq. destruct Hacc as [Hd _]. congruence.
      * right. by apply (H3 Hnone name' sub').
    + destruct (validConfigFile_accepted _ Hdir) as [Hvalid _].
      destruct (fst (config.validConfigFile (config.info_of sub))) eqn:Hv.
      * pose proof (parseConfigFile_reads cfg (config.filepath_Join w d name)) as Hreads.
        assert (Hacc : config.accepted (config.info_of sub)) by (by apply Hvalid).
        assert (Hread : config.flat w d ((name, Ok sub) :: l)
                          (config.AccReadFile (config.filepath_Join w d name))).
        { exists name, sub. split; [left|done]. }
        destruct (config.parseConfigFile env w reg cfg _ kinds) as [[cfg1 err1] reads1].
        cbn [fst snd] in *. subst reads1. unfold config.wbind.
        destruct err1 as [e|]; cbn [option_map].
        -- cbn [negb orb fst snd Datatypes.app config.wret].
           split; [done|]. split; [|done].
           apply Forall_cons_2; [exact Hlstat|]. apply Forall_cons_2; [exact Hread|].
           apply Forall_nil_2.
        -- destruct (Hrest cfg1) as (H1 & H2 & H3).
           destruct (config.walk_names w _ (config.getConfigWalker env w reg kinds d) d l cfg1) as [[cfg' err] reads].
           cbn [fst snd Datatypes.app] in *. split; [done|]. split.
           { apply Forall_cons_2; [exact Hlstat|]. by apply Forall_cons_2. }
           intros Hnone name' sub' Hin Hacc'. apply elem_of_cons in Hin as [Heq|Hin].
           ++ simplify_eq. right. left.
           ++ do 2 right. by apply (H3 Hnone name' sub').
      * unfold config.wbind. destruct (Hrest cfg) as (H1 & H2 & H3).
        destruct (config.walk_names w _ (config.getConfigWalker env w reg kinds d) d l cfg) as [[cfg' err] reads].
        cbn [fst snd Datatypes.app] in *. split; [done|]. split; [by constructor|].
        intros Hnone name' sub' Hin Hacc. apply elem_of_cons in Hin as [Heq|Hin].
        -- simplify_eq. apply Hvalid in Hacc. congruence.
        -- right. by apply (H3 Hnone name' sub').
  - unfold config.getConfigWalker at 2, config.wbind, config.wret.
    cbn [config.is_SkipDir fst snd Datatypes.app].
    split; [done|]. split; [|done].
    apply Forall_cons_2; [exact Hlstat|apply Forall_nil_2].
Qed.

End Walk.

Lemma filepath_Walk_run (env : Env) (w : config.World) (reg : config.registry)
    (kinds : list string) (d : string) (cfg : config.Config) :
  config.filepath_Walk w d (config.getConfigWalker env w reg kinds d) cfg =
    match config.lstat_tree w d with
    | Err e => ((cfg, Some (config.Failure e)), [config.AccLstat d])
    | Ok (config.Entry info listing) =>
        if config.IsDir (config.Mode info) then
          match listing with
          | Err e => ((cfg, Some (config.Failure e)), [config.AccLstat d; config.AccReadDir d])
          | Ok l =>
              let r := config.walk_names w
                         (config.walk w (config.getConfigWalker env w reg kinds d))
                         (config.getConfigWalker env w reg kinds d) d l cfg in
              (fst r, config.AccLstat d :: config.AccReadDir d :: snd r)
          end
        else ((cfg, None), [config.AccLstat d])
    end.
Proof.
  unfold config.filepath_Walk.
  destruct (config.lstat_tree w d) as [[info listing]|e].
  2: { unfold config.getConfigWalker, config.wbind, config.touch, config.wret. done. }
  cbn [config.walk].
  unfold config.getConfigWalker at 1. rewrite decide_True by done.
  destruct (config.IsDir (config.Mode info)); cbn [negb].
  - destruct listing as [l|e].
    + unfold config.wbind, config.touch, config.wret. cbv zeta.
      by destruct (config.walk_names w _ _ d l cfg) as [[cfg' err] reads].
    + unfold config.getConfigWalker, config.wbind, config.touch, config.wret. done.
  - unfold config.wbind, config.touch, config.wret. done.
Qed.

(** X17.  The walk stays in the subdirectory.  [filepath.Walk] with the
    walker of [getConfigWalker] looks at the subdirectory and at the
    entries of its listing and at nothing below them: it lists no other
    directory, and the only files it reads are entries that are regular
    files with a name ending in ".json"; when it returns no error it has
    read every such entry.  It never returns [filepath.SkipDir].  A
    subdirectory that [Lstat] does not report as a directory - a symbolic
    link to one - is passed over without error; a failure of [Lstat] or of
    the listing is returned. *)
Theorem walk_stays_in_directory (env : Env) (w : config.World) (reg : config.registry)
    (kinds : list string) (d : string) (cfg : config.Config) :
  let r := config.filepath_Walk w d (config.getConfigWalker env w reg kinds d) cfg in
  match config.lstat_tree w d with
  | Err e => r = ((cfg, Some (config.Failure e)), [config.AccLstat d])
  | Ok (config.Entry info listing) =>
      if config.IsDir (config.Mode info) then
        match listing with
        | Err e =>
            r = ((cfg, Some (config.Failure e)), [config.AccLstat d; config.AccReadDir d])
        | Ok l =>
            (forall name found, (name, found) ∈ l -> config.filepath_Join w d name <> d) ->
            snd (fst r) <> Some config.SkipDir /\
            Forall (config.flat w d l) (snd r) /\
            (snd (fst r) = None ->
             forall name sub, (name, Ok sub) ∈ l -> config.accepted (config.info_of sub) ->
               config.AccReadFile (config.filepath_Join w d name) ∈ snd r)
        end
      else r = ((cfg, None), [config.AccLstat d])
  end.
Proof.
  cbv zeta. rewrite filepath_Walk_run.
  destruct (config.lstat_tree w d) as [[info listing]|e]; [|done].
  destruct (config.IsDir (config.Mode info)); [|done].
  destruct listing as [l|e]; [|done].
  intros Hsane.
  destruct (walk_names_flat env w reg kinds d l cfg Hsane) as (H1 & H2 & H3).
  destruct (config.walk_names w _ _ d l cfg) as [[cfg' err] reads].
  cbn [fst snd Datatypes.app] in *. split; [done|]. split.
  - apply Forall_cons_2; [by left|]. by apply Forall_cons_2.
  - intros Hnone name sub Hin Hacc. do 2 right. by apply (H3 Hnone name sub).
Qed.

(** ** The directories *)

Section Directories.

Context (env : Env) (w : config.World) (reg : config.registry).

Lemma readSubDirs_missing (dir : string) (subdirs : list (string * list string)) :
  forall cfg,
  (forall csd kinds, (csd, kinds) ∈ subdirs ->
     exists e, config.os_Stat w (config.filepath_Join w dir csd) = Err e /\
               config.os_IsNotExist w e = true) ->
  config.readSubDirs env w reg cfg dir subdirs =
    ((cfg, None), map (fun x => config.AccStat (config.filepath_Join w dir (fst x))) subdirs).
Proof.
  induction subdirs as [|[csd kinds] subdirs IH]; intros cfg Hmissing; [done|].
  cbn [config.readSubDirs map fst]. unfold config.validDir, config.wbind, config.touch.
  destruct (Hmissing csd kinds) as (e & -> & ->); [left|].
  cbn [config.wret fst snd]. rewrite IH; [done|].
  intros c k Hin. apply (Hmissing c k). by right.
Qed.

End Directories.

(** X18.  A directory that is not there is an empty configuration.
    [GetConfigFromDir] returns the empty configuration and no error for a
    directory that does not exist, after the one [Stat]; and also for a
    directory in which none of the registered subdirectories exists, after
    one [Stat] for each of them, whatever the order [range] visits them
    in: nothing is listed and no file is read.  Any other failure of
    [Stat] is returned as it is, and a path that is not a directory is the
    error "expected ... to be a directory". *)
Theorem missing_directory_is_empty (env : Env) (w : config.World) (Hw : config.ranges_maps w)
    (reg : config.registry) (dir : string) :
  match config.os_Stat w dir with
  | Err e =>
      config.GetConfigFromDir env w reg dir =
        (if config.os_IsNotExist w e then Ok config.newConfig else Err e, [config.AccStat dir])
  | Ok fi =>
      if config.IsDir (config.Mode fi) then
        (forall csd kinds, config.configSubDirs reg !! csd = Some kinds ->
           exists e, config.os_Stat w (config.filepath_Join w dir csd) = Err e /\
                     config.os_IsNotExist w e = true) ->
        exists stats,
          config.GetConfigFromDir env w reg dir
            = (Ok config.newConfig, config.AccStat dir :: stats) /\
          stats ≡ₚ map (fun x => config.AccStat (config.filepath_Join w dir (fst x)))
                     (map_to_list (config.configSubDirs reg))
      else
        config.GetConfigFromDir env w reg dir =
          (Err (Errorf ("expected " +:+ config.strconv_Quote w dir +:+ " to be a directory")),
           [config.AccStat dir])
  end.
Proof.
  unfold config.GetConfigFromDir, config.validDir, config.wbind at 1 2, config.touch.
  cbv zeta.
  destruct (config.os_Stat w dir) as [fi|e].
  2: { by destruct (config.os_IsNotExist w e). }
  destruct (config.IsDir (config.Mode fi)); cbn [negb]; [|done].
  intros Hmissing. unfold config.readConfigDir, config.wbind, config.wret. cbn [fst snd].
  rewrite (readSubDirs_missing env w reg dir).
  - eexists. split; [done|]. rewrite app_nil_r.
    apply Permutation_map, (config.range_subdirs_perm w Hw).
  - intros csd kinds Hin. apply (Hmissing csd kinds).
    apply elem_of_map_to_list. by rewrite <- (config.range_subdirs_perm w Hw).
Qed.

(** X19.  Local overrides system.  [GetConfigFrom] reads the system
    directory and then the local one.  When the system directory fails,
    its error is returned and the local directory is not looked at; when
    the local directory fails, its error is returned.  Otherwise the
    configuration has, for every host, the headerer of the local
    directory when there is one, and that of the system directory
    otherwise; and the same for the credentials of a registry. *)
Theorem local_overrides_system (env : Env) (w : config.World) (Hw : config.ranges_maps w)
    (reg : config.registry) (system local : string) :
  match config.GetConfigFromDir env w reg system with
  | (Err e, reads) => config.GetConfigFrom env w reg system local = (Err e, reads)
  | (Ok sys, reads) =>
      match config.GetConfigFromDir env w reg local with
      | (Err e, reads') =>
          config.GetConfigFrom env w reg system local = (Err e, reads ++ reads')
      | (Ok loc, reads') =>
          exists cfg,
            config.GetConfigFrom env w reg system local = (Ok cfg, reads ++ reads') /\
            (forall host,
               config.AuthPerHost cfg !! host =
                 match config.AuthPerHost loc !! host with
                 | Some headerer => Some headerer
                 | None => config.AuthPerHost sys !! host
                 end) /\
            (forall registry,
               config.DockerCredentialsPerRegistry cfg !! registry =
                 match config.DockerCredentialsPerRegistry loc !! registry with
                 | Some creds => Some creds
                 | None => config.DockerCredentialsPerRegistry sys !! registry
                 end)
      end
  end.
Proof.
  unfold config.GetConfigFrom. cbn [config.mergeDirs]. unfold config.wbind, config.wret.
  destruct (config.GetConfigFromDir env w reg system) as [[sys|e] reads];
    [|by rewrite app_nil_r].
  destruct (config.GetConfigFromDir env w reg local) as [[loc|e] reads'];
    [|by rewrite app_nil_r].
  rewrite !(mergeConfigs_run w Hw). cbn [config.AuthPerHost config.DockerCredentialsPerRegistry
    config.newConfig].
  eexists. split; [by rewrite app_nil_r|].
  cbn [config.AuthPerHost config.DockerCredentialsPerRegistry].
  split; intros k; rewrite !lookup_union, lookup_empty.
  - by destruct (config.AuthPerHost loc !! k), (config.AuthPerHost sys !! k).
  - by destruct (config.DockerCredentialsPerRegistry loc !! k),
      (config.DockerCredentialsPerRegistry sys !! k).
Qed.

(** ** From the registry to the file *)

Section Registered.

Context (env : Env) (w : config.World).

Lemma addParser_returns (reg reg' : config.registry) (kind version : string)
    (parser : option config.configParser) :
  config.addParser w kind version parser reg = config.Returns reg' ->
  kind <> "" /\ version <> "" /\
  (exists e, config.getParser w reg kind version = Err e) /\
  exists p, parser = Some p /\ config.getParser w reg' kind version = Ok p.
Proof.
  unfold config.addParser.
  destruct (decide (String.length kind = 0%nat)) as [Hk|Hk]; [done|].
  destruct (decide (String.length version = 0%nat)) as [Hv|Hv]; [done|].
  destruct parser as [p|]; [|done].
  destruct (config.getParser w reg kind version) as [p0|e] eqn:Hget; [done|].
  intros [= <-]. rewrite string_length_zero in Hk, Hv.
  split; [done|]. split; [done|]. split; [by eexists|].
  exists p. split; [done|]. unfold config.getParser. cbn [config.parsersForKind].
  by rewrite !lookup_insert_eq.
Qed.

End Registered.

(** X23.  A parser handles the files of its kind once it is registered.
    Let [addParser] register [parser] for a kind and a version, and let a
    file be read whose header decodes to that kind and version, in a
    directory that admits the kind.  With the registry as [addParser]
    leaves it, [parseConfigFile] hands the configuration and the bytes of
    the file to [parser]: the configuration is what [parser] makes of it,
    and an error of [parser] comes back as "failed to parse ...".  With
    the registry as it was before, the same file is refused with the
    error of [getParser], and the configuration is not touched. *)
Theorem registered_parser_runs (env : Env) (w : config.World) (reg reg' : config.registry)
    (kind version : string) (parser : config.configParser) (cfg : config.Config)
    (path raw : string) (kinds : list string) :
  config.addParser w kind version (Some parser) reg = config.Returns reg' ->
  config.ioutil_ReadFile w path = Ok raw ->
  config.Unmarshal_configHeader env raw config.zero_configHeader
    = ({| config.RktVersion := version; config.RktKind := kind |}, None) ->
  kind ∈ kinds ->
  config.parseConfigFile env w reg' cfg path kinds =
    ((fst (parser cfg raw),
      match snd (parser cfg raw) with
      | Some err =>
          Some (Errorf ("failed to parse " +:+ config.strconv_Quote w path +:+ ": "
                        +:+ Error err))
      | None => None
      end), [config.AccReadFile path]) /\
  exists e,
    config.getParser w reg kind version = Err e /\
    config.parseConfigFile env w reg cfg path kinds = ((cfg, Some e), [config.AccReadFile path]).
Proof.
  intros Hadd Hread Hdec Hin.
  destruct (addParser_returns w reg reg' kind version (Some parser) Hadd)
    as (Hk & Hv & [e Hbefore] & p & [= <-] & Hafter).
  apply existsb_eqb_elem_of in Hin.
  split; [|exists e; split; [done|]].
  - unfold config.parseConfigFile, config.wbind, config.touch, config.wret.
    rewrite Hread, Hdec. cbn [config.RktKind config.RktVersion].
    rewrite !decide_False by (by rewrite string_length_zero).
    rewrite Hin, Hafter. cbn [negb].
    by destruct (parser cfg raw) as [cfg' [err|]].
  - unfold config.parseConfigFile, config.wbind, config.touch, config.wret.
    rewrite Hread, Hdec. cbn [config.RktKind config.RktVersion].
    rewrite !decide_False by (by rewrite string_length_zero).
    by rewrite Hin, Hbefore.
Qed.

Lemma registered_parser_runs_witness :
  let reg := {| config.configSubDirs := config.configSubDirs SampleConfig.reg;
                config.parsersForKind := ∅ |} in
  config.addParser SampleConfig.world "auth" "v1" (Some SampleConfig.authV1) reg
    = config.Returns SampleConfig.reg /\
  config.parseConfigFile (SampleConfig.env Sample.good_server) SampleConfig.world
    SampleConfig.reg config.newConfig "/etc/rkt/auth.d/example.json" [""; "auth"]
    = ((fst (SampleConfig.authV1 config.newConfig SampleConfig.auth_doc), None),
       [config.AccReadFile "/etc/rkt/auth.d/example.json"]).
Proof.
  intros reg.
  assert (Hadd : config.addParser SampleConfig.world "auth" "v1" (Some SampleConfig.authV1) reg
                 = config.Returns SampleConfig.reg) by (vm_compute; reflexivity).
  split; [exact Hadd|].
  refine (proj1 (registered_parser_runs (SampleConfig.env Sample.good_server)
                   SampleConfig.world reg SampleConfig.reg "auth" "v1" SampleConfig.authV1
                   config.newConfig "/etc/rkt/auth.d/example.json" SampleConfig.auth_doc
                   [""; "auth"] Hadd eq_refl eq_refl _)).
  right. left.
Defined.

(** * Properties of main.go *)

(** ** The auth hook *)

Lemma Header_get_app (hdr1 hdr2 : list (string * string)) (k : string) :
  main.Header_get (hdr1 ++ hdr2) k = main.Header_get hdr1 k ++ main.Header_get hdr2 k.
Proof. unfold main.Header_get. by rewrite filter_app, fmap_app. Qed.

Lemma Header_get_pairs (k0 k : string) (vs : list string) :
  main.Header_get (map (pair k0) vs) k = if decide (k = k0) then vs else [].
Proof.
  unfold main.Header_get. induction vs as [|v vs IH]; [by destruct (decide _)|].
  cbn [map]. destruct (decide (k = k0)) as [->|Hne].
  - rewrite filter_cons_True by done. rewrite fmap_cons. cbn [snd]. by rewrite IH.
  - rewrite filter_cons_False by (cbn; congruence). done.
Qed.

Lemma Header_get_removed (hdr : list (string * string)) (k0 k : string) :
  main.Header_get (filter (fun kv => fst kv <> k0) hdr) k
    = if decide (k = k0) then [] else main.Header_get hdr k.
Proof.
  unfold main.Header_get. induction hdr as [|[k1 v1] hdr IH]; [by destruct (decide _)|].
  destruct (decide (k1 = k0)) as [->|Hne1].
  - rewrite (filter_cons_False (fun kv => fst kv <> k0)) by (cbn; auto). rewrite IH.
    destruct (decide (k = k0)) as [->|Hne]; [done|].
    by rewrite (filter_cons_False (fun kv => fst kv = k)) by (cbn; congruence).
  - rewrite (filter_cons_True (fun kv => fst kv <> k0)) by done.
    destruct (decide (k1 = k)) as [->|Hne].
    + rewrite !(filter_cons_True (fun kv => fst kv = k)) by done.
      rewrite (decide_False (P := k = k0)) by done.
      rewrite !fmap_cons, IH. by rewrite decide_False.
    + rewrite !(filter_cons_False (fun kv => fst kv = k)) by done. apply IH.
Qed.

(** [r.Header[k0] = vs] and then [r.Header[k]]. *)
Lemma Header_get_set (hdr : list (string * string)) (k0 k : string) (vs : list string) :
  main.Header_get (main.Header_set hdr k0 vs) k
    = if decide (k = k0) then vs else main.Header_get hdr k.
Proof.
  unfold main.Header_set. rewrite Header_get_app, Header_get_removed, Header_get_pairs.
  destruct (decide (k = k0)); [done|by rewrite app_nil_r].
Qed.

Lemma append_headers (l : list (string * list string)) : forall hdr k,
  NoDup l.*1 ->
  main.Header_get
    (foldl (fun hdr kv =>
              main.Header_set hdr (fst kv) (main.Header_get hdr (fst kv) ++ snd kv)) hdr l) k
    = main.Header_get hdr k ++ default [] ((list_to_map l : gmap string (list string)) !! k).
Proof.
  induction l as [|[k0 v0] l IH]; intros hdr k Hnd; cbn [foldl fst snd].
  - by rewrite list_to_map_nil, lookup_empty, app_nil_r.
  - rewrite fmap_cons in Hnd. cbn [fst] in Hnd. apply NoDup_cons in Hnd as [Hk0 Hnd].
    rewrite (IH _ _ Hnd), Header_get_set, list_to_map_cons.
    destruct (decide (k = k0)) as [->|Hne].
    + rewrite lookup_insert_eq. cbn [default].
      rewrite (not_elem_of_list_to_map_1 _ _ Hk0). cbn [default]. by rewrite app_nil_r.
    + by rewrite lookup_insert_ne.
Qed.

(** X20.  The auth hook adds and never removes.  The closure [runACPush]
    gives to lib leaves the method, the URL and the body of a request as
    they are.  For a host without an entry in the configuration it leaves
    the headers as they are too, and writes one line to standard error
    when [-debug] is set and nothing otherwise.  For a host with an entry
    it writes nothing, and every header name keeps the values it had, in
    their order, followed by the values the configured header has under
    that name - whatever the order in which [range] visits the configured
    header. *)
Theorem auth_hook_adds (w : config.World) (Hw : config.ranges_maps w) (conf : config.Config)
    (debug : bool) (r : Request) :
  let out := main.SetHTTPHeaders_closure w conf debug r in
  let host := config.url_Host w (URL r) in
  Method (fst out) = Method r /\ URL (fst out) = URL r /\ ReqBody (fst out) = ReqBody r /\
  match config.AuthPerHost conf !! host with
  | None =>
      fst out = r /\
      snd out = if debug
                then ["No auth present in config for domain " +:+ host +:+ "." +:+ newline]
                else []
  | Some header =>
      snd out = [] /\
      forall k, main.Header_get (Header (fst out)) k
                = main.Header_get (Header r) k ++ default [] (header !! k)
  end.
Proof.
  cbv zeta. unfold main.SetHTTPHeaders_closure.
  destruct (config.AuthPerHost conf !! config.url_Host w (URL r)) as [header|];
    cbn [fst snd Method URL ReqBody Header]; [|done].
  do 3 (split; [done|]). split; [done|]. intros k.
  pose proof (config.range_header_perm w Hw header) as Hperm.
  rewrite append_headers by (rewrite Hperm; apply NoDup_fst_map_to_list).
  by rewrite <- (list_to_map_flip header _ (symmetry Hperm)).
Qed.

(** ** The exit status *)

(** X21.  The exit status.  [acpush] exits with 1 and the usage text,
    before it reads anything, unless it is given exactly three arguments.
    It exits with 2 exactly when it has three arguments and the
    configuration fails to load, and then it has opened no file of the
    upload and started no session.  It exits with 0 only when [Upload],
    for the three arguments and the flags, has returned no error - so
    only after the three parts were sent and the report of success was
    answered with [success]. *)
Theorem exit_status (env : Env) (w : config.World) (reg : config.registry) (fl : main.flags)
    (args : list string) :
  let r := main.runACPush env w reg fl args in
  let loaded :=
    config.GetConfigFrom env w reg (main.flagSystemConfigDir fl) (main.flagLocalConfigDir fl) in
  (length args <> 3%nat -> r = (1, [main.Usage])) /\
  (fst r = 2 <-> length args = 3%nat /\ exists e, fst loaded = Err e) /\
  (fst r = 2 ->
   exists text, snd r = map main.Access (snd loaded) ++ [main.Stderr text]) /\
  (fst r = 0 <->
   length args = 3%nat /\
   exists conf, fst loaded = Ok conf /\ fst (Upload env (main.uploader w conf fl args) []) = None) /\
  (fst r = 0 ->
   exists conf acifile ascfile manblob initDeets resp reply,
     let session := snd (Upload env (main.uploader w conf fl args) []) in
     fst loaded = Ok conf /\
     os_Open env (args !!! 0%nat) = Ok acifile /\
     os_Open env (args !!! 1%nat) = Ok ascfile /\
     map put_source (put_requests session)
       = [(ManifestURL initDeets, BytesReader manblob);
          (SignatureURL initDeets, FileBody ascfile);
          (ACIURL initDeets, FileBody acifile)] /\
     completion_posts session
       = [(CompletedURL initDeets,
           fst (Marshal_completeMsg env {| Success := true; Reason := ""; ServerReason := "" |}))] /\
     last (closed_bodies session) = Some resp /\
     body_err resp = None /\
     Unmarshal_completeMsg env (body_bytes resp) zero_completeMsg = (reply, None) /\
     Success reply = true).
Proof.
  cbv zeta. unfold main.runACPush.
  destruct (decide (length args <> 3%nat)) as [Hargs|Hargs].
  { cbn [fst snd]. split; [done|]. split; [by split; [|intros [? _]]|].
    split; [done|]. split; [by split; [|intros [? _]]|done]. }
  assert (Hlen : length args = 3%nat) by (by destruct (decide (length args = 3%nat))).
  destruct (config.GetConfigFrom env w reg _ _) as [[conf|e] reads]; cbn [fst snd].
  - destruct (Upload env (main.uploader w conf fl args) []) as [[err|] events] eqn:Hup;
      cbn [fst snd].
    + split; [done|]. split; [by split; [|intros [_ [? ?]]]|]. split; [done|].
      split; [|done]. split; [done|]. intros (_ & conf' & Hc & Hnil). simplify_eq.
      rewrite Hup in Hnil. done.
    + split; [done|]. split; [by split; [|intros [_ [? ?]]]|]. split; [done|].
      split.
      * split; [|done]. intros _. split; [done|]. exists conf. by rewrite Hup.
      * intros _.
        destruct (Upload_nil_acknowledged env (main.uploader w conf fl args) [])
          as (acifile & ascfile & manblob & initDeets & resp & reply & H);
          [by rewrite Hup|].
        exists conf, acifile, ascfile, manblob, initDeets, resp, reply.
        rewrite Hup in H. cbn [snd] in H. rewrite Hup. cbn [snd]. by split.
  - split; [done|]. split; [split; [|done]; intros _; split; [done|by eexists]|].
    split; [intros _; by eexists|]. split; [|done].
    split; [done|]. by intros (_ & ? & ? & _).
Qed.

(** * The sample configuration *)

Lemma SampleConfig_ranges : config.ranges_maps SampleConfig.world.
Proof. by constructor. Qed.

Example sample_configuration :
  fst (config.GetConfigFrom (SampleConfig.env Sample.good_server) SampleConfig.world
         SampleConfig.reg "/usr/lib/rkt" "/etc/rkt")
    = Ok {| config.AuthPerHost := {["example.com" := SampleConfig.basic_auth]};
            config.DockerCredentialsPerRegistry := ∅ |} /\
  snd (config.GetConfigFrom (SampleConfig.env Sample.good_server) SampleConfig.world
         SampleConfig.reg "/usr/lib/rkt" "/etc/rkt")
    = [config.AccStat "/usr/lib/rkt"; config.AccStat "/etc/rkt";
       config.AccStat "/etc/rkt/auth.d"; config.AccLstat "/etc/rkt/auth.d";
       config.AccReadDir "/etc/rkt/auth.d";
       config.AccLstat "/etc/rkt/auth.d/README";
       config.AccLstat "/etc/rkt/auth.d/example.json";
       config.AccReadFile "/etc/rkt/auth.d/example.json";
       config.AccLstat "/etc/rkt/auth.d/nested";
       config.AccLstat "/etc/rkt/auth.d/old.json"] /\
  fst (main.runACPush (SampleConfig.env Sample.good_server) SampleConfig.world
         SampleConfig.reg SampleConfig.flags SampleConfig.args) = 0.
Proof. vm_compute. repeat split. Qed.

Lemma registered_kinds_witness :
  exists reg',
    config.registerSubDir SampleConfig.world "auth.d" ["auth"]
      {| config.configSubDirs := ∅; config.parsersForKind := ∅ |} = config.Returns reg' /\
    config.configSubDirs reg' = config.configSubDirs SampleConfig.reg.
Proof.
  pose proof (registered_kinds SampleConfig.world SampleConfig_ranges
                {| config.configSubDirs := ∅; config.parsersForKind := ∅ |}
                "auth.d" ["auth"]) as H.
  cbv zeta in H.
  destruct (config.registerSubDir SampleConfig.world "auth.d" ["auth"] _) as [reg'|msg].
  - exists reg'. split; [reflexivity|].
    destruct H as (_ & _ & _ & -> & _). vm_compute. reflexivity.
  - exfalso. destruct H as [H|H]; discriminate H.
Defined.

Lemma later_configuration_wins_witness :
  config.AuthPerHost
    (config.mergeConfigs SampleConfig.world
       {| config.AuthPerHost := {["example.com" := ∅]};
          config.DockerCredentialsPerRegistry := ∅ |}
       {| config.AuthPerHost := {["example.com" := SampleConfig.basic_auth]};
          config.DockerCredentialsPerRegistry := ∅ |}) !! "example.com"
    = Some SampleConfig.basic_auth.
Proof.
  rewrite (proj1 (later_configuration_wins SampleConfig.world SampleConfig_ranges _ _ _)).
  reflexivity.
Defined.

Lemma configuration_files_witness :
  fst (config.validConfigFile
         {| config.Name := "example.json"; config.Mode := SampleConfig.file_mode |}) = true.
Proof.
  apply (proj1 (configuration_files _)).
  split; [reflexivity|]. split; [reflexivity|]. exists "example". reflexivity.
Defined.

Lemma one_file_one_parser_witness :
  snd (fst (config.parseConfigFile (SampleConfig.env Sample.good_server) SampleConfig.world
              SampleConfig.reg config.newConfig "/etc/rkt/auth.d/example.json" [""; "auth"]))
    = None.
Proof.
  apply (proj1 (proj2 (one_file_one_parser (SampleConfig.env Sample.good_server)
                         SampleConfig.world SampleConfig.reg config.newConfig
                         "/etc/rkt/auth.d/example.json" [""; "auth"]))).
  exists SampleConfig.auth_doc, {| config.RktVersion := "v1"; config.RktKind := "auth" |},
    SampleConfig.authV1.
  split; [|reflexivity].
  split; [reflexivity|]. split; [reflexivity|]. split; [discriminate|].
  split; [discriminate|]. split; [|reflexivity].
  right. left.
Defined.

Lemma walk_stays_in_directory_witness :
  let r := config.filepath_Walk SampleConfig.world "/etc/rkt/auth.d"
             (config.getConfigWalker (SampleConfig.env Sample.good_server) SampleConfig.world
                SampleConfig.reg [""; "auth"] "/etc/rkt/auth.d") config.newConfig in
  snd (fst r) <> Some config.SkipDir /\
  Forall (fun a => a <> config.AccReadDir "/etc/rkt/auth.d/nested" /\
                   a <> config.AccReadFile "/etc/rkt/auth.d/nested/deep.json" /\
                   a <> config.AccReadFile "/etc/rkt/auth.d/old.json") (snd r) /\
  config.AccReadFile "/etc/rkt/auth.d/example.json" ∈ snd r.
Proof.
  intros r.
  pose proof (walk_stays_in_directory (SampleConfig.env Sample.good_server) SampleConfig.world
                SampleConfig.reg [""; "auth"] "/etc/rkt/auth.d" config.newConfig) as H.
  cbv zeta in H. fold r in H.
  change (config.lstat_tree SampleConfig.world "/etc/rkt/auth.d") with (Ok SampleConfig.auth_d)
    in H.
  unfold SampleConfig.auth_d at 1 in H. cbv iota beta in H.
  change (config.IsDir _) with true in H. cbv iota in H.
  destruct H as (Hskip & Hflat & Hall).
  { intros name found Hin.
    repeat (apply elem_of_cons in Hin as [Heq|Hin]; [injection Heq as -> _; discriminate|]).
    by apply elem_of_nil in Hin. }
  split; [exact Hskip|]. split.
  - eapply Forall_impl; [exact Hflat|]. intros [p|p|p|p] Hp; cbn in Hp.
    + destruct Hp.
    + repeat split; discriminate.
    + subst p. repeat split; discriminate.
    + destruct Hp as (name & sub & Hin & -> & Hacc). unfold SampleConfig.file in Hin.
      repeat (apply elem_of_cons in Hin as [Heq|Hin];
              [injection Heq as -> ->|]); try (by apply elem_of_nil in Hin).
      * repeat split; discriminate.
      * repeat split; discriminate.
      * destruct Hacc as [Hd _]. discriminate Hd.
      * destruct Hacc as (_ & Hr & _). discriminate Hr.
  - apply (Hall eq_refl "example.json"
             (config.Entry {| config.Name := "example.json";
                              config.Mode := SampleConfig.file_mode |}
                (Err (OSError "not a directory")))).
    + right. left.
    + split; [reflexivity|]. split; [reflexivity|]. by exists "example".
Defined.

Lemma missing_directory_is_empty_witness :
  exists stats,
    config.GetConfigFromDir (SampleConfig.env Sample.good_server) SampleConfig.world
      SampleConfig.reg "/opt/rkt"
      = (Ok config.newConfig, config.AccStat "/opt/rkt" :: stats) /\
    stats ≡ₚ [config.AccStat "/opt/rkt/auth.d"].
Proof.
  pose proof (missing_directory_is_empty (SampleConfig.env Sample.good_server)
                SampleConfig.world SampleConfig_ranges SampleConfig.reg "/opt/rkt") as H.
  change (config.os_Stat SampleConfig.world "/opt/rkt")
    with (Ok {| config.Name := "/opt/rkt"; config.Mode := SampleConfig.dir_mode |}) in H.
  cbv iota beta in H. change (config.IsDir _) with true in H. cbv iota in H.
  destruct H as (stats & Hrun & Hstats).
  - intros csd kinds Hlook. unfold SampleConfig.reg in Hlook.
    cbn [config.configSubDirs] in Hlook.
    apply lookup_singleton_Some in Hlook as [<- _].
    exists SampleConfig.no_such_file. split; reflexivity.
  - exists stats. split; [exact Hrun|]. rewrite Hstats.
    unfold SampleConfig.reg. cbn [config.configSubDirs]. rewrite map_to_list_singleton.
    reflexivity.
Defined.

Lemma local_overrides_system_witness :
  exists cfg,
    fst (config.GetConfigFrom (SampleConfig.env Sample.good_server) SampleConfig.world
           SampleConfig.reg "/usr/lib/rkt" "/etc/rkt") = Ok cfg /\
    config.AuthPerHost cfg !! "example.com" = Some SampleConfig.basic_auth.
Proof.
  pose proof (local_overrides_system (SampleConfig.env Sample.good_server)
                SampleConfig.world SampleConfig_ranges SampleConfig.reg
                "/usr/lib/rkt" "/etc/rkt") as H.
  destruct (config.GetConfigFromDir _ _ _ "/usr/lib/rkt") as [[sys|e] reads] eqn:Hsys;
    [|discriminate Hsys].
  destruct (config.GetConfigFromDir _ _ _ "/etc/rkt") as [[loc|e] reads'] eqn:Hloc;
    [|vm_compute in Hloc; discriminate Hloc].
  destruct H as (cfg & Hrun & Hauth & _).
  exists cfg. split; [by rewrite Hrun|]. rewrite Hauth.
  vm_compute in Hloc. injection Hloc as <- _. reflexivity.
Defined.

Lemma auth_hook_adds_witness :
  main.Header_get
    (Header (fst (main.SetHTTPHeaders_closure SampleConfig.world
                    {| config.AuthPerHost := {["example.com" := SampleConfig.basic_auth]};
                       config.DockerCredentialsPerRegistry := ∅ |} false
                    {| Method := "PUT"; URL := "https://example.com/aci";
                       Header := [("Authorization", "Bearer abc"); ("Accept", "*/*")];
                       ReqBody := NilBody |})))
    "Authorization"
    = ["Bearer abc"; "Basic Zm9vOmJhcg=="].
Proof.
  pose proof (auth_hook_adds SampleConfig.world SampleConfig_ranges
                {| config.AuthPerHost := {["example.com" := SampleConfig.basic_auth]};
                   config.DockerCredentialsPerRegistry := ∅ |} false
                {| Method := "PUT"; URL := "https://example.com/aci";
                   Header := [("Authorization", "Bearer abc"); ("Accept", "*/*")];
                   ReqBody := NilBody |}) as H.
  cbv zeta in H. destruct H as (_ & _ & _ & H).
  change (config.url_Host SampleConfig.world (URL _)) with "example.com" in H.
  cbn [config.AuthPerHost] in H. rewrite lookup_singleton_eq in H.
  destruct H as [_ H]. rewrite H. reflexivity.
Defined.

Lemma exit_status_witness :
  exists conf acifile ascfile manblob initDeets resp reply,
    let env := SampleConfig.env Sample.good_server in
    let session :=
      snd (Upload env
             (main.uploader SampleConfig.world conf SampleConfig.flags SampleConfig.args) []) in
    fst (config.GetConfigFrom env SampleConfig.world SampleConfig.reg "/usr/lib/rkt" "/etc/rkt")
      = Ok conf /\
    os_Open env "app.aci" = Ok acifile /\
    os_Open env "app.aci.asc" = Ok ascfile /\
    map put_source (put_requests session)
      = [(ManifestURL initDeets, BytesReader manblob);
         (SignatureURL initDeets, FileBody ascfile);
         (ACIURL initDeets, FileBody acifile)] /\
    completion_posts session
      = [(CompletedURL initDeets,
          fst (Marshal_completeMsg env {| Success := true; Reason := ""; ServerReason := "" |}))] /\
    last (closed_bodies session) = Some resp /\
    body_err resp = None /\
    Unmarshal_completeMsg env (body_bytes resp) zero_completeMsg = (reply, None) /\
    Success reply = true.
Proof.
  apply (proj2 (proj2 (proj2 (proj2
           (exit_status (SampleConfig.env Sample.good_server) SampleConfig.world
              SampleConfig.reg SampleConfig.flags SampleConfig.args))))).
  vm_compute. reflexivity.
Defined.
